(** * gitignore_parser: a shallow embedding and its verified properties

    The development follows [gitignore_parser.py]:

    - [Py]       the Python string operations the program calls;
    - [Pathlib]  pure POSIX paths and the file-system collaborator;
    - [Re]       the regular expressions the glob translator emits and
                 [re.search] on them;
    - the program itself: [rule_from_pattern], [fnmatch_pathname_to_regex],
      [IgnoreRule_match], [handle_negation], [parse_gitignore];
    - the properties.

    Python strings are lists of characters, Python exceptions are the
    [Raise] results of an error monad, and the platform is POSIX
    ([os.sep = "/"], [os.altsep = None]). *)

From Stdlib Require Import Ascii String.
From Stdlib Require Import List ZArith Bool Arith Lia Sorted.
Import ListNotations.

Set Implicit Arguments.

(** ** Strings, exceptions *)

Definition str := list ascii.

(** A string literal. *)
Definition lit (s : string) : str := list_ascii_of_string s.

Inductive exn : Type :=
| ValueError
| IndexError
| TypeError
| ReError       (* re.error *)
| OSError.      (* what the file system may raise *)

Inductive result (A : Type) : Type :=
| Ok (a : A)
| Raise (e : exn).

Arguments Ok {A} a.
Arguments Raise {A} e.

Definition bind {A B : Type} (m : result A) (k : A -> result B) : result B :=
  match m with
  | Ok a => k a
  | Raise e => Raise e
  end.

Notation "x <- m ;; k" := (bind m (fun x => k))
  (at level 61, m at next level, right associativity).

Definition str_eqb (a b : str) : bool :=
  if list_eq_dec ascii_dec a b then true else false.

(** ** The Python string operations used by the program *)

Module Py.

(** [str.isspace] on one character (code points below 256). *)
Definition isspace (c : ascii) : bool :=
  let n := nat_of_ascii c in
  ((9 <=? n) && (n <=? 13)) || ((28 <=? n) && (n <=? 32))
  || (n =? 133) || (n =? 160).

Fixpoint lstrip (s : str) : str :=
  match s with
  | c :: s' => if isspace c then lstrip s' else s
  | [] => []
  end.

Definition rstrip (s : str) : str := rev (lstrip (rev s)).

Definition strip (s : str) : str := rstrip (lstrip s).

(** [s.rstrip(chars)] *)
Fixpoint lstrip_chars (chars s : str) : str :=
  match s with
  | c :: s' => if existsb (Ascii.eqb c) chars then lstrip_chars chars s' else s
  | [] => []
  end.

Definition rstrip_chars (chars s : str) : str :=
  rev (lstrip_chars chars (rev s)).

Fixpoint startswith (s m : str) : bool :=
  match m, s with
  | [], _ => true
  | a :: m', b :: s' => Ascii.eqb b a && startswith s' m'
  | _ :: _, [] => false
  end.

Definition endswith (s m : str) : bool := startswith (rev s) (rev m).

(** [s.find(sub)]: the lowest index where [sub] occurs, or [-1]. *)
Fixpoint find (s sub : str) : Z :=
  if startswith s sub then 0%Z
  else match s with
       | [] => (-1)%Z
       | _ :: s' => let r := find s' sub in
                    if (r <? 0)%Z then (-1)%Z else (r + 1)%Z
       end.

(** [c in s] for a one-character [c]. *)
Definition contains (c : ascii) (s : str) : bool := existsb (Ascii.eqb c) s.

(** [s[i]], with Python's negative indices and its [IndexError]. *)
Definition getitem (s : str) (i : Z) : result ascii :=
  let n := Z.of_nat (length s) in
  let j := if (i <? 0)%Z then (i + n)%Z else i in
  if ((j <? 0) || (n <=? j))%Z then Raise IndexError
  else match nth_error s (Z.to_nat j) with
       | Some c => Ok c
       | None => Raise IndexError
       end.

(** [s[k:]] and [s[:-k]] for [0 < k], [s[i:j]] for [0 <= i, j]. *)
Definition slice_from (s : str) (k : nat) : str := skipn k s.
Definition slice_to_minus (s : str) (k : nat) : str := firstn (length s - k) s.
Definition slice (s : str) (i j : nat) : str := firstn (j - i) (skipn i s).

(** [s.replace(c, new)] for a one-character [c]. *)
Definition replace (s : str) (c : ascii) (new : str) : str :=
  flat_map (fun x => if Ascii.eqb x c then new else [x]) s.

(** [sep.join(parts)] *)
Fixpoint join (sep : str) (parts : list str) : str :=
  match parts with
  | [] => []
  | [p] => p
  | p :: rest => p ++ sep ++ join sep rest
  end.

(** [s.split(sep)] for a one-character [sep]. *)
Fixpoint split_aux (sep : ascii) (cur : str) (s : str) : list str :=
  match s with
  | [] => [rev cur]
  | c :: s' => if Ascii.eqb c sep then rev cur :: split_aux sep [] s'
               else split_aux sep (c :: cur) s'
  end.

Definition split (sep : ascii) (s : str) : list str := split_aux sep [] s.

(** The start indices of [re.finditer(r'\*\*', s)]: the occurrences of two
    asterisks, leftmost first, not overlapping. [i] is the index of the head
    of [s] in the whole string. *)
Fixpoint finditer_double_asterisk (s : str) (i : nat) : list nat :=
  match s with
  | [] => []
  | c1 :: s' =>
      match s' with
      | [] => []
      | c2 :: s'' =>
          if Ascii.eqb c1 "*" && Ascii.eqb c2 "*"
          then i :: finditer_double_asterisk s'' (i + 2)
          else finditer_double_asterisk s' (i + 1)
      end
  end.

End Py.

(** ** Paths and the file system *)

Module Pathlib.

(** A [PurePosixPath]: its root (empty, ["/"] or ["//"]) and the components
    after it. *)
Record Path : Type := mkPath { root : str; parts : list str }.

Definition Path_eq_dec (p q : Path) : {p = q} + {p <> q}.
Proof.
  decide equality.
  - apply (list_eq_dec (list_eq_dec ascii_dec)).
  - apply (list_eq_dec ascii_dec).
Defined.

(** The root of a path string: two leading slashes are kept, one or more
    than two are a single slash. *)
Definition root_of (s : str) : str :=
  match s with
  | "/"%char :: "/"%char :: "/"%char :: _ => lit "/"
  | "/"%char :: "/"%char :: _ => lit "//"
  | "/"%char :: _ => lit "/"
  | _ => []
  end.

(** [Path(s)]: empty and ["."] components are dropped. *)
Definition Path_of_str (s : str) : Path :=
  {| root := root_of s;
     parts := filter (fun p => negb (str_eqb p []) && negb (str_eqb p (lit ".")))
                     (Py.split "/" s) |}.

Definition is_absolute (p : Path) : bool := negb (str_eqb (root p) []).

(** [p.parent] *)
Definition parent (p : Path) : Path :=
  {| root := root p; parts := removelast (parts p) |}.

Fixpoint strip_prefix (base l : list str) : option (list str) :=
  match base, l with
  | [], _ => Some l
  | b :: base', x :: l' => if str_eqb b x then strip_prefix base' l' else None
  | _ :: _, [] => None
  end.

(** [p.relative_to(base).parts]; [None] stands for the [ValueError]. *)
Definition relative_to (p base : Path) : option (list str) :=
  if str_eqb (root p) (root base) then strip_prefix (parts base) (parts p)
  else None.

(** The file system, an external collaborator: [is_dir] probes whether a
    path is a directory, [resolve] makes a path absolute and resolves its
    symbolic links ([None] when it raises). *)
Record FileSystem : Type := mkFS {
  fs_is_dir : Path -> bool;
  fs_resolve : Path -> option Path;
  fs_resolve_absolute :
    forall p q, fs_resolve p = Some q -> is_absolute q = true
}.

End Pathlib.
Import Pathlib.

(** ** Regular expressions: what the glob translator emits, and [re.search]

    A regular expression is the list of the pieces the translator appends
    to [res]; it begins with [(?ms)], under which [.] matches every
    character and [^], [$] match at the ends of lines. Of [re.search] the
    program keeps [bool(...)], whether some match exists, and this is what
    [search] computes; it raises [re.error] when a character set does not
    parse, as compiling the expression does. In a set the translator writes
    no escape but [\\] and [\^]. *)

Module Re.

(** One piece of the list [res] that [fnmatch_pathname_to_regex] joins into
    the regular expression; [text] below gives the Python string of each. *)
Inductive piece : Type :=
| Flags                (* (?ms)   *)
| Bol                  (* ^       *)
| Eol                  (* $       *)
| SlashEol             (* /$      *)
| EolOrSlash           (* ($|\/)  *)
| AnyStar              (* .*      *)
| SepOpt               (* [/]?    *)
| NonsepStar           (* [^/]*   *)
| Nonsep               (* [^/]    *)
| Sep                  (* [/]     *)
| LBracket             (* \[      *)
| Class (stuff : str)  (* [stuff] *)
| Lit (c : ascii).     (* re.escape(c) *)

Definition regex := list piece.

(** [re.escape(c)]: the characters Python escapes with a backslash. *)
Definition special_chars : str :=
  lit "()[]{}?*+-|^$\.&~# " ++
  [ascii_of_nat 9; ascii_of_nat 10; ascii_of_nat 13; ascii_of_nat 11;
   ascii_of_nat 12].

Definition escape (c : ascii) : str :=
  if Py.contains c special_chars then ["\"%char; c] else [c].

Definition text_of_piece (p : piece) : str :=
  match p with
  | Flags => lit "(?ms)"
  | Bol => lit "^"
  | Eol => lit "$"
  | SlashEol => lit "/$"
  | EolOrSlash => lit "($|\/)"
  | AnyStar => lit ".*"
  | SepOpt => lit "[/]?"
  | NonsepStar => lit "[^/]*"
  | Nonsep => lit "[^/]"
  | Sep => lit "[/]"
  | LBracket => lit "\["
  | Class stuff => lit "[" ++ stuff ++ lit "]"
  | Lit c => escape c
  end.

(** [''.join(res)] *)
Definition text (re : regex) : str := flat_map text_of_piece re.

(** *** Character sets

    The body of a set, between its brackets, as [sre_parse] reads it: an
    optional [^], then items; a backslash and the character after it are
    one item; [x-y] is a range, and a range with [y < x] is an error. *)

Inductive token : Type :=
| TChar (c : ascii)
| TEsc (c : ascii).

Fixpoint tokens (s : str) : list token :=
  match s with
  | [] => []
  | c :: s' =>
      if Ascii.eqb c "\" then
        match s' with
        | e :: s'' => TEsc e :: tokens s''
        | [] => [TChar c]
        end
      else TChar c :: tokens s'
  end.

Definition token_char (t : token) : ascii :=
  match t with TChar c => c | TEsc c => c end.

Definition is_dash (t : token) : bool :=
  match t with TChar c => Ascii.eqb c "-" | TEsc _ => false end.

(** The items of a set as ranges [(lo, hi)]; [None] is [re.error]. *)
Fixpoint set_items (toks : list token) : option (list (ascii * ascii)) :=
  match toks with
  | [] => Some []
  | this :: rest =>
      match rest with
      | dash :: rest' =>
          if is_dash dash then
            match rest' with
            | [] =>
                Some [(token_char this, token_char this);
                      ("-"%char, "-"%char)]
            | that :: rest'' =>
                let lo := token_char this in
                let hi := token_char that in
                if (nat_of_ascii hi <? nat_of_ascii lo) then None
                else option_map (cons (lo, hi)) (set_items rest'')
            end
          else
            option_map (cons (token_char this, token_char this))
                       (set_items rest)
      | [] => Some [(token_char this, token_char this)]
      end
  end.

(** A parsed set: negated or not, and its items. A body with no item is
    not a set the closing bracket ends. *)
Definition parse_set (stuff : str) : option (bool * list (ascii * ascii)) :=
  let toks := tokens stuff in
  let negate := match toks with
                | TChar c :: _ => Ascii.eqb c "^"
                | _ => false
                end in
  let body := if negate then tl toks else toks in
  match body with
  | [] => None
  | _ => option_map (pair negate) (set_items body)
  end.

Definition in_range (c : ascii) (r : ascii * ascii) : bool :=
  (nat_of_ascii (fst r) <=? nat_of_ascii c)
  && (nat_of_ascii c <=? nat_of_ascii (snd r)).

Definition set_accepts (stuff : str) (c : ascii) : bool :=
  match parse_set stuff with
  | Some (negate, items) => xorb negate (existsb (in_range c) items)
  | None => false
  end.

(** *** Matching *)

Definition is_sep (c : ascii) : bool := Ascii.eqb c "/".
Definition is_nonsep (c : ascii) : bool := negb (Ascii.eqb c "/").
Definition newline : ascii := ascii_of_nat 10.

(** [^] and [$] under the MULTILINE flag: [prev] is the character before
    the position, [s] the text from it. *)
Definition at_bol (prev : option ascii) : bool :=
  match prev with
  | None => true
  | Some c => Ascii.eqb c newline
  end.

Definition at_eol (s : str) : bool :=
  match s with
  | [] => true
  | c :: _ => Ascii.eqb c newline
  end.

Definition cont := option ascii -> str -> bool.

(** One character accepted by [P], then [k]. *)
Definition one (P : ascii -> bool) (k : cont) : cont :=
  fun _ s =>
    match s with
    | c :: s' => P c && k (Some c) s'
    | [] => false
    end.

(** Any number of characters accepted by [P], then [k]. *)
Fixpoint star (P : ascii -> bool) (k : cont) (prev : option ascii) (s : str)
  : bool :=
  k prev s
  || match s with
     | c :: s' => P c && star P k (Some c) s'
     | [] => false
     end.

(** The pieces of [re] match a prefix of [s], at a position after [prev]. *)
Fixpoint match_here (re : regex) : cont :=
  match re with
  | [] => fun _ _ => true
  | p :: re' =>
      let k := match_here re' in
      match p with
      | Flags => k
      | Bol => fun prev s => at_bol prev && k prev s
      | Eol => fun prev s => at_eol s && k prev s
      | SlashEol => one is_sep (fun prev s => at_eol s && k prev s)
      | EolOrSlash => fun prev s => (at_eol s && k prev s) || one is_sep k prev s
      | AnyStar => star (fun _ => true) k
      | SepOpt => fun prev s => one is_sep k prev s || k prev s
      | NonsepStar => star is_nonsep k
      | Nonsep => one is_nonsep k
      | Sep => one is_sep k
      | LBracket => one (Ascii.eqb "[") k
      | Class stuff => one (set_accepts stuff) k
      | Lit c => one (Ascii.eqb c) k
      end
  end.

(** Some position of [s] from which [re] matches. *)
Fixpoint search_from (re : regex) (prev : option ascii) (s : str) : bool :=
  match_here re prev s
  || match s with
     | c :: s' => search_from re (Some c) s'
     | [] => false
     end.

(** The character before the position reached once [m] is read. *)
Fixpoint after (prev : option ascii) (m : str) : option ascii :=
  match m with
  | [] => prev
  | c :: m' => after (Some c) m'
  end.

(** The regular expression compiles: every set in it parses. *)
Definition piece_ok (p : piece) : bool :=
  match p with
  | Class stuff => match parse_set stuff with Some _ => true | None => false end
  | _ => true
  end.

Definition compiles (re : regex) : bool := forallb piece_ok re.

(** [bool(re.search(regex, s))] *)
Definition search (re : regex) (s : str) : result bool :=
  if compiles re then Ok (search_from re None s) else Raise ReError.

End Re.
Import Re.

(** ** The program *)

Definition os_sep : ascii := "/".

(** [assert_absolute] *)
Definition assert_absolute (path : Path) : result unit :=
  if negb (is_absolute path) then Raise ValueError else Ok tt.

(** [str_lcut] *)
Definition str_lcut (s m : str) : str * bool :=
  if Py.startswith s m then (Py.slice_from s (length m), true)
  else (s, false).

(** [str_rcut] *)
Definition str_rcut (s m : str) : str * bool :=
  if Py.endswith s m then (Py.slice_to_minus s (length m), true)
  else (s, false).

(** [IgnoreRule]: the regular expression is kept as the list of pieces whose
    concatenation [Re.text] is the string the program stores. *)
Record IgnoreRule : Type := mkIgnoreRule {
  pattern : str;
  regex : Re.regex;
  negation : bool;
  directory_only : bool;
  anchored : bool;
  base_path : Path;
  source : Path * nat
}.

(** *** The glob translator *)

(** [pattern[j]] for an index in range. *)
Definition char_at (pattern : str) (j : nat) : ascii :=
  nth j pattern Ascii.zero.

(** [while j < n and pattern[j] != ']': j += 1], by recursion on the text
    from [j] on. *)
Fixpoint skip_to_rbracket (rest : str) : nat :=
  match rest with
  | [] => 0
  | c :: rest' => if Ascii.eqb c "]" then 0 else S (skip_to_rbracket rest')
  end.

(** One turn of the [while i < n] loop of [fnmatch_pathname_to_regex], from
    the state [(i, res)] to the next. *)
Definition fnmatch_step (pattern : str) (i : nat) (res : Re.regex)
  : result (nat * Re.regex) :=
  let n := length pattern in
  c <- Py.getitem pattern (Z.of_nat i) ;;
  let i := i + 1 in
  if Ascii.eqb c "*" then
    (* try: ... except IndexError: res.append(nonsep + '*') *)
    match nth_error pattern i with
    | None => Ok (i, res ++ [NonsepStar])
    | Some c1 =>
        if Ascii.eqb c1 "*" then
          let i := i + 1 in
          let res := res ++ [AnyStar] in
          match nth_error pattern i with
          | None => Ok (i, res ++ [NonsepStar])
          | Some c2 =>
              if Ascii.eqb c2 "/" then Ok (i + 1, res ++ [SepOpt])
              else Ok (i, res)
          end
        else Ok (i, res ++ [NonsepStar])
    end
  else if Ascii.eqb c "?" then Ok (i, res ++ [Nonsep])
  else if Ascii.eqb c "/" then Ok (i, res ++ [Sep])
  else if Ascii.eqb c "[" then
    let j := i in
    let j := if (j <? n) && Ascii.eqb (char_at pattern j) "!" then j + 1 else j in
    let j := if (j <? n) && Ascii.eqb (char_at pattern j) "]" then j + 1 else j in
    let j := j + skip_to_rbracket (skipn j pattern) in
    if n <=? j then Ok (i, res ++ [LBracket])
    else
      let stuff := Py.replace (Py.slice pattern i j) "\" (lit "\\") in
      let i := j + 1 in
      c0 <- Py.getitem stuff 0 ;;
      let stuff :=
        if Ascii.eqb c0 "!" then lit "^" ++ Py.slice_from stuff 1
        else if Ascii.eqb c0 "^" then lit "\" ++ stuff
        else stuff in
      Ok (i, res ++ [Class stuff])
  else Ok (i, res ++ [Lit c]).

(** [while i < n: ...]; every turn moves [i] forward, so [n - i] turns are
    enough ([fnmatch_loop_fuel] below). *)
Fixpoint fnmatch_loop (fuel : nat) (pattern : str) (i : nat) (res : Re.regex)
  : result Re.regex :=
  match fuel with
  | O => Ok res
  | S fuel' =>
      if i <? length pattern then
        st <- fnmatch_step pattern i res ;;
        fnmatch_loop fuel' pattern (fst st) (snd st)
      else Ok res
  end.

(** [fnmatch_pathname_to_regex] *)
Definition fnmatch_pathname_to_regex
  (pattern : str) (directory_only negation anchored : bool) : result Re.regex :=
  res <- fnmatch_loop (length pattern) pattern 0 [] ;;
  let res := if anchored then Bol :: res else res in
  let res := Flags :: res in
  let res :=
    if negb directory_only then res ++ [Eol]
    else if directory_only && negation then res ++ [SlashEol]
    else res ++ [EolOrSlash] in
  Ok res.

(** *** The pattern compiler *)

(** The body of [for m in re.finditer(r'\*\*', pattern)]: [true] when the loop
    returns from [rule_from_pattern]. *)
Definition double_asterisk_invalid (pattern : str) (start_index : nat)
  : result bool :=
  let start_index := Z.of_nat start_index in
  if negb (start_index =? 0)%Z
     && negb (start_index =? Z.of_nat (length pattern) - 2)%Z
  then
    before <- Py.getitem pattern (start_index - 1) ;;
    if negb (Ascii.eqb before "/") then Ok true
    else
      after <- Py.getitem pattern (start_index + 2) ;;
      Ok (negb (Ascii.eqb after "/"))
  else Ok false.

Fixpoint double_asterisk_loop (pattern : str) (starts : list nat) : result bool :=
  match starts with
  | [] => Ok false
  | start_index :: rest =>
      invalid <- double_asterisk_invalid pattern start_index ;;
      if invalid then Ok true else double_asterisk_loop pattern rest
  end.

(** [rule_from_pattern]; [Ok None] is the plain [return]. *)
Definition rule_from_pattern (pattern : str) (base_path : Path)
  (source : Path * nat) : result (option IgnoreRule) :=
  _ <- assert_absolute base_path ;;
  let orig_pattern := pattern in
  discard <- (if str_eqb (Py.strip pattern) [] then Ok true
              else c <- Py.getitem pattern 0 ;; Ok (Ascii.eqb c "#")) ;;
  if discard then Ok None else
  if (-1 <? Py.find pattern (lit "***"))%Z then Ok None else
  c <- Py.getitem pattern 0 ;;
  let negation := Ascii.eqb c "!" in
  let pattern := if negation then Py.slice_from pattern 1 else pattern in
  invalid <- double_asterisk_loop pattern (Py.finditer_double_asterisk pattern 0) ;;
  if invalid then Ok None else
  if str_eqb (Py.rstrip pattern) (lit "/") then Ok None else
  c <- Py.getitem pattern (-1) ;;
  let directory_only := Ascii.eqb c "/" in
  let anchored := Py.contains "/" (Py.slice_to_minus pattern 1) in
  let '(pattern, _) := str_lcut pattern (lit "/") in
  let '(pattern, have_double_asterisk) := str_lcut pattern (lit "**") in
  let anchored := if have_double_asterisk then false else anchored in
  let '(pattern, _) := str_lcut pattern (lit "/") in
  let '(pattern, _) := str_rcut pattern (lit "/") in
  let pattern :=
    if Py.startswith pattern (lit "\#") then Py.slice_from pattern 1
    else pattern in
  let pattern := Py.rstrip pattern in
  let '(pattern, have_escaped_space) := str_rcut pattern (lit "\") in
  let pattern := if have_escaped_space then pattern ++ lit " " else pattern in
  regex <- fnmatch_pathname_to_regex pattern directory_only negation anchored ;;
  Ok (Some {| pattern := orig_pattern;
              regex := regex;
              negation := negation;
              directory_only := directory_only;
              anchored := anchored;
              base_path := base_path;
              source := source |}).

(** *** Matching one rule, and the rule set *)

(** [IgnoreRule.match]; the bare [except] turns a failure of [resolve] or of
    [relative_to] into [False]. *)
Definition IgnoreRule_match (fs : FileSystem) (self : IgnoreRule)
  (abs_path : Path) (is_dir : option bool) : result bool :=
  let is_dir := match is_dir with
                | None => fs_is_dir fs abs_path
                | Some b => b
                end in
  match match fs_resolve fs abs_path with
        | Some resolved => relative_to resolved (base_path self)
        | None => None
        end with
  | None => Ok false
  | Some rel_path_parts =>
      let rel_path := Py.join [os_sep] rel_path_parts in
      let rel_path := if negation self && is_dir then rel_path ++ lit "/"
                      else rel_path in
      Re.search (regex self) rel_path
  end.

(** [IgnoreRule.__str__] and [IgnoreRule.__repr__] *)
Definition IgnoreRule_str (self : IgnoreRule) : str := pattern self.

Definition IgnoreRule_repr (self : IgnoreRule) : str :=
  lit "IgnoreRule('" ++ pattern self ++ lit "')".

(** What a caller may pass where a path is expected. *)
Inductive pyobj : Type :=
| PathObj (p : Path)
| StrObj (s : str)
| OtherObj.

(** The first lines of [handle_negation]: the path and the directory hint. *)
Definition file_path_and_hint (_file_path : pyobj)
  : result (Path * option bool) :=
  match _file_path with
  | PathObj p => Ok (p, None)
  | StrObj s =>
      let file_path := Path_of_str s in
      c <- Py.getitem s (-1) ;;
      Ok (file_path, Some (Ascii.eqb c os_sep))
  | OtherObj => Raise ValueError
  end.

(** [for rule in reversed(rules): ...; return False], on the reversed list. *)
Fixpoint first_match (fs : FileSystem) (reversed_rules : list IgnoreRule)
  (file_path : Path) (is_dir : option bool) : result bool :=
  match reversed_rules with
  | [] => Ok false
  | rule :: rest =>
      m <- IgnoreRule_match fs rule file_path is_dir ;;
      if m then Ok (negb (negation rule))
      else first_match fs rest file_path is_dir
  end.

(** [handle_negation] *)
Definition handle_negation (fs : FileSystem) (rules : list IgnoreRule)
  (_file_path : pyobj) : result bool :=
  a <- file_path_and_hint _file_path ;;
  first_match fs (rev rules) (fst a) (snd a).

(** The loop of [parse_gitignore] over the lines of the ignore file, from
    line [lineno] (counted from 0) on. *)
Fixpoint parse_lines (fs : FileSystem) (full_path base_dir : Path)
  (lineno : nat) (ignore_file : list str) (rules : list IgnoreRule)
  : result (list IgnoreRule) :=
  match ignore_file with
  | [] => Ok rules
  | line :: rest =>
      let line := Py.rstrip_chars [Re.newline] line in
      base <- match fs_resolve fs base_dir with
              | Some b => Ok b
              | None => Raise OSError
              end ;;
      rule <- rule_from_pattern line base (full_path, lineno + 1) ;;
      let rules := match rule with
                   | Some r => rules ++ [r]
                   | None => rules
                   end in
      parse_lines fs full_path base_dir (lineno + 1) rest rules
  end.

(** [Path(x)] for what a caller passes. *)
Definition Path_of (x : pyobj) : result Path :=
  match x with
  | PathObj p => Ok p
  | StrObj s => Ok (Path_of_str s)
  | OtherObj => Raise TypeError
  end.

(** [parse_gitignore]: the rules that the returned
    [partial(handle_negation, rules)] holds; [ignore_file] is the lines the
    opened file yields. *)
Definition parse_gitignore (fs : FileSystem) (_full_path : pyobj)
  (_base_dir : option pyobj) (ignore_file : list str)
  : result (list IgnoreRule) :=
  full_path <- Path_of _full_path ;;
  base_dir <- match _base_dir with
              | None => Ok (parent full_path)
              | Some d => Path_of d
              end ;;
  parse_lines fs full_path base_dir 0 ignore_file [].

(** *** A file system to run the program on

    No symbolic links: [resolve] makes a path absolute from the working
    directory [cwd] and folds its [".."] components; the directories are
    those listed in [dirs]. *)

Fixpoint fold_dotdot (done_rev : list str) (todo : list str) : list str :=
  match todo with
  | [] => rev done_rev
  | p :: todo' =>
      if str_eqb p (lit "..") then fold_dotdot (tl done_rev) todo'
      else fold_dotdot (p :: done_rev) todo'
  end.

Definition plain_resolve (cwd : list str) (p : Path) : Path :=
  if is_absolute p then {| root := root p; parts := fold_dotdot [] (parts p) |}
  else {| root := lit "/"; parts := fold_dotdot [] (cwd ++ parts p) |}.

Lemma plain_resolve_absolute (cwd : list str) (p q : Path) :
  Some (plain_resolve cwd p) = Some q -> is_absolute q = true.
Proof.
  intros H. injection H as <-. unfold plain_resolve.
  destruct (is_absolute p) eqn:E; [exact E | reflexivity].
Qed.

Definition plain_fs (cwd : list str) (dirs : list Path) : FileSystem :=
  {| fs_is_dir := fun p =>
       if in_dec Path_eq_dec (plain_resolve cwd p) dirs then true else false;
     fs_resolve := fun p => Some (plain_resolve cwd p);
     fs_resolve_absolute := plain_resolve_absolute cwd |}.

(** The rules of the lines [ignore_file], anchored at [base]. *)
Definition compile_at (fs : FileSystem) (base : str) (ignore_file : list string)
  : result (list IgnoreRule) :=
  parse_gitignore fs (StrObj (base ++ lit "/.gitignore")) None
                  (map (fun l => lit l ++ [Re.newline]) ignore_file).

(** The decision for the path string [p] under these rules. *)
Definition ignored (fs : FileSystem) (base : str) (ignore_file : list string)
  (p : pyobj) : result bool :=
  rules <- compile_at fs base ignore_file ;;
  handle_negation fs rules p.

(** ** The vocabulary of the properties *)

(** No newline in a string: a candidate path is a single line. *)
Definition single_line (s : str) : Prop := ~ In Re.newline s.

(** The pattern of a line, its leading bang removed. *)
Definition without_bang (line : str) : str :=
  match line with
  | c :: body => if Ascii.eqb c "!" then body else line
  | [] => line
  end.

(** Two asterisks in [s] that are not at its start, not at its end, and not
    between two slashes. *)
Definition misplaced_double_asterisk (s : str) : Prop :=
  exists pre post,
    s = pre ++ lit "**" ++ post /\ pre <> [] /\ post <> [] /\
    (last pre Ascii.zero <> "/"%char \/ hd Ascii.zero post <> "/"%char).

(** The lines the pattern compiler is to drop. *)
Definition blank_line (line : str) : Prop := Py.strip line = [].
Definition comment_line (line : str) : Prop := exists rest, line = "#"%char :: rest.
Definition triple_asterisk (line : str) : Prop :=
  exists pre post, line = pre ++ lit "***" ++ post.
Definition bare_slash (line : str) : Prop := Py.rstrip line = lit "/".

(** Scanning forward and remembering the outcome of the last rule that
    matches, as the rationale for the reverse walk words it. *)
Fixpoint last_match (fs : FileSystem) (rules : list IgnoreRule)
  (file_path : Path) (is_dir : option bool) (outcome : bool) : result bool :=
  match rules with
  | [] => Ok outcome
  | rule :: rest =>
      m <- IgnoreRule_match fs rule file_path is_dir ;;
      last_match fs rest file_path is_dir
                 (if m then negb (negation rule) else outcome)
  end.

Definition handle_negation_forward (fs : FileSystem) (rules : list IgnoreRule)
  (_file_path : pyobj) : result bool :=
  a <- file_path_and_hint _file_path ;;
  last_match fs rules (fst a) (snd a) false.

(** The repository [/repo] of the examples, in which [/repo/build] is a
    directory, and the rule of a line of [/repo/.gitignore]. *)
Definition repo : Path := Path_of_str (lit "/repo").
Definition demo_fs : FileSystem :=
  plain_fs [lit "repo"] [Path_of_str (lit "/repo/build")].
Definition demo_rule (line : string) : IgnoreRule :=
  match rule_from_pattern (lit line) repo (Path_of_str (lit "/repo/.gitignore"), 1) with
  | Ok (Some r) => r
  | _ => mkIgnoreRule [] [] false false false repo (repo, 0)
  end.

(** The regular expression of a line, as the string the program stores. *)
Definition regex_text (line : string) : string :=
  string_of_list_ascii (Re.text (regex (demo_rule line))).

(** The decision for a path string under the lines of [/repo/.gitignore]. *)
Definition demo_ignored (ignore_file : list string) (p : string) : result bool :=
  ignored demo_fs (lit "/repo") ignore_file (StrObj (lit p)).

(** *** Patterns built from plain names

    A plain character is one the pattern compiler and the glob translator
    read as itself: no blank, none of [* ? [ / \ # !]. *)

Definition plain_char (c : ascii) : bool :=
  negb (Py.isspace c) && negb (Py.contains c (lit "*?[/\#!")).

Definition plain (u : str) : Prop := forallb plain_char u = true.

Definition plain_name (u : str) : Prop := u <> [] /\ plain u.

(** The ends of [u*v]: plain, or the asterisk itself. *)
Definition plain_or_asterisk (c : ascii) : Prop :=
  plain_char c = true \/ c = "*"%char.

(** *** Candidates and what they resolve to

    The candidate resolves to a path below [base] whose relative path, its
    parts joined by the separator, is [rel_path]. *)
Definition resolves_to (fs : FileSystem) (candidate base : Path) (rel_path : str)
  : Prop :=
  exists resolved rel_path_parts,
    fs_resolve fs candidate = Some resolved
    /\ relative_to resolved base = Some rel_path_parts
    /\ Py.join [os_sep] rel_path_parts = rel_path.

(** The candidate is not below [base], or cannot be resolved. *)
Definition outside (fs : FileSystem) (candidate base : Path) : Prop :=
  forall resolved, fs_resolve fs candidate = Some resolved ->
                   relative_to resolved base = None.

(** The line number a rule was read at. *)
Definition lineno_of (r : IgnoreRule) : nat := snd (source r).

(** The pieces the scan of the glob translator appends, and the piece that
    closes the regular expression. *)
Definition glob_piece (p : Re.piece) : bool :=
  match p with
  | AnyStar | SepOpt | NonsepStar | Nonsep | Sep | LBracket | Class _ | Lit _ => true
  | Flags | Bol | Eol | SlashEol | EolOrSlash => false
  end.

Definition closing_piece (directory_only negation : bool) : Re.piece :=
  if negb directory_only then Eol
  else if negation then SlashEol else EolOrSlash.

(** Where the rules of a file come from. *)
Definition read_from (fs : FileSystem) (full_path base_dir : Path)
  (lines : list str) (lineno : nat) (r : IgnoreRule) : Prop :=
  lineno < lineno_of r <= lineno + length lines
  /\ pattern r = Py.rstrip_chars [Re.newline]
                    (nth (lineno_of r - lineno - 1) lines [])
  /\ fst (source r) = full_path
  /\ fs_resolve fs base_dir = Some (base_path r)
  /\ is_absolute (base_path r) = true.

(** What a call decides: it returns, and returns [True] exactly when [P]
    holds. *)
Definition decides (call : result bool) (P : Prop) : Prop :=
  exists b, call = Ok b /\ (b = true <-> P).

(** Blanks only. *)
Definition blanks (ws : str) : Prop := forallb Py.isspace ws = true.

(** A character that stands for itself between the brackets of a set: plain,
    and none of the closing bracket, the dash and the caret. *)
Definition set_char (c : ascii) : bool :=
  plain_char c && negb (Py.contains c (lit "]-^")).

(** ** The vocabulary of the proofs *)

(** Three asterisks in a row somewhere in [s], as the compiler tests it. *)
Definition has_triple (s : str) : bool := (-1 <? Py.find s (lit "***"))%Z.

(** The scan of the glob translator from index [i], with the fuel it needs. *)
Definition scan (pattern : str) (i : nat) (res : Re.regex) : result Re.regex :=
  fnmatch_loop (length pattern - i) pattern i res.

(** A state of the scan, moved [k] characters to the right. *)
Definition shift (k : nat) (st : result (nat * Re.regex)) : result (nat * Re.regex) :=
  match st with
  | Ok (i, res) => Ok (k + i, res)
  | Raise e => Raise e
  end.

(** What [rule_from_pattern] does from the trailing-slash test on. *)
Definition finish (orig_pattern pattern : str) (negation : bool)
  (base_path : Path) (source : Path * nat) : result (option IgnoreRule) :=
  c <- Py.getitem pattern (-1) ;;
  let directory_only := Ascii.eqb c "/" in
  let anchored := Py.contains "/" (Py.slice_to_minus pattern 1) in
  let '(pattern, _) := str_lcut pattern (lit "/") in
  let '(pattern, have_double_asterisk) := str_lcut pattern (lit "**") in
  let anchored := if have_double_asterisk then false else anchored in
  let '(pattern, _) := str_lcut pattern (lit "/") in
  let '(pattern, _) := str_rcut pattern (lit "/") in
  let pattern :=
    if Py.startswith pattern (lit "\#") then Py.slice_from pattern 1
    else pattern in
  let pattern := Py.rstrip pattern in
  let '(pattern, have_escaped_space) := str_rcut pattern (lit "\") in
  let pattern := if have_escaped_space then pattern ++ lit " " else pattern in
  regex <- fnmatch_pathname_to_regex pattern directory_only negation anchored ;;
  Ok (Some {| pattern := orig_pattern;
              regex := regex;
              negation := negation;
              directory_only := directory_only;
              anchored := anchored;
              base_path := base_path;
              source := source |}).

(** The ends of a pattern from which [rule_from_pattern] cuts nothing: the
    first character is no blank and none of [# ! / \ *], the last one no
    blank and neither slash nor backslash. *)
Definition opens_cleanly (c : ascii) : bool :=
  negb (Py.isspace c) && negb (Py.contains c (lit "#!/\*")).

Definition closes_cleanly (c : ascii) : bool :=
  negb (Py.isspace c) && negb (Py.contains c (lit "/\")).

(** A character the glob translator escapes and passes on. *)
Definition literal_char (c : ascii) : bool :=
  negb (Py.contains c (lit "*?/[")).

(** * Properties *)

(** ** Equality of strings *)

Lemma str_eqb_eq (a b : str) : str_eqb a b = true <-> a = b.
Proof.
  unfold str_eqb. destruct (list_eq_dec ascii_dec a b); split; congruence.
Qed.

Lemma str_eqb_refl (a : str) : str_eqb a a = true.
Proof. now apply str_eqb_eq. Qed.

Lemma str_eqb_neq (a b : str) : str_eqb a b = false <-> a <> b.
Proof.
  unfold str_eqb. destruct (list_eq_dec ascii_dec a b); split; congruence.
Qed.

(** ** The program on examples *)

Example regex_of_star_class : regex_text "*.py[cod]" = "(?ms)[^/]*\.py[cod]$"%string.
Proof. reflexivity. Qed.

Example regex_of_double_asterisk_between :
  regex_text "a/**/b" = "(?ms)^a[/].*[/]?b$"%string.
Proof. reflexivity. Qed.

Example regex_of_double_asterisk_end :
  regex_text "a/**" = "(?ms)^a[/].*[^/]*$"%string.
Proof. reflexivity. Qed.

Example regex_of_directory_pattern :
  regex_text "build/" = "(?ms)build($|\/)"%string
  /\ regex_text "!build/" = "(?ms)build/$"%string.
Proof. split; reflexivity. Qed.

Example regex_of_negated_class :
  regex_text "file[!0-9].txt" = "(?ms)file[^0-9]\.txt$"%string.
Proof. reflexivity. Qed.

Example regex_of_unterminated_class :
  regex_text "file[.txt" = "(?ms)file\[\.txt$"%string.
Proof. reflexivity. Qed.

Example regex_of_escaped_hash_and_space :
  regex_text "\#lit" = "(?ms)\#lit$"%string
  /\ regex_text "name\ " = "(?ms)name\ $"%string
  /\ regex_text "name   " = "(?ms)name$"%string.
Proof. repeat split; reflexivity. Qed.

Example negation_reincludes :
  demo_ignored ["*.log"; "!important.log"]%string "/repo/debug.log" = Ok true
  /\ demo_ignored ["*.log"; "!important.log"]%string "/repo/important.log" = Ok false
  /\ demo_ignored ["*.log"; "!important.log"]%string "/repo/sub/important.log" = Ok false.
Proof. repeat split; vm_compute; reflexivity. Qed.

Example later_rule_overrides_negation :
  demo_ignored ["*.txt"; "!keep.txt"; "*.txt"]%string "/repo/keep.txt" = Ok true.
Proof. vm_compute. reflexivity. Qed.

Example character_classes :
  demo_ignored ["file[!0-9].txt"]%string "/repo/fileA.txt" = Ok true
  /\ demo_ignored ["file[!0-9].txt"]%string "/repo/file5.txt" = Ok false
  /\ demo_ignored ["file[.txt"]%string "/repo/file[.txt" = Ok true.
Proof. repeat split; vm_compute; reflexivity. Qed.

Example comments_and_bare_slash_are_dropped :
  compile_at demo_fs (lit "/repo") ["# comment"; "/"; EmptyString; "a**b"; "x***"]%string = Ok [].
Proof. vm_compute. reflexivity. Qed.

Example outside_the_base_is_not_ignored :
  demo_ignored ["foo"]%string "/elsewhere/foo" = Ok false.
Proof. vm_compute. reflexivity. Qed.

(** A set whose range runs backwards does not compile: the rule of [[z-a]]
    raises when it is matched, so a forward scan over all rules raises where
    the reverse walk has already decided at a later rule. *)
Example bad_range_raises_when_reached :
  demo_ignored ["foo"; "[z-a]"]%string "/repo/foo" = Raise ReError
  /\ demo_ignored ["[z-a]"; "foo"]%string "/repo/foo" = Ok true
  /\ handle_negation_forward demo_fs [demo_rule "[z-a]"; demo_rule "foo"]
       (StrObj (lit "/repo/foo")) = Raise ReError.
Proof. repeat split; vm_compute; reflexivity. Qed.

(** ** What the pieces of a regular expression match *)

Lemma after_app (prev : option ascii) (m1 m2 : str) :
  after prev (m1 ++ m2) = after (after prev m1) m2.
Proof. revert prev. induction m1; intros; simpl; auto. Qed.

Lemma one_iff (P : ascii -> bool) (k : cont) (prev : option ascii) (s : str) :
  one P k prev s = true <->
  exists c s', s = c :: s' /\ P c = true /\ k (Some c) s' = true.
Proof.
  unfold one. destruct s as [|c s'].
  - split; [discriminate | intros (c & s' & H & _); discriminate].
  - rewrite andb_true_iff. split.
    + intros [HP Hk]. now exists c, s'.
    + intros (c' & s'' & H & HP & Hk). injection H as -> ->. now split.
Qed.

Lemma star_unfold (P : ascii -> bool) (k : cont) (prev : option ascii) (s : str) :
  star P k prev s =
  k prev s || match s with
              | c :: s' => P c && star P k (Some c) s'
              | [] => false
              end.
Proof. destruct s; reflexivity. Qed.

Lemma star_intro (P : ascii -> bool) (k : cont) (m s' : str) (prev : option ascii) :
  forallb P m = true -> k (after prev m) s' = true ->
  star P k prev (m ++ s') = true.
Proof.
  revert prev. induction m as [|c m IH]; intros prev HP Hk; rewrite star_unfold.
  - simpl in *. now rewrite Hk.
  - simpl in *. apply andb_true_iff in HP as [Hc HP].
    rewrite Hc, (IH (Some c) HP Hk). simpl. apply orb_true_r.
Qed.

Lemma star_elim (P : ascii -> bool) (k : cont) (s : str) (prev : option ascii) :
  star P k prev s = true ->
  exists m s', s = m ++ s' /\ forallb P m = true /\ k (after prev m) s' = true.
Proof.
  revert prev. induction s as [|c s IH]; intros prev; rewrite star_unfold;
    intros H; apply orb_true_iff in H as [H|H].
  - now exists [], [].
  - discriminate.
  - now exists [], (c :: s).
  - apply andb_true_iff in H as [Hc H].
    destruct (IH _ H) as (m & s' & -> & HP & Hk).
    exists (c :: m), s'. simpl. now rewrite Hc, HP.
Qed.

Lemma star_iff (P : ascii -> bool) (k : cont) (prev : option ascii) (s : str) :
  star P k prev s = true <->
  exists m s', s = m ++ s' /\ forallb P m = true /\ k (after prev m) s' = true.
Proof.
  split; [apply star_elim|].
  intros (m & s' & -> & HP & Hk). now apply star_intro.
Qed.

Lemma search_from_intro (re : Re.regex) (pre s' : str) (prev : option ascii) :
  match_here re (after prev pre) s' = true ->
  search_from re prev (pre ++ s') = true.
Proof.
  revert prev. induction pre as [|c pre IH]; intros prev H; simpl in *.
  - destruct s'; simpl; now rewrite H.
  - rewrite (IH _ H). apply orb_true_r.
Qed.

Lemma search_from_elim (re : Re.regex) (s : str) (prev : option ascii) :
  search_from re prev s = true ->
  exists pre s', s = pre ++ s' /\ match_here re (after prev pre) s' = true.
Proof.
  revert prev. induction s as [|c s IH]; intros prev H; simpl in H;
    apply orb_true_iff in H as [H|H].
  - now exists [], [].
  - discriminate.
  - now exists [], (c :: s).
  - destruct (IH _ H) as (pre & s' & -> & Hm). now exists (c :: pre), s'.
Qed.

Lemma match_here_lits (u : str) (re : Re.regex) (prev : option ascii) (s : str) :
  match_here (map Lit u ++ re) prev s = true <->
  exists s', s = u ++ s' /\ match_here re (after prev u) s' = true.
Proof.
  revert prev s. induction u as [|c u IH]; intros prev s; simpl.
  - split; [intros H; now exists s | now intros (s' & -> & H)].
  - rewrite one_iff. split.
    + intros (c' & s' & -> & Hc & Hk). apply Ascii.eqb_eq in Hc as <-.
      apply IH in Hk as (s'' & -> & Hk). now exists s''.
    + intros (s' & -> & Hk). exists c, (u ++ s'). repeat split.
      * apply Ascii.eqb_refl.
      * apply IH. now exists s'.
Qed.

Lemma forallb_nonsep (m : str) : forallb is_nonsep m = true <-> ~ In os_sep m.
Proof.
  unfold is_nonsep, os_sep. rewrite forallb_forall. split.
  - intros H Hin. specialize (H _ Hin). now rewrite Ascii.eqb_refl in H.
  - intros H c Hc. destruct (Ascii.eqb c "/") eqn:E; [|reflexivity].
    apply Ascii.eqb_eq in E as ->. contradiction.
Qed.

Lemma forallb_any (m : str) : forallb (fun _ : ascii => true) m = true.
Proof. now induction m. Qed.

Lemma at_bol_single_line (pre : str) :
  single_line pre -> at_bol (after None pre) = true -> pre = [].
Proof.
  intros Hsl Hbol. destruct pre as [|c pre]; [reflexivity|].
  exfalso.
  destruct (@exists_last _ (c :: pre) ltac:(discriminate)) as [l [x E]].
  rewrite E in *. rewrite after_app in Hbol. simpl in Hbol.
  apply Ascii.eqb_eq in Hbol as ->.
  apply Hsl, in_or_app. right. now left.
Qed.

Lemma at_eol_single_line (s : str) :
  single_line s -> at_eol s = true -> s = [].
Proof.
  intros Hsl Heol. destruct s as [|c s]; [reflexivity|].
  simpl in Heol. apply Ascii.eqb_eq in Heol as ->.
  exfalso. apply Hsl. now left.
Qed.

Lemma single_line_app (a b : str) :
  single_line (a ++ b) -> single_line a /\ single_line b.
Proof.
  unfold single_line. intros H. split; intros Hin; apply H, in_or_app; auto.
Qed.

(** ** Indexing and paths *)

Lemma getitem_nat (s : str) (i : nat) :
  Py.getitem s (Z.of_nat i) =
  match nth_error s i with
  | Some c => Ok c
  | None => Raise IndexError
  end.
Proof.
  unfold Py.getitem. cbv zeta.
  assert (E0 : (Z.of_nat i <? 0)%Z = false) by (apply Z.ltb_ge; lia).
  rewrite E0, E0, Nat2Z.id, orb_false_l.
  destruct (Z.of_nat (length s) <=? Z.of_nat i)%Z eqn:E; [|reflexivity].
  apply Z.leb_le in E.
  assert (H : nth_error s i = None) by (apply nth_error_None; lia).
  now rewrite H.
Qed.

Lemma nth_error_of_skipn (s rest : str) (i k : nat) :
  skipn i s = rest -> nth_error s (i + k) = nth_error rest k.
Proof.
  intros <-. revert s. induction i as [|i IH]; intros s; simpl.
  - reflexivity.
  - destruct s; simpl; [now destruct k | apply IH].
Qed.

Lemma strip_prefix_app (base rel : list str) :
  strip_prefix base (base ++ rel) = Some rel.
Proof.
  induction base as [|b base IH]; simpl; [reflexivity|].
  now rewrite str_eqb_refl.
Qed.

Lemma relative_to_below (r : str) (base rel : list str) :
  relative_to (mkPath r (base ++ rel)) (mkPath r base) = Some rel.
Proof.
  unfold relative_to. simpl. rewrite str_eqb_refl. apply strip_prefix_app.
Qed.

Lemma join_snoc (sep : str) (dirs : list str) (name : str) :
  exists pre, Py.join sep (dirs ++ [name]) = pre ++ name.
Proof.
  induction dirs as [|d dirs [pre IH]]; simpl.
  - now exists [].
  - destruct (dirs ++ [name]) eqn:E.
    + now destruct dirs.
    + rewrite IH. exists (d ++ sep ++ pre). now rewrite <- !app_assoc.
Qed.

Lemma join_cons (sep : str) (p : str) (rest : list str) :
  rest <> [] -> Py.join sep (p :: rest) = p ++ sep ++ Py.join sep rest.
Proof. destruct rest; [congruence | reflexivity]. Qed.

(** ** The rule set evaluator *)

Section Walk.

Variable fs : FileSystem.
Variable file_path : Path.
Variable is_dir : option bool.

Let misses (r : IgnoreRule) : Prop :=
  IgnoreRule_match fs r file_path is_dir = Ok false.

Lemma first_match_all_miss (l : list IgnoreRule) :
  Forall misses l -> first_match fs l file_path is_dir = Ok false.
Proof.
  induction 1 as [|r l Hr _ IH]; simpl; [reflexivity|].
  unfold misses in Hr. now rewrite Hr.
Qed.

Lemma first_match_hit (l1 l2 : list IgnoreRule) (r : IgnoreRule) :
  Forall misses l1 ->
  IgnoreRule_match fs r file_path is_dir = Ok true ->
  first_match fs (l1 ++ r :: l2) file_path is_dir = Ok (negb (negation r)).
Proof.
  intros Hmiss Hhit. induction Hmiss as [|r' l Hr _ IH]; simpl.
  - now rewrite Hhit.
  - unfold misses in Hr. now rewrite Hr.
Qed.

Lemma last_match_snoc (l : list IgnoreRule) (r : IgnoreRule) (o : bool) :
  last_match fs (l ++ [r]) file_path is_dir o =
  (o' <- last_match fs l file_path is_dir o ;;
   m <- IgnoreRule_match fs r file_path is_dir ;;
   Ok (if m then negb (negation r) else o')).
Proof.
  revert o. induction l as [|a l IH]; intros o; simpl.
  - now destruct (IgnoreRule_match fs r file_path is_dir).
  - destruct (IgnoreRule_match fs a file_path is_dir); simpl; [apply IH | reflexivity].
Qed.

Lemma forward_decides_reverse (rules : list IgnoreRule) (b : bool) :
  last_match fs rules file_path is_dir false = Ok b ->
  first_match fs (rev rules) file_path is_dir = Ok b.
Proof.
  revert b. induction rules as [|r l IH] using rev_ind; intros b.
  - simpl. trivial.
  - rewrite last_match_snoc, rev_app_distr. simpl.
    destruct (last_match fs l file_path is_dir false) as [o'|] eqn:El; simpl;
      [|discriminate].
    destruct (IgnoreRule_match fs r file_path is_dir) as [[|]|]; simpl;
      try discriminate; intros H; injection H as <-; auto.
Qed.

Lemma last_match_returns (rules : list IgnoreRule) (o : bool) :
  Forall (fun r => exists m, IgnoreRule_match fs r file_path is_dir = Ok m) rules ->
  exists b, last_match fs rules file_path is_dir o = Ok b.
Proof.
  intros H. revert o. induction H as [|r l [m Hm] _ IH]; intros o; simpl.
  - now exists o.
  - rewrite Hm. simpl. apply IH.
Qed.

Lemma reverse_is_forward (rules : list IgnoreRule) :
  Forall (fun r => exists m, IgnoreRule_match fs r file_path is_dir = Ok m) rules ->
  first_match fs (rev rules) file_path is_dir =
  last_match fs rules file_path is_dir false.
Proof.
  intros H. destruct (last_match_returns false H) as [b Hb].
  rewrite Hb. now apply forward_decides_reverse.
Qed.

End Walk.

(** C1. [handle_negation] walks the rules from the last declared to the
    first: the first rule met that matches the candidate decides, "ignored"
    unless it is a negation; when the walk meets no matching rule the
    candidate is not ignored. *)
Theorem handle_negation_last_rule_wins :
  forall (fs : FileSystem) (rules : list IgnoreRule) (candidate : pyobj)
         (file_path : Path) (is_dir : option bool),
    file_path_and_hint candidate = Ok (file_path, is_dir) ->
    (forall pre rule post,
        rules = pre ++ rule :: post ->
        Forall (fun r => IgnoreRule_match fs r file_path is_dir = Ok false) post ->
        IgnoreRule_match fs rule file_path is_dir = Ok true ->
        handle_negation fs rules candidate = Ok (negb (negation rule)))
    /\ (Forall (fun r => IgnoreRule_match fs r file_path is_dir = Ok false) rules ->
        handle_negation fs rules candidate = Ok false).
Proof.
  intros fs rules candidate file_path is_dir Harg.
  unfold handle_negation. rewrite Harg. simpl. split.
  - intros pre rule post -> Hpost Hhit.
    rewrite rev_app_distr. simpl. rewrite <- app_assoc. simpl.
    apply first_match_hit; [|exact Hhit].
    now apply Forall_rev.
  - intros Hall. apply first_match_all_miss. now apply Forall_rev.
Qed.

Lemma handle_negation_last_rule_wins_witness :
  handle_negation demo_fs
    [demo_rule "*.txt"; demo_rule "!keep.txt"; demo_rule "*.txt"]
    (StrObj (lit "/repo/keep.txt")) = Ok true
  /\ handle_negation demo_fs [demo_rule "*.txt"; demo_rule "!keep.txt"]
       (StrObj (lit "/repo/keep.txt")) = Ok false
  /\ handle_negation demo_fs [demo_rule "*.txt"; demo_rule "!keep.txt"]
       (StrObj (lit "/repo/notes.md")) = Ok false.
Proof.
  split; [|split].
  - apply (proj1 (handle_negation_last_rule_wins demo_fs
             [demo_rule "*.txt"; demo_rule "!keep.txt"; demo_rule "*.txt"]
             (StrObj (lit "/repo/keep.txt")) eq_refl)
             [demo_rule "*.txt"; demo_rule "!keep.txt"] (demo_rule "*.txt") []).
    + reflexivity.
    + constructor.
    + vm_compute. reflexivity.
  - apply (proj1 (handle_negation_last_rule_wins demo_fs
             [demo_rule "*.txt"; demo_rule "!keep.txt"]
             (StrObj (lit "/repo/keep.txt")) eq_refl)
             [demo_rule "*.txt"] (demo_rule "!keep.txt") []).
    + reflexivity.
    + constructor.
    + vm_compute. reflexivity.
  - apply (proj2 (handle_negation_last_rule_wins demo_fs
             [demo_rule "*.txt"; demo_rule "!keep.txt"]
             (StrObj (lit "/repo/notes.md")) eq_refl)).
    repeat constructor.
Defined.

(** C8, as the program has it. The reverse walk that stops at the first
    matching rule decides as the forward scan that remembers the last
    matching rule: whatever the forward scan decides the reverse walk decides
    too, and the two are the same computation whenever no rule's match
    raises. *)
Theorem reverse_first_hit_is_forward_last_hit :
  forall (fs : FileSystem) (rules : list IgnoreRule) (candidate : pyobj),
    (forall b, handle_negation_forward fs rules candidate = Ok b ->
               handle_negation fs rules candidate = Ok b)
    /\ ((forall file_path is_dir,
            file_path_and_hint candidate = Ok (file_path, is_dir) ->
            Forall (fun r => exists m,
                        IgnoreRule_match fs r file_path is_dir = Ok m) rules) ->
        handle_negation fs rules candidate =
        handle_negation_forward fs rules candidate).
Proof.
  intros fs rules candidate.
  unfold handle_negation, handle_negation_forward.
  destruct (file_path_and_hint candidate) as [[file_path is_dir]|e]; simpl.
  - split.
    + intros b. apply forward_decides_reverse.
    + intros H. apply reverse_is_forward. now apply H.
  - split; [intros b H; discriminate | reflexivity].
Qed.

Lemma reverse_first_hit_is_forward_last_hit_witness :
  handle_negation demo_fs
    [demo_rule "*.txt"; demo_rule "!keep.txt"; demo_rule "*.txt"]
    (StrObj (lit "/repo/keep.txt"))
  = handle_negation_forward demo_fs
      [demo_rule "*.txt"; demo_rule "!keep.txt"; demo_rule "*.txt"]
      (StrObj (lit "/repo/keep.txt")).
Proof.
  apply (proj2 (reverse_first_hit_is_forward_last_hit demo_fs
                  [demo_rule "*.txt"; demo_rule "!keep.txt"; demo_rule "*.txt"]
                  (StrObj (lit "/repo/keep.txt")))).
  intros file_path is_dir H. injection H as <- <-.
  repeat constructor; eexists; vm_compute; reflexivity.
Defined.

(** C8, as stated, fails: the set of [[z-a]] does not compile, so the
    forward scan raises at the rule of that line, while the reverse walk has
    already returned at the rule of [foo], declared after it. *)
Lemma forward_scan_raises_where_the_reverse_walk_decides :
  rule_from_pattern (lit "[z-a]") repo (Path_of_str (lit "/repo/.gitignore"), 1)
  = Ok (Some (demo_rule "[z-a]"))
  /\ rule_from_pattern (lit "foo") repo (Path_of_str (lit "/repo/.gitignore"), 1)
     = Ok (Some (demo_rule "foo"))
  /\ handle_negation demo_fs [demo_rule "[z-a]"; demo_rule "foo"]
       (StrObj (lit "/repo/foo")) = Ok true
  /\ handle_negation_forward demo_fs [demo_rule "[z-a]"; demo_rule "foo"]
       (StrObj (lit "/repo/foo")) = Raise ReError.
Proof. repeat split; vm_compute; reflexivity. Qed.

(** C10. The empty string as a candidate: indexing its last character raises
    [IndexError]. *)
Theorem handle_negation_empty_string_raises :
  forall (fs : FileSystem) (rules : list IgnoreRule),
    handle_negation fs rules (StrObj []) = Raise IndexError.
Proof. reflexivity. Qed.

(** C9. The line ["!"]: once the bang is stripped the pattern is empty, and
    the trailing-slash test [pattern[-1]] raises [IndexError]. *)
Theorem rule_from_pattern_lone_bang_raises :
  forall (base_path : Path) (source : Path * nat),
    is_absolute base_path = true ->
    rule_from_pattern (lit "!") base_path source = Raise IndexError.
Proof.
  intros base_path source Habs. unfold rule_from_pattern, assert_absolute.
  rewrite Habs. reflexivity.
Qed.

Lemma rule_from_pattern_lone_bang_raises_witness :
  rule_from_pattern (lit "!") repo (repo, 1) = Raise IndexError.
Proof. apply rule_from_pattern_lone_bang_raises. reflexivity. Defined.

(** ** The directory hint *)

Lemma getitem_last (s : str) :
  s <> [] -> Py.getitem s (-1) = Ok (last s Ascii.zero).
Proof.
  intros Hs. unfold Py.getitem.
  assert (Hlen : 0 < length s) by (destruct s; [congruence | simpl; lia]).
  replace (-1 <? 0)%Z with true by reflexivity.
  destruct ((-1 + Z.of_nat (length s) <? 0)%Z
            || (Z.of_nat (length s) <=? -1 + Z.of_nat (length s))%Z) eqn:E.
  - apply orb_true_iff in E. destruct E as [E|E]; [apply Z.ltb_lt in E | apply Z.leb_le in E]; lia.
  - replace (Z.to_nat (-1 + Z.of_nat (length s))) with (length s - 1) by lia.
    destruct (@exists_last _ s Hs) as [s' [c ->]].
    rewrite last_last, length_app. simpl.
    rewrite nth_error_app2 by lia.
    replace (length s' + 1 - 1 - length s') with 0 by lia. reflexivity.
Qed.

(** A missing hint is the probe of the file system. *)
Lemma match_probes_when_no_hint (fs : FileSystem) (r : IgnoreRule) (p : Path) :
  IgnoreRule_match fs r p None = IgnoreRule_match fs r p (Some (fs_is_dir fs p)).
Proof. reflexivity. Qed.

(** With a hint, only [resolve] is asked of the file system. *)
Lemma match_with_hint_ext (fs fs' : FileSystem) (r : IgnoreRule) (p : Path) (b : bool) :
  (forall q, fs_resolve fs' q = fs_resolve fs q) ->
  IgnoreRule_match fs' r p (Some b) = IgnoreRule_match fs r p (Some b).
Proof. intros H. unfold IgnoreRule_match. now rewrite H. Qed.

Lemma first_match_ext (fs fs' : FileSystem) (l : list IgnoreRule) (p : Path)
  (d d' : option bool) :
  (forall r, In r l -> IgnoreRule_match fs' r p d' = IgnoreRule_match fs r p d) ->
  first_match fs' l p d' = first_match fs l p d.
Proof.
  induction l as [|r l IH]; intros H; simpl; [reflexivity|].
  rewrite (H r (or_introl eq_refl)).
  destruct (IgnoreRule_match fs r p d) as [[|]|]; simpl; try reflexivity.
  apply IH. intros r' Hr'. apply H. now right.
Qed.

(** A rule that is not a negation never looks at the hint. *)
Lemma match_ignores_hint (fs : FileSystem) (r : IgnoreRule) (p : Path)
  (d d' : option bool) :
  negation r = false ->
  IgnoreRule_match fs r p d = IgnoreRule_match fs r p d'.
Proof. intros H. unfold IgnoreRule_match. now rewrite H. Qed.

(** C5, as the program has it. A string candidate always carries its own
    hint: "directory" when its last character is the separator, "not a
    directory" otherwise, and the file system is not probed for it; the probe
    is made for [Path] candidates only. *)
Theorem string_candidate_carries_its_hint :
  forall (fs : FileSystem) (rules : list IgnoreRule) (s : str),
    s <> [] ->
    handle_negation fs rules (StrObj s) =
      first_match fs (rev rules) (Path_of_str s)
                  (Some (Ascii.eqb (last s Ascii.zero) os_sep))
    /\ (forall fs' : FileSystem,
           (forall q, fs_resolve fs' q = fs_resolve fs q) ->
           handle_negation fs' rules (StrObj s) = handle_negation fs rules (StrObj s))
    /\ (forall p : Path,
           handle_negation fs rules (PathObj p) =
           first_match fs (rev rules) p (Some (fs_is_dir fs p))).
Proof.
  intros fs rules s Hs.
  assert (Hstr : forall fs0, handle_negation fs0 rules (StrObj s) =
            first_match fs0 (rev rules) (Path_of_str s)
                        (Some (Ascii.eqb (last s Ascii.zero) os_sep))).
  { intros fs0. unfold handle_negation. simpl. now rewrite (getitem_last Hs). }
  split; [apply Hstr | split].
  - intros fs' Hres. rewrite !Hstr. apply first_match_ext.
    intros r _. now apply match_with_hint_ext.
  - intros p. unfold handle_negation. simpl. apply first_match_ext.
    intros r _. apply match_probes_when_no_hint.
Qed.

Lemma string_candidate_carries_its_hint_witness :
  handle_negation demo_fs [demo_rule "build"; demo_rule "!build/"]
                  (StrObj (lit "/repo/build")) = Ok true.
Proof.
  rewrite (proj1 (string_candidate_carries_its_hint demo_fs
                    [demo_rule "build"; demo_rule "!build/"]
                    (s := lit "/repo/build") ltac:(discriminate))).
  vm_compute. reflexivity.
Defined.

(** C5, as stated, fails: [/repo/build] is a directory and the string
    ["/repo/build"] has no trailing separator; were the directory probed as
    for a [Path], the negation [!build/] would keep it, but it is ignored. *)
Lemma string_candidate_is_not_probed :
  fs_is_dir demo_fs (Path_of_str (lit "/repo/build")) = true
  /\ handle_negation demo_fs [demo_rule "build"; demo_rule "!build/"]
       (PathObj (Path_of_str (lit "/repo/build"))) = Ok false
  /\ handle_negation demo_fs [demo_rule "build"; demo_rule "!build/"]
       (StrObj (lit "/repo/build")) = Ok true.
Proof. repeat split; vm_compute; reflexivity. Qed.

(** ** The pattern compiler returns *)

Lemma skipn_char_at (p : str) (j : nat) :
  j < length p -> skipn j p = char_at p j :: skipn (S j) p.
Proof.
  revert j. induction p as [|c p IH]; intros j Hj; simpl in Hj; [lia|].
  destruct j; [reflexivity|]. simpl. unfold char_at. simpl.
  apply IH. lia.
Qed.

Lemma getitem_0_cons (c : ascii) (s : str) : Py.getitem (c :: s) 0 = Ok c.
Proof. exact (getitem_nat (c :: s) 0). Qed.

Lemma replace_nonempty (s : str) (c : ascii) (new : str) :
  s <> [] -> new <> [] -> Py.replace s c new <> [].
Proof.
  intros Hs Hnew. destruct s as [|x s]; [congruence|].
  unfold Py.replace. simpl. destruct (Ascii.eqb x c).
  - destruct new; [congruence | discriminate].
  - discriminate.
Qed.

(** A turn of the scan never raises, and moves forward. *)
Lemma fnmatch_step_advances (pattern : str) (i : nat) (res : Re.regex) :
  i < length pattern ->
  exists i' res', fnmatch_step pattern i res = Ok (i', res') /\ i < i'.
Proof.
  intros Hi. unfold fnmatch_step. rewrite getitem_nat.
  destruct (nth_error pattern i) as [c|] eqn:Ec;
    [|apply nth_error_None in Ec; lia].
  cbn [bind].
  destruct (Ascii.eqb c "*").
  { destruct (nth_error pattern (i + 1)) as [c1|];
      [|eexists _, _; split; [reflexivity | lia]].
    destruct (Ascii.eqb c1 "*"); [|eexists _, _; split; [reflexivity | lia]].
    destruct (nth_error pattern (i + 1 + 1)) as [c2|];
      [|eexists _, _; split; [reflexivity | lia]].
    destruct (Ascii.eqb c2 "/"); eexists _, _; (split; [reflexivity | lia]). }
  destruct (Ascii.eqb c "?"); [eexists _, _; split; [reflexivity | lia]|].
  destruct (Ascii.eqb c "/"); [eexists _, _; split; [reflexivity | lia]|].
  destruct (Ascii.eqb c "["); [|eexists _, _; split; [reflexivity | lia]].
  cbv zeta.
  set (n := length pattern) in *.
  set (j1 := if (i + 1 <? n) && Ascii.eqb (char_at pattern (i + 1)) "!"
             then i + 1 + 1 else i + 1).
  set (j2 := if (j1 <? n) && Ascii.eqb (char_at pattern j1) "]"
             then j1 + 1 else j1).
  set (j3 := j2 + skip_to_rbracket (skipn j2 pattern)).
  assert (H1 : i + 1 <= j1) by (unfold j1; destruct ((i + 1 <? n) && _); lia).
  assert (H2 : j1 <= j2) by (unfold j2; destruct ((j1 <? n) && _); lia).
  assert (H3 : j2 <= j3) by (unfold j3; lia).
  destruct (n <=? j3) eqn:En; [eexists _, _; split; [reflexivity | lia]|].
  apply Nat.leb_gt in En.
  assert (Hlong : i + 1 < j3).
  { destruct (Nat.eq_dec j3 (i + 1)) as [E|E]; [exfalso | lia].
    assert (Ej1 : j1 = i + 1) by lia.
    assert (Ej2 : j2 = i + 1) by lia.
    assert (Hskip : skip_to_rbracket (skipn j2 pattern) = 0) by (unfold j3 in E; lia).
    rewrite skipn_char_at in Hskip by (fold n; lia).
    simpl in Hskip.
    destruct (Ascii.eqb (char_at pattern j2) "]") eqn:Eb; [|discriminate].
    assert (Hc : (j1 <? n) && Ascii.eqb (char_at pattern j1) "]" = true).
    { apply andb_true_iff. split; [apply Nat.ltb_lt; lia|].
      replace j1 with j2 by lia. exact Eb. }
    assert (Hj2 : j2 = j1 + 1) by (unfold j2; now rewrite Hc).
    lia. }
  assert (Hstuff : Py.replace (Py.slice pattern (i + 1) j3) "\" (lit "\\") <> []).
  { apply replace_nonempty; [|discriminate].
    unfold Py.slice. rewrite skipn_char_at by (fold n; lia).
    replace (j3 - (i + 1)) with (S (j3 - (i + 1) - 1)) by lia.
    discriminate. }
  destruct (Py.replace (Py.slice pattern (i + 1) j3) "\" (lit "\\")) as [|c0 stuff];
    [congruence|].
  rewrite getitem_0_cons. cbn [bind].
  eexists _, _; split; [reflexivity | lia].
Qed.

Lemma fnmatch_loop_returns (fuel : nat) (pattern : str) (i : nat) (res : Re.regex) :
  exists r, fnmatch_loop fuel pattern i res = Ok r.
Proof.
  revert i res. induction fuel as [|fuel IH]; intros i res; simpl; [eauto|].
  destruct (i <? length pattern) eqn:E; [|eauto].
  apply Nat.ltb_lt in E.
  destruct (fnmatch_step_advances pattern res E) as (i' & res' & -> & _).
  apply IH.
Qed.

(** The scan is over within [n - i] turns: more fuel changes nothing. *)
Lemma fnmatch_loop_fuel (fuel fuel' : nat) (pattern : str) (i : nat)
  (res : Re.regex) :
  length pattern - i <= fuel ->
  length pattern - i <= fuel' ->
  fnmatch_loop fuel pattern i res = fnmatch_loop fuel' pattern i res.
Proof.
  revert fuel' i res.
  induction fuel as [|fuel IH]; intros [|fuel'] i res H1 H2; simpl;
    try reflexivity.
  - replace (i <? length pattern) with false
      by (symmetry; apply Nat.ltb_ge; lia). reflexivity.
  - replace (i <? length pattern) with false
      by (symmetry; apply Nat.ltb_ge; lia). reflexivity.
  - destruct (i <? length pattern) eqn:E; [|reflexivity].
    apply Nat.ltb_lt in E.
    destruct (fnmatch_step_advances pattern res E) as (i' & res' & -> & Hadv).
    cbn [bind fst snd]. apply IH; lia.
Qed.

Lemma fnmatch_pathname_to_regex_returns (pattern : str)
  (directory_only negation anchored : bool) :
  exists re, fnmatch_pathname_to_regex pattern directory_only negation anchored
             = Ok re.
Proof.
  unfold fnmatch_pathname_to_regex.
  destruct (fnmatch_loop_returns (length pattern) pattern 0 []) as [r ->].
  cbn [bind]. eauto.
Qed.

Lemma finditer_in_range (n : nat) :
  forall (s : str) (i k : nat),
    length s <= n ->
    In k (Py.finditer_double_asterisk s i) ->
    i <= k /\ k + 2 <= i + length s.
Proof.
  induction n as [|n IH]; intros s i k Hlen Hin.
  - destruct s; [contradiction | simpl in Hlen; lia].
  - destruct s as [|c1 [|c2 s'']]; try contradiction.
    simpl in Hin, Hlen. cbn [length].
    destruct (Ascii.eqb c1 "*" && Ascii.eqb c2 "*").
    + destruct Hin as [<-|Hin]; [lia|].
      apply IH in Hin; [lia | lia].
    + apply (IH (c2 :: s'')) in Hin; [simpl in Hin; lia | simpl; lia].
Qed.

Lemma nth_error_some (s : str) (i : nat) :
  i < length s -> exists c, nth_error s i = Some c.
Proof.
  intros H. destruct (nth_error s i) eqn:E; [eauto|].
  apply nth_error_None in E. lia.
Qed.

Lemma double_asterisk_invalid_returns (pattern : str) (k : nat) :
  k + 2 <= length pattern ->
  exists b, double_asterisk_invalid pattern k = Ok b.
Proof.
  intros Hk. unfold double_asterisk_invalid. cbv zeta.
  destruct (Z.of_nat k =? 0)%Z eqn:E0; cbn [negb andb]; [eauto|].
  destruct (Z.of_nat k =? Z.of_nat (length pattern) - 2)%Z eqn:E1;
    cbn [negb andb]; [eauto|].
  apply Z.eqb_neq in E0, E1.
  replace (Z.of_nat k - 1)%Z with (Z.of_nat (k - 1)) by lia.
  replace (Z.of_nat k + 2)%Z with (Z.of_nat (k + 2)) by lia.
  rewrite !getitem_nat.
  destruct (@nth_error_some pattern (k - 1) ltac:(lia)) as [c ->].
  destruct (@nth_error_some pattern (k + 2) ltac:(lia)) as [c' ->].
  cbn [bind]. destruct (negb (Ascii.eqb c "/")); eauto.
Qed.

Lemma double_asterisk_loop_returns (pattern : str) (starts : list nat) :
  (forall k, In k starts -> k + 2 <= length pattern) ->
  exists b, double_asterisk_loop pattern starts = Ok b.
Proof.
  induction starts as [|k starts IH]; intros H; simpl; [eauto|].
  destruct (@double_asterisk_invalid_returns pattern k) as [b ->];
    [apply H; now left|].
  cbn [bind]. destruct b; [eauto|]. apply IH. intros k' Hk'. apply H. now right.
Qed.

Lemma double_asterisk_check_returns (pattern : str) :
  exists b, double_asterisk_loop pattern (Py.finditer_double_asterisk pattern 0)
            = Ok b.
Proof.
  apply double_asterisk_loop_returns. intros k Hk.
  apply (@finditer_in_range (length pattern)) in Hk; [simpl in Hk; lia | lia].
Qed.

Lemma lone_bang_raises (base_path : Path) (source : Path * nat) :
  is_absolute base_path = true ->
  rule_from_pattern (lit "!") base_path source = Raise IndexError.
Proof.
  intros Habs. unfold rule_from_pattern, assert_absolute.
  rewrite Habs. reflexivity.
Qed.

(** Against an absolute base, every line but ["!"] is compiled to a rule or
    to nothing. *)
Lemma rule_from_pattern_returns (line : str) (base_path : Path)
  (source : Path * nat) :
  is_absolute base_path = true ->
  line <> lit "!" ->
  exists o, rule_from_pattern line base_path source = Ok o.
Proof.
  intros Habs Hline. unfold rule_from_pattern, assert_absolute.
  rewrite Habs. cbn [negb bind].
  destruct (str_eqb (Py.strip line) []) eqn:Eblank; cbn [bind]; [eauto|].
  destruct line as [|c rest]; [discriminate Eblank|].
  rewrite getitem_0_cons. cbn [bind].
  destruct (Ascii.eqb c "#"); [eauto|].
  destruct (-1 <? Py.find (c :: rest) (lit "***"))%Z; [eauto|].
  set (pat := if Ascii.eqb c "!" then Py.slice_from (c :: rest) 1 else c :: rest).
  destruct (double_asterisk_check_returns pat) as [b ->]. cbn [bind].
  destruct b; [eauto|].
  destruct (str_eqb (Py.rstrip pat) (lit "/")); [eauto|].
  assert (Hpat : pat <> []).
  { unfold pat. destruct (Ascii.eqb c "!") eqn:Ec; [|discriminate].
    apply Ascii.eqb_eq in Ec as ->. simpl. intros ->. now apply Hline. }
  rewrite (getitem_last Hpat). cbn [bind].
  repeat match goal with
         | |- context [let '(_, _) := ?x in _] => destruct x
         end.
  match goal with
  | |- context [fnmatch_pathname_to_regex ?p ?d ?n ?a] =>
      destruct (fnmatch_pathname_to_regex_returns p d n a) as [re ->]
  end.
  cbn [bind]. eauto.
Qed.

(** C7. An anchor directory that is not absolute makes [rule_from_pattern]
    raise [ValueError], and against an absolute one every line but one
    returns, a rule or nothing: the line ["!"] raises [IndexError], which
    the claim rules out. *)
Theorem rule_from_pattern_raises_on_lone_bang_too :
  (forall (line : str) (base_path : Path) (source : Path * nat),
      is_absolute base_path = false ->
      rule_from_pattern line base_path source = Raise ValueError)
  /\ (forall (line : str) (base_path : Path) (source : Path * nat),
        is_absolute base_path = true ->
        line <> lit "!" ->
        exists o, rule_from_pattern line base_path source = Ok o)
  /\ (forall (base_path : Path) (source : Path * nat),
        is_absolute base_path = true ->
        rule_from_pattern (lit "!") base_path source = Raise IndexError).
Proof.
  split; [|split].
  - intros line base_path source Habs.
    unfold rule_from_pattern, assert_absolute. now rewrite Habs.
  - exact rule_from_pattern_returns.
  - exact lone_bang_raises.
Qed.

Lemma rule_from_pattern_raises_on_lone_bang_too_witness :
  rule_from_pattern (lit "*.txt") (Path_of_str (lit "relative/dir")) (repo, 1)
    = Raise ValueError
  /\ (exists o, rule_from_pattern (lit "*.txt") repo (repo, 1) = Ok o)
  /\ rule_from_pattern (lit "!") repo (repo, 1) = Raise IndexError.
Proof.
  destruct rule_from_pattern_raises_on_lone_bang_too as (Hrel & Hret & Hbang).
  split; [|split].
  - apply Hrel. reflexivity.
  - apply Hret; [reflexivity | discriminate].
  - apply Hbang. reflexivity.
Defined.

(** ** The lines that give no rule *)

Lemma startswith_app (m s : str) : Py.startswith (m ++ s) m = true.
Proof.
  induction m as [|c m IH]; simpl; [now destruct s|].
  now rewrite Ascii.eqb_refl.
Qed.

Lemma find_unfold (s sub : str) :
  Py.find s sub =
  if Py.startswith s sub then 0%Z
  else match s with
       | [] => (-1)%Z
       | _ :: s' => let r := Py.find s' sub in
                    if (r <? 0)%Z then (-1)%Z else (r + 1)%Z
       end.
Proof. destruct s; reflexivity. Qed.

Lemma find_occurrence (pre sub post : str) :
  (0 <= Py.find (pre ++ sub ++ post) sub)%Z.
Proof.
  induction pre as [|c pre IH]; rewrite find_unfold.
  - simpl app. rewrite startswith_app. lia.
  - cbn [app]. cbv zeta.
    destruct (Py.startswith (c :: pre ++ sub ++ post) sub); [lia|].
    destruct (Py.find (pre ++ sub ++ post) sub <? 0)%Z eqn:E.
    + apply Z.ltb_lt in E. lia.
    + lia.
Qed.

Lemma no_triple_suffix (c : ascii) (s : str) :
  (forall pre post, c :: s <> pre ++ lit "***" ++ post) ->
  forall pre post, s <> pre ++ lit "***" ++ post.
Proof. intros H pre post ->. now apply (H (c :: pre) post). Qed.

(** Without three asterisks in a row, [finditer] meets every pair. *)
Lemma finditer_complete (n : nat) :
  forall (s pre post : str) (i : nat),
    length s <= n ->
    (forall a b, s <> a ++ lit "***" ++ b) ->
    s = pre ++ lit "**" ++ post ->
    In (i + length pre) (Py.finditer_double_asterisk s i).
Proof.
  induction n as [|n IH]; intros s pre post i Hlen Hno Hs.
  - subst s. rewrite length_app in Hlen. simpl in Hlen. lia.
  - destruct s as [|c1 [|c2 s'']].
    + destruct pre; discriminate.
    + destruct pre as [|x [|y pre]]; discriminate.
    + cbn [Py.finditer_double_asterisk].
      destruct (Ascii.eqb c1 "*" && Ascii.eqb c2 "*") eqn:E.
      * apply andb_true_iff in E as [E1 E2].
        apply Ascii.eqb_eq in E1 as ->. apply Ascii.eqb_eq in E2 as ->.
        destruct pre as [|x [|y pre]].
        -- left. simpl. lia.
        -- exfalso. simpl in Hs. injection Hs as <- Hs. subst s''.
           now apply (Hno [] post).
        -- right. simpl in Hs. injection Hs as <- <- Hs.
           replace (i + length ("*"%char :: "*"%char :: pre))
             with (i + 2 + length pre) by (simpl; lia).
           apply (IH s'' pre post); [simpl in Hlen; lia | | exact Hs].
           exact (no_triple_suffix (no_triple_suffix Hno)).
      * destruct pre as [|x pre].
        -- simpl in Hs. injection Hs as -> -> _.
           now rewrite Ascii.eqb_refl in E.
        -- simpl in Hs. injection Hs as <- Hs.
           replace (i + length (c1 :: pre)) with (i + 1 + length pre)
             by (simpl; lia).
           apply (IH (c2 :: s'') pre post); [simpl in *; lia | | exact Hs].
           exact (no_triple_suffix Hno).
Qed.

Lemma double_asterisk_loop_finds (pattern : str) (starts : list nat) (k : nat) :
  (forall j, In j starts -> j + 2 <= length pattern) ->
  In k starts ->
  double_asterisk_invalid pattern k = Ok true ->
  double_asterisk_loop pattern starts = Ok true.
Proof.
  induction starts as [|j starts IH]; intros Hrange Hin Hk; [contradiction|].
  simpl. destruct (@double_asterisk_invalid_returns pattern j) as [b Hb];
    [apply Hrange; now left|].
  rewrite Hb. cbn [bind]. destruct b; [reflexivity|].
  destruct Hin as [->|Hin]; [congruence|].
  apply IH; auto. intros j' Hj'. apply Hrange. now right.
Qed.

Lemma nth_error_last_of (pre rest : str) :
  pre <> [] ->
  nth_error (pre ++ rest) (length pre - 1) = Some (last pre Ascii.zero).
Proof.
  intros Hpre. destruct (@exists_last _ pre Hpre) as [l [x ->]].
  rewrite last_last, length_app, <- app_assoc. simpl.
  replace (length l + 1 - 1) with (length l) by lia.
  rewrite nth_error_app2 by lia. now rewrite Nat.sub_diag.
Qed.

Lemma misplaced_is_invalid (pre post : str) :
  pre <> [] -> post <> [] ->
  last pre Ascii.zero <> "/"%char \/ hd Ascii.zero post <> "/"%char ->
  double_asterisk_invalid (pre ++ lit "**" ++ post) (length pre) = Ok true.
Proof.
  intros Hpre Hpost Hslash. unfold double_asterisk_invalid. cbv zeta.
  assert (Hlen : 0 < length pre) by (destruct pre; [congruence | simpl; lia]).
  assert (Hlen' : 0 < length post) by (destruct post; [congruence | simpl; lia]).
  replace (Z.of_nat (length pre) =? 0)%Z with false
    by (symmetry; apply Z.eqb_neq; lia).
  replace (Z.of_nat (length pre)
           =? Z.of_nat (length (pre ++ lit "**" ++ post)) - 2)%Z with false
    by (symmetry; apply Z.eqb_neq; rewrite !length_app; simpl; lia).
  cbn [negb andb].
  replace (Z.of_nat (length pre) - 1)%Z with (Z.of_nat (length pre - 1)) by lia.
  replace (Z.of_nat (length pre) + 2)%Z with (Z.of_nat (length pre + 2)) by lia.
  rewrite !getitem_nat, (nth_error_last_of _ Hpre). cbn [bind].
  rewrite nth_error_app2 by lia.
  replace (length pre + 2 - length pre) with 2 by lia.
  destruct post as [|p post]; [congruence|]. simpl nth_error. simpl in Hslash.
  destruct (Ascii.eqb (last pre Ascii.zero) "/") eqn:E1; cbn [negb bind];
    [|reflexivity].
  destruct (Ascii.eqb p "/") eqn:E2; [|reflexivity].
  apply Ascii.eqb_eq in E1, E2. tauto.
Qed.

Lemma lstrip_suffix (s : str) : exists ws, s = ws ++ Py.lstrip s.
Proof.
  induction s as [|c s [ws IH]]; simpl.
  - now exists [].
  - destruct (Py.isspace c); [|now exists []].
    exists (c :: ws). simpl. now f_equal.
Qed.

Lemma bare_slash_shape (line : str) :
  bare_slash line -> exists ws, line = "/"%char :: ws.
Proof.
  unfold bare_slash, Py.rstrip. intros H.
  destruct (lstrip_suffix (rev line)) as [ws Hws].
  apply (f_equal (@rev ascii)) in H. rewrite rev_involutive in H.
  rewrite H in Hws. apply (f_equal (@rev ascii)) in Hws.
  rewrite rev_involutive, rev_app_distr in Hws. simpl in Hws.
  now exists (rev ws).
Qed.

Lemma without_bang_cons (c : ascii) (rest : str) :
  (if Ascii.eqb c "!" then Py.slice_from (c :: rest) 1 else c :: rest)
  = without_bang (c :: rest).
Proof. reflexivity. Qed.

Lemma dropped_line_gives_no_rule (line : str) (base : Path) (source : Path * nat) :
  is_absolute base = true ->
  blank_line line \/ comment_line line \/ triple_asterisk line \/
  misplaced_double_asterisk (without_bang line) \/ bare_slash line ->
  rule_from_pattern line base source = Ok None.
Proof.
  intros Habs Hcase. unfold rule_from_pattern, assert_absolute.
  rewrite Habs. cbn [negb bind].
  destruct (str_eqb (Py.strip line) []) eqn:Eblank; cbn [bind]; [reflexivity|].
  destruct line as [|c rest]; [discriminate Eblank|].
  rewrite getitem_0_cons. cbn [bind].
  destruct (Ascii.eqb c "#") eqn:Ehash; [reflexivity|].
  destruct (-1 <? Py.find (c :: rest) (lit "***"))%Z eqn:Efind; [reflexivity|].
  rewrite without_bang_cons.
  destruct (double_asterisk_check_returns (without_bang (c :: rest))) as [b Hb].
  destruct Hcase as [H|[H|[H|[H|H]]]].
  - unfold blank_line in H. rewrite H in Eblank. discriminate.
  - destruct H as [r H]. injection H as -> _. discriminate.
  - destruct H as (pre & post & H). rewrite H in Efind.
    pose proof (find_occurrence pre (lit "***") post) as Hf.
    apply Z.ltb_ge in Efind. lia.
  - destruct H as (pre & post & Hs & Hpre & Hpost & Hslash).
    assert (Hno : forall a b, without_bang (c :: rest) <> a ++ lit "***" ++ b).
    { assert (Hline : forall u v, c :: rest <> u ++ lit "***" ++ v).
      { intros u v E. rewrite E in Efind.
        pose proof (find_occurrence u (lit "***") v) as Hf.
        apply Z.ltb_ge in Efind. lia. }
      unfold without_bang. destruct (Ascii.eqb c "!") eqn:Ebang; [|exact Hline].
      apply Ascii.eqb_eq in Ebang as ->. exact (no_triple_suffix Hline). }
    rewrite (@double_asterisk_loop_finds _ _ (length pre)).
    + reflexivity.
    + intros j Hj.
      apply (@finditer_in_range (length (without_bang (c :: rest)))) in Hj;
        [lia | lia].
    + apply (@finditer_complete (length (without_bang (c :: rest)))
               _ pre post 0); auto.
    + rewrite Hs. now apply misplaced_is_invalid.
  - rewrite Hb. cbn [bind]. destruct b; [reflexivity|].
    destruct (bare_slash_shape H) as [ws E]. injection E as -> ->.
    unfold without_bang. cbn [Ascii.eqb Bool.eqb].
    unfold bare_slash in H. rewrite H. reflexivity.
Qed.

(** C6, as the program has it. A line that is blank, or begins with [#], or
    holds three asterisks in a row, or holds - once its leading [!] is
    removed - two asterisks neither at the start nor at the end nor between
    two slashes, or is a bare [/] before trailing blanks, gives no rule and
    raises nothing; the loop over the lines of the file goes on to the next
    line with the rules it had. *)
Theorem dropped_lines_give_no_rule :
  forall (line : str) (base : Path) (source : Path * nat),
    is_absolute base = true ->
    blank_line line \/ comment_line line \/ triple_asterisk line \/
    misplaced_double_asterisk (without_bang line) \/ bare_slash line ->
    rule_from_pattern line base source = Ok None
    /\ (forall (fs : FileSystem) (full_path base_dir : Path) (lineno : nat)
               (raw : str) (rest : list str) (rules : list IgnoreRule),
          Py.rstrip_chars [Re.newline] raw = line ->
          fs_resolve fs base_dir = Some base ->
          parse_lines fs full_path base_dir lineno (raw :: rest) rules =
          parse_lines fs full_path base_dir (lineno + 1) rest rules).
Proof.
  intros line base source Habs Hcase. split.
  - now apply dropped_line_gives_no_rule.
  - intros fs full_path base_dir lineno raw rest rules Hraw Hres.
    cbn [parse_lines]. rewrite Hraw, Hres. cbn [bind].
    now rewrite (@dropped_line_gives_no_rule line base (full_path, lineno + 1) Habs Hcase).
Qed.

Lemma dropped_lines_give_no_rule_witness :
  rule_from_pattern (lit "a**b") repo (repo, 1) = Ok None
  /\ parse_lines demo_fs (Path_of_str (lit "/repo/.gitignore")) repo 0
       [lit "!a**b" ++ [Re.newline]; lit "*.txt" ++ [Re.newline]] []
     = parse_lines demo_fs (Path_of_str (lit "/repo/.gitignore")) repo 1
         [lit "*.txt" ++ [Re.newline]] [].
Proof.
  assert (Hmis : misplaced_double_asterisk (lit "a**b")).
  { exists (lit "a"), (lit "b"). repeat split; try discriminate.
    left. discriminate. }
  split.
  - apply (@dropped_lines_give_no_rule (lit "a**b") repo (repo, 1) eq_refl).
    right. right. right. left. exact Hmis.
  - apply (proj2 (@dropped_lines_give_no_rule (lit "!a**b") repo (repo, 1)
                    eq_refl
                    (or_intror (or_intror (or_intror (or_introl Hmis)))))).
    + reflexivity.
    + reflexivity.
Defined.

(** C6, as stated, fails: in the line [!**a] the two asterisks are not at
    the start of the line, not at its end, and not between two slashes, yet
    the line compiles to a rule, the negation of [**a]. *)
Lemma bang_before_double_asterisk_gives_a_rule :
  misplaced_double_asterisk (lit "!**a")
  /\ rule_from_pattern (lit "!**a") repo (repo, 1) =
     Ok (Some (mkIgnoreRule (lit "!**a") [Flags; Lit "a"; Eol]
                            true false false repo (repo, 1))).
Proof.
  split.
  - exists (lit "!"), (lit "a"). repeat split; try discriminate.
    left. discriminate.
  - vm_compute. reflexivity.
Qed.

(** ** The glob translator on asterisks *)

Lemma is_sep_eq (c : ascii) : is_sep c = true <-> c = "/"%char.
Proof. apply Ascii.eqb_eq. Qed.

(** [**] and the [/] after it become [.*] and [[/]?], and the scan moves past
    the three characters. *)
Lemma fnmatch_step_double_asterisk_slash (pattern : str) (i : nat) (res : Re.regex)
  (rest : str) :
  skipn i pattern = lit "**/" ++ rest ->
  fnmatch_step pattern i res = Ok (i + 3, res ++ [AnyStar; SepOpt]).
Proof.
  intros H. unfold fnmatch_step.
  rewrite getitem_nat.
  rewrite <- (Nat.add_0_r i) at 1. rewrite (@nth_error_of_skipn _ _ _ 0 H).
  simpl. rewrite (@nth_error_of_skipn _ _ _ 1 H). simpl.
  replace (i + 1 + 1) with (i + 2) by lia.
  rewrite (@nth_error_of_skipn _ _ _ 2 H). simpl.
  f_equal. f_equal; [lia | now rewrite <- app_assoc].
Qed.

(** A lone [*] becomes [[^/]*]. *)
Lemma fnmatch_step_single_asterisk (pattern : str) (i : nat) (res : Re.regex) :
  nth_error pattern i = Some "*"%char ->
  nth_error pattern (i + 1) <> Some "*"%char ->
  fnmatch_step pattern i res = Ok (i + 1, res ++ [NonsepStar]).
Proof.
  intros Hi Hnext. unfold fnmatch_step. rewrite getitem_nat, Hi. simpl.
  destruct (nth_error pattern (i + 1)) as [c1|]; [|reflexivity].
  destruct (Ascii.eqb c1 "*") eqn:E; [|reflexivity].
  apply Ascii.eqb_eq in E as ->. congruence.
Qed.

(** The text [[^/]*] matches holds no separator. *)
Lemma nonsep_star_matches (re : Re.regex) (prev : option ascii) (s : str) :
  match_here (NonsepStar :: re) prev s = true <->
  exists m s', s = m ++ s' /\ ~ In os_sep m /\
               match_here re (after prev m) s' = true.
Proof.
  cbn [match_here]. rewrite star_iff.
  split; intros (m & s' & E & H & Hk); exists m, s'; repeat split; auto;
    now apply forallb_nonsep.
Qed.

(** ** Patterns built from plain names *)

Lemma plain_char_spec (c : ascii) :
  plain_char c = true ->
  Py.isspace c = false /\
  Ascii.eqb c "*" = false /\ Ascii.eqb c "?" = false /\
  Ascii.eqb c "[" = false /\ Ascii.eqb c "/" = false /\
  Ascii.eqb c "\" = false /\ Ascii.eqb c "#" = false /\
  Ascii.eqb c "!" = false.
Proof.
  unfold plain_char, Py.contains. cbn [lit list_ascii_of_string existsb].
  rewrite andb_true_iff, !negb_true_iff, !orb_false_iff. tauto.
Qed.

Lemma plain_cons (c : ascii) (u : str) :
  plain (c :: u) <-> plain_char c = true /\ plain u.
Proof. unfold plain. simpl. apply andb_true_iff. Qed.

Lemma plain_app (u v : str) : plain (u ++ v) <-> plain u /\ plain v.
Proof. unfold plain. rewrite forallb_app. apply andb_true_iff. Qed.

Lemma plain_last (u : str) :
  plain_name u -> exists u' d, u = u' ++ [d] /\ plain_char d = true /\ plain u'.
Proof.
  intros [Hne Hpl]. destruct (@exists_last _ u Hne) as [u' [d ->]].
  apply plain_app in Hpl as [Hu' Hd]. apply plain_cons in Hd as [Hd _].
  now exists u', d.
Qed.

Lemma plain_head (u : str) :
  plain_name u -> exists c u', u = c :: u' /\ plain_char c = true /\ plain u'.
Proof.
  intros [Hne Hpl]. destruct u as [|c u']; [congruence|].
  apply plain_cons in Hpl as [Hc Hu']. now exists c, u'.
Qed.

Lemma plain_not_in (u : str) (x : ascii) :
  plain u -> plain_char x = false -> existsb (Ascii.eqb x) u = false.
Proof.
  intros Hpl Hx. induction u as [|c u IH]; [reflexivity|].
  apply plain_cons in Hpl as [Hc Hu]. simpl. rewrite (IH Hu), orb_false_r.
  destruct (Ascii.eqb x c) eqn:E; [|reflexivity].
  apply Ascii.eqb_eq in E as ->. congruence.
Qed.

(** *** Blanks at the ends *)

Lemma lstrip_id (c : ascii) (s : str) :
  Py.isspace c = false -> Py.lstrip (c :: s) = c :: s.
Proof. intros H. simpl. now rewrite H. Qed.

Lemma rstrip_id (s : str) (d : ascii) :
  Py.isspace d = false -> Py.rstrip (s ++ [d]) = s ++ [d].
Proof.
  intros H. unfold Py.rstrip. rewrite rev_app_distr. cbn [rev app].
  rewrite lstrip_id by exact H.
  change (d :: rev s) with ([d] ++ rev s).
  now rewrite rev_app_distr, rev_involutive.
Qed.

(** *** Asterisks *)

Lemma has_triple_cons (c : ascii) (s : str) :
  has_triple (c :: s) =
  (Ascii.eqb c "*" && Py.startswith s (lit "**")) || has_triple s.
Proof.
  unfold has_triple. rewrite find_unfold.
  cbn [Py.startswith lit list_ascii_of_string].
  destruct (Ascii.eqb c "*"); cbn [andb orb];
    [destruct (Py.startswith s _); cbn [orb]; [reflexivity|] |];
    cbv zeta; destruct (Py.find s _ <? 0)%Z eqn:E;
    solve [ apply Z.ltb_lt in E; symmetry; apply Z.ltb_ge; lia
          | apply Z.ltb_ge in E;
            transitivity true; [|symmetry]; apply Z.ltb_lt; lia ].
Qed.

Lemma has_triple_plain (u x : str) :
  plain u -> has_triple (u ++ x) = has_triple x.
Proof.
  intros Hpl. induction u as [|c u IH]; [reflexivity|].
  apply plain_cons in Hpl as [Hc Hu]. apply plain_char_spec in Hc.
  cbn [app]. rewrite has_triple_cons, (IH Hu).
  now replace (Ascii.eqb c "*") with false by (symmetry; tauto).
Qed.

Lemma finditer_not_asterisk (c : ascii) (s : str) (i : nat) :
  Ascii.eqb c "*" = false ->
  Py.finditer_double_asterisk (c :: s) i = Py.finditer_double_asterisk s (i + 1).
Proof.
  intros H. cbn [Py.finditer_double_asterisk]. rewrite H.
  now destruct s.
Qed.

Lemma finditer_plain (u x : str) (i : nat) :
  plain u ->
  Py.finditer_double_asterisk (u ++ x) i =
  Py.finditer_double_asterisk x (i + length u).
Proof.
  intros Hpl. revert i. induction u as [|c u IH]; intros i.
  - simpl. now rewrite Nat.add_0_r.
  - apply plain_cons in Hpl as [Hc Hu]. apply plain_char_spec in Hc.
    cbn [app]. rewrite finditer_not_asterisk by tauto.
    rewrite (IH Hu). f_equal. simpl. lia.
Qed.

(** *** The scan of the glob translator, by tokens *)

Lemma scan_start (pattern : str) :
  fnmatch_loop (length pattern) pattern 0 [] = scan pattern 0 [].
Proof. unfold scan. now rewrite Nat.sub_0_r. Qed.

Lemma scan_step (pattern : str) (i i' : nat) (res res' : Re.regex) :
  i < length pattern ->
  fnmatch_step pattern i res = Ok (i', res') ->
  scan pattern i res = scan pattern i' res'.
Proof.
  intros Hi Hstep. unfold scan.
  destruct (fnmatch_step_advances pattern res Hi) as (j & r & Hj & Hadv).
  rewrite Hstep in Hj. injection Hj as <- <-.
  destruct (length pattern - i) as [|m] eqn:Em; [lia|].
  simpl. replace (i <? length pattern) with true
    by (symmetry; now apply Nat.ltb_lt).
  rewrite Hstep. cbn [bind fst snd]. apply fnmatch_loop_fuel; lia.
Qed.

Lemma fnmatch_step_plain (pattern : str) (i : nat) (res : Re.regex) (c : ascii) :
  nth_error pattern i = Some c -> plain_char c = true ->
  fnmatch_step pattern i res = Ok (i + 1, res ++ [Lit c]).
Proof.
  intros Hi Hc. apply plain_char_spec in Hc as (_ & H1 & H2 & H3 & H4 & _).
  unfold fnmatch_step. rewrite getitem_nat, Hi. cbn [bind].
  now rewrite H1, H2, H4, H3.
Qed.

Lemma fnmatch_step_double_asterisk_end (pattern : str) (i : nat) (res : Re.regex) :
  skipn i pattern = lit "**" ->
  fnmatch_step pattern i res = Ok (i + 2, res ++ [AnyStar; NonsepStar]).
Proof.
  intros H. unfold fnmatch_step. rewrite getitem_nat.
  rewrite <- (Nat.add_0_r i) at 1. rewrite (@nth_error_of_skipn _ _ _ 0 H).
  simpl. rewrite (@nth_error_of_skipn _ _ _ 1 H). simpl.
  replace (i + 1 + 1) with (i + 2) by lia.
  rewrite (@nth_error_of_skipn _ _ _ 2 H). simpl.
  now rewrite <- app_assoc.
Qed.

(** *** The pattern compiler on a line that passes its checks *)

Lemma rule_from_pattern_checked (line : str) (base : Path) (source : Path * nat) :
  is_absolute base = true ->
  Py.strip line <> [] ->
  Ascii.eqb (hd Ascii.zero line) "#" = false ->
  Ascii.eqb (hd Ascii.zero line) "!" = false ->
  has_triple line = false ->
  double_asterisk_loop line (Py.finditer_double_asterisk line 0) = Ok false ->
  Py.rstrip line <> lit "/" ->
  rule_from_pattern line base source = finish line line false base source.
Proof.
  intros Habs Hblank Hhash Hbang Htriple Hloop Hslash.
  unfold rule_from_pattern, assert_absolute. rewrite Habs. cbn [negb bind].
  apply str_eqb_neq in Hblank, Hslash. rewrite Hblank. cbn [bind].
  destruct line as [|c rest]; [discriminate Hblank|].
  rewrite getitem_0_cons. cbn [bind hd] in *. rewrite Hhash.
  unfold has_triple in Htriple. rewrite Htriple, Hbang, Hloop. cbn [bind].
  now rewrite Hslash.
Qed.

(** *** Cutting at the ends *)

Lemma last_app_nonempty (s x : str) (z : ascii) :
  x <> [] -> last (s ++ x) z = last x z.
Proof.
  intros Hx. destruct (@exists_last _ x Hx) as [x' [d ->]].
  now rewrite app_assoc, !last_last.
Qed.

Lemma plain_last_char (u : str) :
  plain_name u -> plain_char (last u Ascii.zero) = true.
Proof.
  intros H. destruct (plain_last H) as (u' & d & -> & Hd & _).
  now rewrite last_last.
Qed.

Lemma plain_head_char (u : str) :
  plain_name u -> plain_char (hd Ascii.zero u) = true.
Proof. intros H. now destruct (plain_head H) as (c & u' & -> & Hc & _). Qed.

Lemma rstrip_keep (s : str) :
  s <> [] -> Py.isspace (last s Ascii.zero) = false -> Py.rstrip s = s.
Proof.
  intros Hs. destruct (@exists_last _ s Hs) as [s' [d ->]].
  rewrite last_last. apply rstrip_id.
Qed.

Lemma strip_keep (s : str) :
  s <> [] -> Py.isspace (hd Ascii.zero s) = false ->
  Py.isspace (last s Ascii.zero) = false -> Py.strip s = s.
Proof.
  intros Hs Hh Hl. unfold Py.strip. destruct s as [|c s]; [congruence|].
  simpl in Hh. rewrite lstrip_id by exact Hh. now apply rstrip_keep.
Qed.

Lemma slice_to_minus_1 (s : str) (d : ascii) : Py.slice_to_minus (s ++ [d]) 1 = s.
Proof.
  unfold Py.slice_to_minus. rewrite length_app. simpl.
  replace (length s + 1 - 1) with (length s) by lia.
  rewrite firstn_app, Nat.sub_diag, firstn_all. simpl. apply app_nil_r.
Qed.

Lemma startswith_nil (s : str) : Py.startswith s [] = true.
Proof. now destruct s. Qed.

Lemma endswith_single (s : str) (d m : ascii) :
  Py.endswith (s ++ [d]) [m] = Ascii.eqb d m.
Proof.
  unfold Py.endswith. rewrite rev_app_distr. simpl.
  rewrite startswith_nil. apply andb_true_r.
Qed.

Lemma str_rcut_miss (s : str) (m : ascii) :
  s <> [] -> Ascii.eqb (last s Ascii.zero) m = false ->
  str_rcut s [m] = (s, false).
Proof.
  intros Hs. destruct (@exists_last _ s Hs) as [s' [d ->]].
  rewrite last_last. intros H. unfold str_rcut.
  now rewrite endswith_single, H.
Qed.

Lemma str_rcut_hit (s : str) (m : ascii) : str_rcut (s ++ [m]) [m] = (s, true).
Proof.
  unfold str_rcut. rewrite endswith_single, Ascii.eqb_refl.
  cbn [length]. now rewrite (slice_to_minus_1 s m).
Qed.

Lemma str_lcut_miss (s : str) (m : ascii) (rest : str) :
  Ascii.eqb (hd Ascii.zero s) m = false -> s <> [] ->
  str_lcut s (m :: rest) = (s, false).
Proof.
  intros H Hs. destruct s as [|c s]; [congruence|]. simpl in H.
  unfold str_lcut. cbn [Py.startswith]. now rewrite H.
Qed.

Lemma startswith_miss (s : str) (m : ascii) (rest : str) :
  Ascii.eqb (hd Ascii.zero s) m = false -> s <> [] ->
  Py.startswith s (m :: rest) = false.
Proof.
  intros H Hs. destruct s as [|c s]; [congruence|]. simpl in H.
  cbn [Py.startswith]. now rewrite H.
Qed.

(** Nothing is cut from a pattern whose ends are neither slashes nor
    backslashes nor blanks, and which does not begin with two asterisks. *)
Lemma finish_uncut (orig pat : str) (neg : bool) (base : Path)
  (source : Path * nat) :
  pat <> [] ->
  Ascii.eqb (hd Ascii.zero pat) "/" = false ->
  Ascii.eqb (hd Ascii.zero pat) "\" = false ->
  Py.startswith pat (lit "**") = false ->
  Ascii.eqb (last pat Ascii.zero) "/" = false ->
  Ascii.eqb (last pat Ascii.zero) "\" = false ->
  Py.isspace (last pat Ascii.zero) = false ->
  finish orig pat neg base source =
  (regex <- fnmatch_pathname_to_regex pat false neg
              (Py.contains "/" (Py.slice_to_minus pat 1)) ;;
   Ok (Some (mkIgnoreRule orig regex neg false
               (Py.contains "/" (Py.slice_to_minus pat 1)) base source))).
Proof.
  intros Hne Hh1 Hh2 Hss Hl1 Hl2 Hl3. unfold finish.
  rewrite getitem_last by exact Hne. cbn [bind]. rewrite Hl1.
  cbv zeta. unfold lit in *. cbn [list_ascii_of_string] in *.
  rewrite str_lcut_miss by assumption.
  unfold str_lcut at 1. rewrite Hss.
  rewrite str_lcut_miss by assumption.
  rewrite str_rcut_miss by assumption.
  rewrite startswith_miss by assumption.
  rewrite rstrip_keep by assumption.
  rewrite str_rcut_miss by assumption.
  reflexivity.
Qed.

(** *** The scan depends on the text ahead only *)

Lemma nth_error_shift (pre s : str) (i : nat) :
  nth_error (pre ++ s) (length pre + i) = nth_error s i.
Proof. rewrite nth_error_app2 by lia. f_equal. lia. Qed.

Lemma char_at_shift (pre s : str) (i : nat) :
  char_at (pre ++ s) (length pre + i) = char_at s i.
Proof.
  unfold char_at. rewrite app_nth2 by lia. f_equal. lia.
Qed.

Lemma skipn_shift (pre s : str) (i : nat) :
  skipn (length pre + i) (pre ++ s) = skipn i s.
Proof. induction pre; simpl; auto. Qed.

Lemma ltb_shift (k a b : nat) : (k + a <? k + b) = (a <? b).
Proof.
  destruct (a <? b) eqn:E.
  - apply Nat.ltb_lt in E. apply Nat.ltb_lt. lia.
  - apply Nat.ltb_ge in E. apply Nat.ltb_ge. lia.
Qed.

Lemma leb_shift (k a b : nat) : (k + a <=? k + b) = (a <=? b).
Proof.
  destruct (a <=? b) eqn:E.
  - apply Nat.leb_le in E. apply Nat.leb_le. lia.
  - apply Nat.leb_gt in E. apply Nat.leb_gt. lia.
Qed.

Lemma fnmatch_step_shift (pre s : str) (i : nat) (res : Re.regex) :
  fnmatch_step (pre ++ s) (length pre + i) res =
  shift (length pre) (fnmatch_step s i res).
Proof.
  unfold fnmatch_step. rewrite !getitem_nat, nth_error_shift.
  destruct (nth_error s i) as [c|]; [|reflexivity]. cbn [bind].
  replace (length pre + i + 1) with (length pre + (i + 1)) by lia.
  destruct (Ascii.eqb c "*").
  { rewrite nth_error_shift.
    destruct (nth_error s (i + 1)) as [c1|]; [|reflexivity].
    destruct (Ascii.eqb c1 "*"); [|reflexivity].
    replace (length pre + (i + 1) + 1) with (length pre + (i + 1 + 1)) by lia.
    rewrite nth_error_shift.
    destruct (nth_error s (i + 1 + 1)) as [c2|]; [|reflexivity].
    destruct (Ascii.eqb c2 "/"); [|reflexivity].
    simpl. do 2 f_equal. lia. }
  destruct (Ascii.eqb c "?"); [reflexivity|].
  destruct (Ascii.eqb c "/"); [reflexivity|].
  destruct (Ascii.eqb c "["); [|reflexivity].
  cbv zeta. rewrite length_app.
  rewrite ltb_shift, char_at_shift.
  set (j1 := if (i + 1 <? length s) && Ascii.eqb (char_at s (i + 1)) "!"
             then i + 1 + 1 else i + 1).
  replace (if (i + 1 <? length s) && Ascii.eqb (char_at s (i + 1)) "!"
           then length pre + (i + 1) + 1 else length pre + (i + 1))
    with (length pre + j1)
    by (unfold j1; destruct ((i + 1 <? length s) && _); lia).
  rewrite ltb_shift, char_at_shift.
  set (j2 := if (j1 <? length s) && Ascii.eqb (char_at s j1) "]"
             then j1 + 1 else j1).
  replace (if (j1 <? length s) && Ascii.eqb (char_at s j1) "]"
           then length pre + j1 + 1 else length pre + j1)
    with (length pre + j2)
    by (unfold j2; destruct ((j1 <? length s) && _); lia).
  rewrite skipn_shift.
  set (j3 := j2 + skip_to_rbracket (skipn j2 s)).
  replace (length pre + j2 + skip_to_rbracket (skipn j2 s))
    with (length pre + j3) by (unfold j3; lia).
  rewrite leb_shift.
  destruct (length s <=? j3); [reflexivity|].
  unfold Py.slice. rewrite skipn_shift.
  replace (length pre + j3 - (length pre + (i + 1))) with (j3 - (i + 1)) by lia.
  destruct (Py.getitem _ 0) as [c0|]; [|reflexivity]. cbn [bind shift].
  do 2 f_equal. lia.
Qed.

Lemma fnmatch_loop_shift (fuel : nat) (pre s : str) (i : nat) (res : Re.regex) :
  fnmatch_loop fuel (pre ++ s) (length pre + i) res = fnmatch_loop fuel s i res.
Proof.
  revert i res. induction fuel as [|fuel IH]; intros i res; [reflexivity|].
  cbn [fnmatch_loop]. rewrite length_app, ltb_shift, fnmatch_step_shift.
  destruct (i <? length s); [|reflexivity].
  destruct (fnmatch_step s i res) as [[i' res']|]; [|reflexivity].
  cbn [shift bind fst snd]. apply IH.
Qed.

(** The scan of [pre ++ s] from the end of [pre] is the scan of [s]. *)
Lemma scan_suffix (pre s : str) (res : Re.regex) :
  scan (pre ++ s) (length pre) res = scan s 0 res.
Proof.
  unfold scan. rewrite length_app, Nat.sub_0_r.
  replace (length pre + length s - length pre) with (length s) by lia.
  rewrite <- (fnmatch_loop_shift (length s) pre s 0 res).
  f_equal. lia.
Qed.

Lemma scan_token (tok s : str) (res res' : Re.regex) :
  tok <> [] ->
  fnmatch_step (tok ++ s) 0 res = Ok (length tok, res') ->
  scan (tok ++ s) 0 res = scan s 0 res'.
Proof.
  intros Htok Hstep. rewrite <- (scan_suffix tok s res').
  apply scan_step; [|exact Hstep].
  rewrite length_app. destruct tok; [congruence | simpl; lia].
Qed.

Lemma scan_plain_char (c : ascii) (s : str) (res : Re.regex) :
  plain_char c = true -> scan (c :: s) 0 res = scan s 0 (res ++ [Lit c]).
Proof.
  intros Hc. apply (@scan_token [c]); [discriminate|].
  now apply fnmatch_step_plain.
Qed.

Lemma scan_plain_stretch (u s : str) (res : Re.regex) :
  plain u -> scan (u ++ s) 0 res = scan s 0 (res ++ map Lit u).
Proof.
  revert res. induction u as [|c u IH]; intros res Hpl.
  - simpl. now rewrite app_nil_r.
  - apply plain_cons in Hpl as [Hc Hu]. cbn [app map].
    rewrite scan_plain_char by exact Hc. rewrite (IH _ Hu).
    now rewrite <- app_assoc.
Qed.

Lemma scan_slash (s : str) (res : Re.regex) :
  scan ("/"%char :: s) 0 res = scan s 0 (res ++ [Sep]).
Proof. apply (@scan_token ["/"%char]); [discriminate | reflexivity]. Qed.

Lemma scan_double_asterisk_slash (s : str) (res : Re.regex) :
  scan (lit "**/" ++ s) 0 res = scan s 0 (res ++ [AnyStar; SepOpt]).
Proof.
  apply (@scan_token (lit "**/")); [discriminate|].
  now rewrite (@fnmatch_step_double_asterisk_slash _ 0 res s).
Qed.

Lemma scan_double_asterisk_end (res : Re.regex) :
  scan (lit "**") 0 res = Ok (res ++ [AnyStar; NonsepStar]).
Proof.
  rewrite <- (app_nil_r (lit "**")).
  rewrite (@scan_token (lit "**") [] res (res ++ [AnyStar; NonsepStar]));
    [reflexivity | discriminate|].
  now rewrite (@fnmatch_step_double_asterisk_end _ 0 res).
Qed.

Lemma scan_single_asterisk (s : str) (res : Re.regex) :
  Ascii.eqb (hd Ascii.zero s) "*" = false ->
  scan ("*"%char :: s) 0 res = scan s 0 (res ++ [NonsepStar]).
Proof.
  intros Hs. apply (@scan_token ["*"%char]); [discriminate|].
  apply fnmatch_step_single_asterisk; [reflexivity|].
  destruct s as [|c s]; [discriminate|]. simpl in *.
  intros E. injection E as ->. discriminate.
Qed.

(** *** The rules of five shapes of pattern *)

Lemma hd_app_nonempty (u x : str) (z : ascii) :
  u <> [] -> hd z (u ++ x) = hd z u.
Proof. now destruct u. Qed.

Lemma finditer_plain_all (u : str) (i : nat) :
  plain u -> Py.finditer_double_asterisk u i = [].
Proof.
  intros H. rewrite <- (app_nil_r u). now rewrite finditer_plain.
Qed.

Lemma has_triple_plain_all (u : str) : plain u -> has_triple u = false.
Proof.
  intros H. rewrite <- (app_nil_r u). now rewrite has_triple_plain.
Qed.

Lemma contains_app (c : ascii) (a b : str) :
  Py.contains c (a ++ b) = Py.contains c a || Py.contains c b.
Proof. apply existsb_app. Qed.

Lemma contains_plain (u : str) (c : ascii) :
  plain u -> plain_char c = false -> Py.contains c u = false.
Proof. intros. now apply plain_not_in. Qed.

Lemma contains_firstn (c : ascii) (s : str) (k : nat) :
  Py.contains c s = false -> Py.contains c (firstn k s) = false.
Proof.
  revert k. induction s as [|x s IH]; intros [|k] H; try reflexivity.
  simpl in *. apply orb_false_iff in H as [Hx Hs].
  now rewrite Hx, (IH k Hs).
Qed.

Lemma contains_slash_inside (a b : str) :
  b <> [] ->
  Py.contains "/" (Py.slice_to_minus (a ++ "/"%char :: b) 1) = true.
Proof.
  intros Hb. unfold Py.slice_to_minus. rewrite length_app. cbn [length].
  destruct b as [|x b]; [congruence|]. cbn [length].
  rewrite firstn_app.
  replace (length a + S (S (length b)) - 1 - length a) with (S (length b)) by lia.
  rewrite contains_app. simpl. apply orb_true_r.
Qed.

Lemma invalid_at_end (pre : str) :
  double_asterisk_invalid (pre ++ lit "**") (length pre) = Ok false.
Proof.
  unfold double_asterisk_invalid. cbv zeta.
  replace (Z.of_nat (length pre) =? Z.of_nat (length (pre ++ lit "**")) - 2)%Z
    with true
    by (symmetry; apply Z.eqb_eq; rewrite length_app; simpl; lia).
  now rewrite andb_false_r.
Qed.

Lemma invalid_between_slashes (pre post : str) :
  double_asterisk_invalid (pre ++ lit "/**/" ++ post) (length pre + 1) = Ok false.
Proof.
  unfold double_asterisk_invalid. cbv zeta.
  destruct (negb _ && negb _); [|reflexivity].
  replace (Z.of_nat (length pre + 1) - 1)%Z with (Z.of_nat (length pre + 0)) by lia.
  replace (Z.of_nat (length pre + 1) + 2)%Z with (Z.of_nat (length pre + 3)) by lia.
  now rewrite !getitem_nat, !nth_error_shift.
Qed.

Lemma app_not_single (u x : str) (c : ascii) :
  u <> [] -> x <> [] -> u ++ x <> [c].
Proof.
  intros Hu Hx E. apply (f_equal (@length ascii)) in E.
  rewrite length_app in E. simpl in E.
  destruct u; [congruence|]. destruct x; [congruence|]. simpl in E. lia.
Qed.

Lemma scan_plain_all (u : str) (res : Re.regex) :
  plain u -> scan u 0 res = Ok (res ++ map Lit u).
Proof.
  intros H. rewrite <- (app_nil_r u) at 1. now rewrite scan_plain_stretch.
Qed.

Section Shapes.

Variable base : Path.
Variable source : Path * nat.
Hypothesis base_absolute : is_absolute base = true.

Ltac plain_facts H :=
  let F := fresh "F" in
  pose proof (plain_char_spec _ H) as F;
  destruct F as (? & ? & ? & ? & ? & ? & ? & ?).

(** [name/] *)
Lemma rule_of_directory_pattern (u : str) :
  plain_name u ->
  rule_from_pattern (u ++ lit "/") base source =
  Ok (Some (mkIgnoreRule (u ++ lit "/") (Flags :: map Lit u ++ [EolOrSlash])
                         false true false base source)).
Proof.
  intros Hu. pose proof Hu as [Hne Hpl].
  pose proof (plain_head_char Hu) as Hh. plain_facts Hh.
  pose proof (plain_last_char Hu) as Hl. plain_facts Hl.
  assert (Hline : u ++ lit "/" <> []) by (destruct u; discriminate).
  assert (Hhd : hd Ascii.zero (u ++ lit "/") = hd Ascii.zero u)
    by now apply hd_app_nonempty.
  assert (Hlast : last (u ++ lit "/") Ascii.zero = "/"%char) by apply last_last.
  rewrite rule_from_pattern_checked; try rewrite Hhd; auto.
  - unfold finish. rewrite getitem_last by exact Hline. rewrite Hlast.
    cbn [bind]. cbv zeta. unfold lit in *.
    cbn [list_ascii_of_string Ascii.eqb Bool.eqb] in *.
    rewrite slice_to_minus_1.
    rewrite str_lcut_miss by (try rewrite Hhd; auto). cbv beta iota.
    unfold str_lcut at 1.
    rewrite startswith_miss by (try rewrite Hhd; auto). cbv beta iota.
    rewrite str_lcut_miss by (try rewrite Hhd; auto). cbv beta iota.
    rewrite str_rcut_hit. cbv beta iota.
    rewrite startswith_miss by auto.
    rewrite rstrip_keep by auto.
    rewrite str_rcut_miss by auto. cbv beta iota.
    rewrite contains_plain by (auto; reflexivity).
    unfold fnmatch_pathname_to_regex. rewrite scan_start.
    rewrite scan_plain_all by exact Hpl. reflexivity.
  - rewrite strip_keep; try rewrite Hhd; try rewrite Hlast; auto.
  - rewrite has_triple_plain by exact Hpl. reflexivity.
  - rewrite finditer_plain by exact Hpl. reflexivity.
  - rewrite rstrip_keep; try rewrite Hlast; auto.
    apply app_not_single; [exact Hne | discriminate].
Qed.

Lemma finditer_double (s : str) (i : nat) :
  Py.finditer_double_asterisk ("*"%char :: "*"%char :: s) i =
  i :: Py.finditer_double_asterisk s (i + 2).
Proof. reflexivity. Qed.

Lemma finditer_asterisk_then (d : ascii) (s : str) (i : nat) :
  Ascii.eqb d "*" = false ->
  Py.finditer_double_asterisk ("*"%char :: d :: s) i =
  Py.finditer_double_asterisk (d :: s) (i + 1).
Proof.
  intros H.
  change (Py.finditer_double_asterisk ("*"%char :: d :: s) i)
    with (if Ascii.eqb "*" "*" && Ascii.eqb d "*"
          then i :: Py.finditer_double_asterisk s (i + 2)
          else Py.finditer_double_asterisk (d :: s) (i + 1)).
  now rewrite H, andb_false_r.
Qed.

(** [**/name] *)
Lemma rule_of_any_depth_pattern (u : str) :
  plain_name u ->
  rule_from_pattern (lit "**/" ++ u) base source =
  Ok (Some (mkIgnoreRule (lit "**/" ++ u) (Flags :: map Lit u ++ [Eol])
                         false false false base source)).
Proof.
  intros Hu. pose proof Hu as [Hne Hpl].
  pose proof (plain_head_char Hu) as Hh. plain_facts Hh.
  pose proof (plain_last_char Hu) as Hl. plain_facts Hl.
  assert (Hline : lit "**/" ++ u <> []) by discriminate.
  assert (Hlast : last (lit "**/" ++ u) Ascii.zero = last u Ascii.zero)
    by now apply last_app_nonempty.
  rewrite rule_from_pattern_checked; auto.
  - unfold finish. rewrite getitem_last by exact Hline. rewrite Hlast.
    cbn [bind]. cbv zeta. unfold lit in *.
    cbn [list_ascii_of_string app] in *.
    rewrite str_lcut_miss by (reflexivity || discriminate). cbv beta iota.
    unfold str_lcut at 1.
    cbn [Py.startswith Ascii.eqb Bool.eqb andb Py.slice_from length skipn].
    unfold str_lcut at 1.
    cbn [Py.startswith Ascii.eqb Bool.eqb andb Py.slice_from length skipn].
    rewrite startswith_nil. cbv beta iota.
    rewrite str_rcut_miss by auto. cbv beta iota.
    rewrite startswith_miss by auto.
    rewrite rstrip_keep by auto.
    rewrite str_rcut_miss by auto. cbv beta iota.
    match goal with |- context [Ascii.eqb ?c "/"] => replace (Ascii.eqb c "/") with false end.
    unfold fnmatch_pathname_to_regex. rewrite scan_start.
    rewrite scan_plain_all by exact Hpl. reflexivity.
  - rewrite strip_keep; try rewrite Hlast; auto.
  - unfold lit. cbn [list_ascii_of_string app].
    rewrite !has_triple_cons, has_triple_plain_all by exact Hpl. reflexivity.
  - unfold lit. cbn [list_ascii_of_string app].
    rewrite finditer_double, finditer_not_asterisk by reflexivity.
    rewrite finditer_plain_all by exact Hpl. reflexivity.
  - rewrite rstrip_keep; try rewrite Hlast; auto.
    apply app_not_single; [discriminate | exact Hne].
Qed.

(** [name/**] *)
Lemma rule_of_everything_below_pattern (u : str) :
  plain_name u ->
  rule_from_pattern (u ++ lit "/**") base source =
  Ok (Some (mkIgnoreRule (u ++ lit "/**")
              (Flags :: Bol :: map Lit u ++ [Sep; AnyStar; NonsepStar; Eol])
              false false true base source)).
Proof.
  intros Hu. pose proof Hu as [Hne Hpl].
  pose proof (plain_head_char Hu) as Hh. plain_facts Hh.
  assert (Hline : u ++ lit "/**" <> []) by (destruct u; discriminate).
  assert (Hhd : hd Ascii.zero (u ++ lit "/**") = hd Ascii.zero u)
    by now apply hd_app_nonempty.
  assert (Hlast : last (u ++ lit "/**") Ascii.zero = "*"%char)
    by now rewrite last_app_nonempty.
  rewrite rule_from_pattern_checked; try rewrite Hhd; auto.
  - rewrite finish_uncut; try rewrite Hhd; try rewrite Hlast; auto.
    + unfold lit. cbn [list_ascii_of_string].
      rewrite contains_slash_inside by discriminate.
      unfold fnmatch_pathname_to_regex. rewrite scan_start.
      rewrite scan_plain_stretch by exact Hpl.
      rewrite scan_slash. fold (lit "**"). rewrite scan_double_asterisk_end.
      cbn [bind app negb andb]. rewrite <- !app_assoc. reflexivity.
    + apply startswith_miss; try rewrite Hhd; auto.
  - rewrite strip_keep; try rewrite Hhd; try rewrite Hlast; auto.
  - rewrite has_triple_plain by exact Hpl. reflexivity.
  - rewrite finditer_plain by exact Hpl.
    unfold lit. cbn [list_ascii_of_string Py.finditer_double_asterisk
                     Ascii.eqb Bool.eqb andb double_asterisk_loop].
    replace (u ++ ["/"; "*"; "*"]%char) with ((u ++ ["/"%char]) ++ lit "**")
      by (now rewrite <- app_assoc).
    replace (0 + length u + 1) with (length (u ++ ["/"%char]))
      by (rewrite length_app; simpl; lia).
    now rewrite invalid_at_end.
  - rewrite rstrip_keep; try rewrite Hlast; auto.
    apply app_not_single; [exact Hne | discriminate].
Qed.

(** [name/**/name] *)
Lemma rule_of_double_asterisk_between (u v : str) :
  plain_name u -> plain_name v ->
  rule_from_pattern (u ++ lit "/**/" ++ v) base source =
  Ok (Some (mkIgnoreRule (u ++ lit "/**/" ++ v)
              (Flags :: Bol :: map Lit u ++ [Sep; AnyStar; SepOpt]
                 ++ map Lit v ++ [Eol])
              false false true base source)).
Proof.
  intros Hu Hv. pose proof Hu as [Hne Hpl]. pose proof Hv as [Hnev Hplv].
  pose proof (plain_head_char Hu) as Hh. plain_facts Hh.
  pose proof (plain_last_char Hv) as Hl. plain_facts Hl.
  assert (Hline : u ++ lit "/**/" ++ v <> []) by (destruct u; discriminate).
  assert (Hhd : hd Ascii.zero (u ++ lit "/**/" ++ v) = hd Ascii.zero u)
    by now apply hd_app_nonempty.
  assert (Hlast : last (u ++ lit "/**/" ++ v) Ascii.zero = last v Ascii.zero).
  { rewrite last_app_nonempty by discriminate. now apply last_app_nonempty. }
  rewrite rule_from_pattern_checked; try rewrite Hhd; auto.
  - rewrite finish_uncut; try rewrite Hhd; try rewrite Hlast; auto.
    + unfold lit. cbn [list_ascii_of_string app].
      rewrite contains_slash_inside by discriminate.
      unfold fnmatch_pathname_to_regex. rewrite scan_start.
      rewrite scan_plain_stretch by exact Hpl.
      rewrite scan_slash.
      change ("*"%char :: "*"%char :: "/"%char :: v) with (lit "**/" ++ v).
      rewrite scan_double_asterisk_slash.
      rewrite scan_plain_all by exact Hplv.
      cbn [bind app negb andb]. rewrite <- !app_assoc. reflexivity.
    + apply startswith_miss; try rewrite Hhd; auto.
  - rewrite strip_keep; try rewrite Hhd; try rewrite Hlast; auto.
  - rewrite has_triple_plain by exact Hpl.
    unfold lit. cbn [list_ascii_of_string app].
    rewrite !has_triple_cons, has_triple_plain_all by exact Hplv. reflexivity.
  - rewrite finditer_plain by exact Hpl.
    unfold lit at 2. cbn [list_ascii_of_string app].
    rewrite finditer_not_asterisk by reflexivity.
    rewrite finditer_double, finditer_not_asterisk by reflexivity.
    rewrite finditer_plain_all by exact Hplv.
    cbn [double_asterisk_loop]. simpl (0 + length u + 1).
    now rewrite invalid_between_slashes.
  - rewrite rstrip_keep; try rewrite Hlast; auto.
    apply app_not_single; [exact Hne | discriminate].
Qed.

Lemma plain_or_asterisk_spec (c : ascii) :
  plain_or_asterisk c ->
  Py.isspace c = false /\ Ascii.eqb c "/" = false /\
  Ascii.eqb c "\" = false /\ Ascii.eqb c "#" = false /\
  Ascii.eqb c "!" = false.
Proof.
  intros [H| ->]; [|now repeat split].
  apply plain_char_spec in H. tauto.
Qed.

Lemma asterisk_pattern_head (u v : str) :
  plain u -> plain_or_asterisk (hd Ascii.zero (u ++ "*"%char :: v)).
Proof.
  intros Hu. destruct u as [|c u]; [now right|].
  apply plain_cons in Hu as [Hc _]. now left.
Qed.

Lemma asterisk_pattern_last (u v : str) :
  plain v -> plain_or_asterisk (last (u ++ "*"%char :: v) Ascii.zero).
Proof.
  intros Hv. rewrite last_app_nonempty by discriminate.
  destruct (@exists_last _ ("*"%char :: v) ltac:(discriminate)) as [l [d E]].
  rewrite E, last_last. destruct l as [|x l].
  - injection E as <-. now right.
  - injection E as _ E. left.
    rewrite E in Hv. apply plain_app in Hv as [_ Hd].
    now apply plain_cons in Hd as [Hd _].
Qed.

Lemma asterisk_then_plain (v : str) :
  plain v -> Py.startswith v (lit "*") = false.
Proof.
  intros Hv. destruct v as [|d v]; [reflexivity|].
  apply plain_cons in Hv as [Hd _]. apply plain_char_spec in Hd.
  cbn [lit list_ascii_of_string Py.startswith].
  now replace (Ascii.eqb d "*") with false by (symmetry; tauto).
Qed.

(** [u*v], with nothing but plain characters around the asterisk. *)
Lemma rule_of_single_asterisk_pattern (u v : str) :
  plain u -> plain v ->
  rule_from_pattern (u ++ "*"%char :: v) base source =
  Ok (Some (mkIgnoreRule (u ++ "*"%char :: v)
              (Flags :: map Lit u ++ [NonsepStar] ++ map Lit v ++ [Eol])
              false false false base source)).
Proof.
  intros Hu Hv.
  pose proof (plain_or_asterisk_spec (asterisk_pattern_head v Hu))
    as (Hh0 & Hh1 & Hh2 & Hh3 & Hh4).
  pose proof (plain_or_asterisk_spec (asterisk_pattern_last u Hv))
    as (Hl0 & Hl1 & Hl2 & _ & _).
  assert (Hline : u ++ "*"%char :: v <> []) by (destruct u; discriminate).
  assert (Hss : Py.startswith (u ++ "*"%char :: v) (lit "**") = false).
  { destruct u as [|c u].
    - cbn [app lit list_ascii_of_string Py.startswith Ascii.eqb Bool.eqb andb].
      now apply asterisk_then_plain.
    - apply plain_cons in Hu as [Hc _]. apply plain_char_spec in Hc.
      cbn [app lit list_ascii_of_string Py.startswith].
      now replace (Ascii.eqb c "*") with false by (symmetry; tauto). }
  assert (Hslash : Py.contains "/" (u ++ "*"%char :: v) = false).
  { rewrite contains_app. cbn [Py.contains existsb].
    fold (Py.contains "/" u). fold (Py.contains "/" v).
    now rewrite !contains_plain. }
  rewrite rule_from_pattern_checked; auto.
  - rewrite finish_uncut; auto.
    unfold Py.slice_to_minus. rewrite contains_firstn by exact Hslash.
    unfold fnmatch_pathname_to_regex. rewrite scan_start.
    rewrite scan_plain_stretch by exact Hu.
    rewrite scan_single_asterisk.
    + rewrite scan_plain_all by exact Hv.
      cbn [bind app negb andb]. rewrite <- !app_assoc. reflexivity.
    + destruct v as [|d v]; [reflexivity|].
      apply plain_cons in Hv as [Hd _]. apply plain_char_spec in Hd.
      simpl. tauto.
  - rewrite strip_keep; auto.
  - rewrite has_triple_plain by exact Hu.
    rewrite has_triple_cons, has_triple_plain_all by exact Hv.
    rewrite orb_false_r. apply andb_false_iff. right.
    destruct v as [|d v]; [reflexivity|].
    apply plain_cons in Hv as [Hd _]. apply plain_char_spec in Hd.
    cbn [lit list_ascii_of_string Py.startswith].
    now replace (Ascii.eqb d "*") with false by (symmetry; tauto).
  - rewrite finditer_plain by exact Hu.
    destruct v as [|d v]; [reflexivity|].
    pose proof Hv as Hv'. apply plain_cons in Hv' as [Hd _].
    apply plain_char_spec in Hd.
    rewrite finditer_asterisk_then by tauto.
    now rewrite finditer_plain_all.
  - rewrite rstrip_keep by auto. intros E.
    destruct u as [|c u]; [discriminate E|].
    injection E as _ E. now destruct u.
Qed.

End Shapes.

(** ** Matching the rules of these patterns *)

Lemma compiles_app (a b : Re.regex) :
  compiles (a ++ b) = compiles a && compiles b.
Proof. apply forallb_app. Qed.

Lemma compiles_lits (u : str) : compiles (map Lit u) = true.
Proof. now induction u. Qed.

Lemma search_compiled (re : Re.regex) (s : str) :
  compiles re = true -> Re.search re s = Ok (search_from re None s).
Proof. intros H. unfold Re.search. now rewrite H. Qed.

(** The match of a rule that is not a negation, on a candidate that
    resolves below the base of the rule. *)
Lemma match_below_base (fs : FileSystem) (rule : IgnoreRule)
  (candidate : Path) (hint : option bool) (rel : list str) :
  negation rule = false ->
  compiles (regex rule) = true ->
  fs_resolve fs candidate =
    Some (mkPath (root (base_path rule)) (parts (base_path rule) ++ rel)) ->
  IgnoreRule_match fs rule candidate hint =
  Ok (search_from (regex rule) None (Py.join [os_sep] rel)).
Proof.
  intros Hneg Hre Hres. unfold IgnoreRule_match. rewrite Hres, Hneg.
  destruct (base_path rule) as [r bp]. cbn [root parts].
  rewrite relative_to_below. cbn [andb]. now apply search_compiled.
Qed.

Lemma match_relative (fs : FileSystem) (rule : IgnoreRule)
  (candidate resolved : Path) (hint : option bool) (rel : list str) :
  negation rule = false ->
  compiles (regex rule) = true ->
  fs_resolve fs candidate = Some resolved ->
  relative_to resolved (base_path rule) = Some rel ->
  IgnoreRule_match fs rule candidate hint =
  Ok (search_from (regex rule) None (Py.join [os_sep] rel)).
Proof.
  intros Hneg Hre Hres Hrel. unfold IgnoreRule_match.
  rewrite Hres, Hneg, Hrel. cbn [andb]. now apply search_compiled.
Qed.

Lemma Ok_true_iff (b : bool) : Ok b = Ok true <-> b = true.
Proof. split; [intros H; now injection H | now intros ->]. Qed.

(** [u/**/v] on a single line: [u/], then anything, then [v]. *)
Lemma search_double_asterisk_between (u v s : str) :
  single_line s ->
  search_from (Flags :: Bol :: map Lit u ++ [Sep; AnyStar; SepOpt]
                 ++ map Lit v ++ [Eol]) None s = true
  <-> exists t, s = u ++ lit "/" ++ t ++ v.
Proof.
  intros Hsl. split.
  - intros H. apply search_from_elim in H as (pre & s0 & -> & H).
    apply single_line_app in Hsl as [Hpre Hs0].
    cbn [match_here] in H. apply andb_true_iff in H as [Hbol H].
    apply at_bol_single_line in Hbol as ->; [|assumption].
    apply match_here_lits in H as (s1 & -> & H).
    apply single_line_app in Hs0 as [_ Hs1].
    cbn [app match_here] in H.
    apply one_iff in H as (c & s2 & -> & Hc & H). apply is_sep_eq in Hc as ->.
    apply star_iff in H as (m & s3 & -> & _ & H).
    assert (Hs3 : single_line s3).
    { apply (single_line_app ["/"%char]) in Hs1 as [_ Hs1].
      now apply single_line_app in Hs1 as [_ ?]. }
    assert (Hend : forall prev s4, single_line s4 ->
              match_here (map Lit v ++ [Eol]) prev s4 = true -> s4 = v).
    { intros prev s4 Hs4 H4. apply match_here_lits in H4 as (s5 & -> & H5).
      cbn [match_here] in H5. rewrite andb_true_r in H5.
      apply single_line_app in Hs4 as [_ Hs5].
      apply at_eol_single_line in H5 as ->; [|assumption].
      apply app_nil_r. }
    apply orb_true_iff in H as [H|H].
    + apply one_iff in H as (c & s4 & -> & Hc & H). apply is_sep_eq in Hc as ->.
      apply Hend in H as ->.
      * exists (m ++ lit "/"). simpl. now rewrite <- !app_assoc.
      * now apply (single_line_app ["/"%char]) in Hs3 as [_ ?].
    + apply Hend in H as ->; [|assumption]. now exists m.
  - intros (t & ->). apply (@search_from_intro _ [] _ None).
    cbn [match_here after at_bol andb]. apply match_here_lits.
    eexists. split; [reflexivity|].
    cbn [app lit list_ascii_of_string match_here].
    apply one_iff. eexists _, _. split; [reflexivity|]. split; [reflexivity|].
    apply star_intro; [apply forallb_any|].
    apply orb_true_iff. right. apply match_here_lits.
    exists []. split; [now rewrite app_nil_r | reflexivity].
Qed.

(** [u*v] on a single line: somewhere [u], then no separator, then [v] at
    the end. *)
Lemma search_single_asterisk (u v s : str) :
  single_line s ->
  search_from (Flags :: map Lit u ++ [NonsepStar] ++ map Lit v ++ [Eol]) None s
  = true
  <-> exists pre m, s = pre ++ u ++ m ++ v /\ ~ In os_sep m.
Proof.
  intros Hsl. split.
  - intros H. apply search_from_elim in H as (pre & s0 & -> & H).
    apply single_line_app in Hsl as [_ Hs0].
    cbn [match_here] in H.
    apply match_here_lits in H as (s1 & -> & H).
    apply single_line_app in Hs0 as [_ Hs1].
    cbn [app] in H. apply nonsep_star_matches in H as (m & s2 & -> & Hm & H).
    apply single_line_app in Hs1 as [_ Hs2].
    apply match_here_lits in H as (s3 & -> & H).
    apply single_line_app in Hs2 as [_ Hs3].
    cbn [match_here] in H. rewrite andb_true_r in H.
    apply at_eol_single_line in H as ->; [|assumption].
    exists pre, m. now rewrite app_nil_r.
  - intros (pre & m & -> & Hm). apply search_from_intro.
    cbn [match_here]. apply match_here_lits.
    eexists. split; [reflexivity|]. cbn [app].
    apply nonsep_star_matches. exists m, v. repeat split; auto.
    apply match_here_lits. exists []. split; [now rewrite app_nil_r | reflexivity].
Qed.

(** C2, as the program has it. A rule that is not a negation, compiled with
    a trailing [/] or not, matches by the text of the relative path alone and
    never looks at the directory hint, supplied or probed; so the rule of
    [name/] matches the candidate [name] of the base directory, directory or
    plain file. *)
Theorem directory_pattern_matches_by_text_alone :
  (forall (fs : FileSystem) (line : str) (base : Path) (source : Path * nat)
          (rule : IgnoreRule) (candidate : Path) (hint hint' : option bool),
      rule_from_pattern line base source = Ok (Some rule) ->
      negation rule = false ->
      IgnoreRule_match fs rule candidate hint =
      IgnoreRule_match fs rule candidate hint')
  /\ (forall (fs : FileSystem) (name : str) (base : Path) (source : Path * nat)
             (candidate : Path) (hint : option bool),
        is_absolute base = true ->
        plain_name name ->
        fs_resolve fs candidate = Some (mkPath (root base) (parts base ++ [name])) ->
        exists rule,
          rule_from_pattern (name ++ lit "/") base source = Ok (Some rule)
          /\ directory_only rule = true
          /\ negation rule = false
          /\ IgnoreRule_match fs rule candidate hint = Ok true).
Proof.
  split.
  - intros fs line base source rule candidate hint hint' _ Hneg.
    now apply match_ignores_hint.
  - intros fs name base source candidate hint Habs Hname Hres.
    eexists. split; [now apply rule_of_directory_pattern|].
    split; [reflexivity|]. split; [reflexivity|].
    rewrite (@match_below_base _ _ _ _ [name]); auto.
    + cbn [regex Py.join]. f_equal.
      apply (@search_from_intro _ [] _ None).
      cbn [match_here after]. rewrite <- (app_nil_r name) at 2.
      apply match_here_lits. now exists [].
    + cbn [regex compiles forallb piece_ok andb].
      fold (compiles (map Lit name ++ [EolOrSlash])).
      now rewrite compiles_app, compiles_lits.
Qed.

Lemma directory_pattern_matches_by_text_alone_witness :
  IgnoreRule_match demo_fs (demo_rule "out/")
    (Path_of_str (lit "/repo/out")) (Some false) = Ok true.
Proof.
  destruct directory_pattern_matches_by_text_alone as [Hhint Hname].
  destruct (Hname demo_fs (lit "out") repo
              (Path_of_str (lit "/repo/.gitignore"), 1)
              (Path_of_str (lit "/repo/out")) None eq_refl)
    as (rule & Hc & _ & Hneg & Hm).
  - split; [discriminate | reflexivity].
  - reflexivity.
  - assert (E : rule = demo_rule "out/").
    { vm_compute in Hc. injection Hc as <-. reflexivity. }
    rewrite <- E.
    rewrite (Hhint demo_fs _ _ _ rule _ (Some false) None Hc Hneg).
    exact Hm.
Defined.

(** C2, as stated, fails: the rule of [out/] is directory-only and not a
    negation, [/repo/out] is a plain file, and the rule of
    [out/] reports it as matched, with the hint "not a directory" and with
    the probe alike. *)
Lemma directory_only_rule_matches_a_plain_file :
  directory_only (demo_rule "out/") = true
  /\ negation (demo_rule "out/") = false
  /\ fs_is_dir demo_fs (Path_of_str (lit "/repo/out")) = false
  /\ IgnoreRule_match demo_fs (demo_rule "out/")
       (Path_of_str (lit "/repo/out")) (Some false) = Ok true
  /\ IgnoreRule_match demo_fs (demo_rule "out/")
       (Path_of_str (lit "/repo/out")) None = Ok true
  /\ handle_negation demo_fs [demo_rule "out/"] (StrObj (lit "/repo/out")) = Ok true.
Proof. repeat split; vm_compute; reflexivity. Qed.

(** C3, as the program has it. [**] followed by [/] is consumed whole and
    compiles to [.*] and an optional separator: any text at all may stand in
    its place, whole segments or not. The rule of [u/**/v], for plain names
    [u] and [v] such as [a] and [b], matches a single-line relative path
    exactly when it begins with [u/] and ends, after that, with [v]. *)
Theorem double_asterisk_slash_matches_any_text :
  (forall (pattern : str) (i : nat) (res : Re.regex) (rest : str),
      skipn i pattern = lit "**/" ++ rest ->
      fnmatch_step pattern i res = Ok (i + 3, res ++ [AnyStar; SepOpt]))
  /\ (forall (fs : FileSystem) (u v : str) (base : Path) (source : Path * nat)
             (candidate resolved : Path) (hint : option bool)
             (rel_path_parts : list str),
        is_absolute base = true ->
        plain_name u -> plain_name v ->
        fs_resolve fs candidate = Some resolved ->
        relative_to resolved base = Some rel_path_parts ->
        single_line (Py.join [os_sep] rel_path_parts) ->
        exists rule,
          rule_from_pattern (u ++ lit "/**/" ++ v) base source = Ok (Some rule)
          /\ (IgnoreRule_match fs rule candidate hint = Ok true <->
              exists t, Py.join [os_sep] rel_path_parts
                        = u ++ lit "/" ++ t ++ v)).
Proof.
  split; [exact fnmatch_step_double_asterisk_slash|].
  intros fs u v base source candidate resolved hint rel_path_parts
         Habs Hu Hv Hres Hrel Hsl.
  eexists. split; [now apply rule_of_double_asterisk_between|].
  rewrite (@match_relative _ _ _ resolved _ rel_path_parts); auto.
  - cbn [regex]. rewrite Ok_true_iff. now apply search_double_asterisk_between.
  - cbn [regex compiles forallb piece_ok andb].
    fold (compiles (map Lit u ++ [Sep; AnyStar; SepOpt] ++ map Lit v ++ [Eol])).
    rewrite compiles_app, compiles_lits.
    change ([Sep; AnyStar; SepOpt] ++ map Lit v ++ [Eol])
      with ([Sep; AnyStar; SepOpt] ++ (map Lit v ++ [Eol])).
    now rewrite !compiles_app, compiles_lits.
Qed.

Lemma double_asterisk_slash_matches_any_text_witness :
  fnmatch_step (lit "a/**/b") 2 [Lit "a"; Sep] =
    Ok (5, [Lit "a"; Sep; AnyStar; SepOpt])
  /\ IgnoreRule_match demo_fs (demo_rule "a/**/b")
       (Path_of_str (lit "/repo/a/x/y/b")) None = Ok true.
Proof.
  destruct double_asterisk_slash_matches_any_text as [Hstep Hrule]. split.
  - apply (Hstep (lit "a/**/b") 2 [Lit "a"; Sep] (lit "b")). reflexivity.
  - destruct (Hrule demo_fs (lit "a") (lit "b") repo
                (Path_of_str (lit "/repo/.gitignore"), 1)
                (Path_of_str (lit "/repo/a/x/y/b"))
                (Path_of_str (lit "/repo/a/x/y/b")) None
                [lit "a"; lit "x"; lit "y"; lit "b"]
                eq_refl)
      as (rule & Hcompile & Hmatch).
    + split; [discriminate | reflexivity].
    + split; [discriminate | reflexivity].
    + reflexivity.
    + reflexivity.
    + vm_compute. intros H.
      repeat (destruct H as [H|H]; [discriminate H|]). exact H.
    + assert (E : rule = demo_rule "a/**/b").
      { vm_compute in Hcompile. injection Hcompile as <-. reflexivity. }
      rewrite <- E. apply Hmatch. exists (lit "x/y/"). reflexivity.
Defined.

(** C3, as stated, fails: [a/xb] is matched by the rule of [a/**/b], though
    [x] is no whole segment ended by a separator. *)
Lemma double_asterisk_slash_matches_a_partial_segment :
  IgnoreRule_match demo_fs (demo_rule "a/**/b")
                   (Path_of_str (lit "/repo/a/xb")) None = Ok true
  /\ handle_negation demo_fs [demo_rule "a/**/b"] (StrObj (lit "/repo/a/xb"))
     = Ok true.
Proof. split; vm_compute; reflexivity. Qed.

(** C4. A lone [*] compiles to [[^/]*], whose match holds no separator, so
    that the rule of [u*v] matches a single-line relative path exactly when
    it ends with [u], then a stretch without separator, then [v]; the rule of
    [**/x] matches [x] at any depth below the base directory, the base
    directory itself included; the rule of [a/**] matches every path below
    the directory [a]. Here [u] and [v] are plain texts, [x] and [a] plain
    names. *)
Theorem asterisks_respect_path_segments :
  (forall (pattern : str) (i : nat) (res : Re.regex),
      nth_error pattern i = Some "*"%char ->
      nth_error pattern (i + 1) <> Some "*"%char ->
      fnmatch_step pattern i res = Ok (i + 1, res ++ [NonsepStar]))
  /\ (forall (re : Re.regex) (prev : option ascii) (s : str),
        match_here (NonsepStar :: re) prev s = true <->
        exists m s', s = m ++ s' /\ ~ In os_sep m /\
                     match_here re (after prev m) s' = true)
  /\ (forall (fs : FileSystem) (u v : str) (base : Path) (source : Path * nat)
             (candidate resolved : Path) (hint : option bool)
             (rel_path_parts : list str),
        is_absolute base = true ->
        plain u -> plain v ->
        fs_resolve fs candidate = Some resolved ->
        relative_to resolved base = Some rel_path_parts ->
        single_line (Py.join [os_sep] rel_path_parts) ->
        exists rule,
          rule_from_pattern (u ++ lit "*" ++ v) base source = Ok (Some rule)
          /\ (IgnoreRule_match fs rule candidate hint = Ok true <->
              exists pre m, Py.join [os_sep] rel_path_parts = pre ++ u ++ m ++ v
                            /\ ~ In os_sep m))
  /\ (forall (fs : FileSystem) (x : str) (base : Path) (source : Path * nat)
             (candidate : Path) (hint : option bool) (dirs : list str),
        is_absolute base = true ->
        plain_name x ->
        fs_resolve fs candidate =
          Some (mkPath (root base) (parts base ++ dirs ++ [x])) ->
        exists rule,
          rule_from_pattern (lit "**/" ++ x) base source = Ok (Some rule)
          /\ IgnoreRule_match fs rule candidate hint = Ok true)
  /\ (forall (fs : FileSystem) (a : str) (base : Path) (source : Path * nat)
             (candidate : Path) (hint : option bool) (below : list str),
        is_absolute base = true ->
        plain_name a ->
        below <> [] ->
        fs_resolve fs candidate =
          Some (mkPath (root base) (parts base ++ a :: below)) ->
        exists rule,
          rule_from_pattern (a ++ lit "/**") base source = Ok (Some rule)
          /\ IgnoreRule_match fs rule candidate hint = Ok true).
Proof.
  split; [exact fnmatch_step_single_asterisk|].
  split; [exact nonsep_star_matches|].
  split; [|split].
  - intros fs u v base source candidate resolved hint rel_path_parts
           Habs Hu Hv Hres Hrel Hsl.
    eexists. split; [now apply rule_of_single_asterisk_pattern|].
    rewrite (@match_relative _ _ _ resolved _ rel_path_parts); auto.
    + cbn [regex]. rewrite Ok_true_iff. now apply search_single_asterisk.
    + cbn [regex compiles forallb piece_ok andb].
      fold (compiles (map Lit u ++ [NonsepStar] ++ map Lit v ++ [Eol])).
      rewrite compiles_app, compiles_lits.
      change ([NonsepStar] ++ map Lit v ++ [Eol])
        with ([NonsepStar] ++ (map Lit v ++ [Eol])).
      now rewrite !compiles_app, compiles_lits.
  - intros fs x base source candidate hint dirs Habs Hx Hres.
    eexists. split; [now apply rule_of_any_depth_pattern|].
    rewrite (@match_below_base _ _ _ _ (dirs ++ [x])); auto.
    + cbn [regex]. f_equal.
      destruct (join_snoc [os_sep] dirs x) as [pre ->].
      apply search_from_intro. cbn [match_here].
      apply match_here_lits. exists []. split; [now rewrite app_nil_r | reflexivity].
    + cbn [regex compiles forallb piece_ok andb].
      fold (compiles (map Lit x ++ [Eol])).
      now rewrite compiles_app, compiles_lits.
  - intros fs a base source candidate hint below Habs Ha Hbelow Hres.
    eexists. split; [now apply rule_of_everything_below_pattern|].
    rewrite (@match_below_base _ _ _ _ (a :: below)); auto.
    + cbn [regex]. f_equal. rewrite (join_cons _ _ Hbelow).
      apply (@search_from_intro _ [] _ None).
      cbn [match_here after at_bol andb]. apply match_here_lits.
      eexists. split; [reflexivity|].
      cbn [app match_here]. apply one_iff.
      eexists _, _. split; [reflexivity|]. split; [reflexivity|].
      rewrite <- (app_nil_r (Py.join _ below)).
      apply star_intro; [apply forallb_any | reflexivity].
    + cbn [regex compiles forallb piece_ok andb].
      fold (compiles (map Lit a ++ [Sep; AnyStar; NonsepStar; Eol])).
      now rewrite compiles_app, compiles_lits.
Qed.

Lemma asterisks_respect_path_segments_witness :
  fnmatch_step (lit "*.txt") 0 [] = Ok (1, [NonsepStar])
  /\ IgnoreRule_match demo_fs (demo_rule "*.txt")
       (Path_of_str (lit "/repo/doc/notes.txt")) None = Ok true
  /\ IgnoreRule_match demo_fs (demo_rule "**/x")
       (Path_of_str (lit "/repo/x")) None = Ok true
  /\ IgnoreRule_match demo_fs (demo_rule "**/x")
       (Path_of_str (lit "/repo/p/q/x")) None = Ok true
  /\ IgnoreRule_match demo_fs (demo_rule "a/**")
       (Path_of_str (lit "/repo/a/p/q.txt")) None = Ok true.
Proof.
  destruct asterisks_respect_path_segments as (Hstep & _ & Hstar & Hx & Ha).
  assert (Habs : is_absolute repo = true) by reflexivity.
  assert (Hplain : forall s, s <> [] -> forallb plain_char s = true -> plain_name s)
    by (intros s ? ?; now split).
  split; [|split; [|split; [|split]]].
  - apply (Hstep (lit "*.txt") 0 []); [reflexivity | discriminate].
  - destruct (Hstar demo_fs [] (lit ".txt") repo
                (Path_of_str (lit "/repo/.gitignore"), 1)
                (Path_of_str (lit "/repo/doc/notes.txt"))
                (Path_of_str (lit "/repo/doc/notes.txt")) None
                [lit "doc"; lit "notes.txt"] Habs eq_refl eq_refl eq_refl eq_refl)
      as (rule & Hc & Hm).
    + vm_compute. intros H.
      repeat (destruct H as [H|H]; [discriminate H|]). exact H.
    + vm_compute in Hc. injection Hc as <-. apply Hm.
      exists (lit "doc/"), (lit "notes"). split; [reflexivity|].
      vm_compute. intros H.
      repeat (destruct H as [H|H]; [discriminate H|]). exact H.
  - destruct (Hx demo_fs (lit "x") repo (Path_of_str (lit "/repo/.gitignore"), 1)
                (Path_of_str (lit "/repo/x")) None []
                Habs (Hplain (lit "x") ltac:(discriminate) eq_refl) eq_refl)
      as (rule & Hc & Hm).
    vm_compute in Hc. injection Hc as <-. exact Hm.
  - destruct (Hx demo_fs (lit "x") repo (Path_of_str (lit "/repo/.gitignore"), 1)
                (Path_of_str (lit "/repo/p/q/x")) None [lit "p"; lit "q"]
                Habs (Hplain (lit "x") ltac:(discriminate) eq_refl) eq_refl)
      as (rule & Hc & Hm).
    vm_compute in Hc. injection Hc as <-. exact Hm.
  - destruct (Ha demo_fs (lit "a") repo (Path_of_str (lit "/repo/.gitignore"), 1)
                (Path_of_str (lit "/repo/a/p/q.txt")) None
                [lit "p"; lit "q.txt"] Habs (Hplain (lit "a") ltac:(discriminate) eq_refl)
                ltac:(discriminate) eq_refl)
      as (rule & Hc & Hm).
    vm_compute in Hc. injection Hc as <-. exact Hm.
Defined.

(** * Further properties of the program *)

(** ** Cutting a prefix or a suffix *)

Lemma startswith_split (s m : str) :
  Py.startswith s m = true -> s = m ++ skipn (length m) s.
Proof.
  revert s. induction m as [|a m IH]; intros s H; [reflexivity|].
  destruct s as [|b s]; [discriminate H|]. simpl in H.
  apply andb_true_iff in H as [Hab Hs]. apply Ascii.eqb_eq in Hab as ->.
  simpl. f_equal. now apply IH.
Qed.

Lemma startswith_length (s m : str) :
  Py.startswith s m = true -> length m <= length s.
Proof.
  intros H. rewrite (startswith_split _ _ H) at 1. rewrite length_app. lia.
Qed.

(** X1. What [str_lcut] returns puts the string back: the rest after the
    prefix when it reports a cut, the string itself when it does not; and a
    string that begins with the prefix is always cut. *)
Theorem str_lcut_puts_back :
  forall s m : str,
    s = (if snd (str_lcut s m) then m else []) ++ fst (str_lcut s m)
    /\ str_lcut (m ++ s) m = (s, true).
Proof.
  intros s m. split.
  - unfold str_lcut. destruct (Py.startswith s m) eqn:E; [|reflexivity].
    cbn [fst snd]. now apply startswith_split.
  - unfold str_lcut. rewrite startswith_app. unfold Py.slice_from.
    f_equal. induction m; simpl; auto.
Qed.

(** X2. [str_rcut], for a suffix that is not empty, likewise: the part before
    the suffix when it reports a cut, the string itself when it does not; and
    a string that ends with the suffix is always cut. (With the empty suffix
    Python's [s[:-0]] is the empty string; the program cuts ["/"] and a
    backslash only.) *)
Theorem str_rcut_puts_back :
  forall s m : str,
    m <> [] ->
    s = fst (str_rcut s m) ++ (if snd (str_rcut s m) then m else [])
    /\ str_rcut (s ++ m) m = (s, true).
Proof.
  intros s m _. split.
  - unfold str_rcut, Py.endswith, Py.slice_to_minus.
    destruct (Py.startswith (rev s) (rev m)) eqn:E; cbn [fst snd];
      [|now rewrite app_nil_r].
    pose proof (startswith_length _ _ E) as Hlen. rewrite !length_rev in Hlen.
    apply startswith_split in E. rewrite length_rev in E.
    apply (f_equal (@rev ascii)) in E.
    rewrite rev_involutive, rev_app_distr, rev_involutive in E.
    rewrite E at 1. f_equal.
    now rewrite skipn_rev, rev_involutive.
  - unfold str_rcut, Py.endswith, Py.slice_to_minus.
    rewrite rev_app_distr, startswith_app, length_app.
    replace (length s + length m - length m) with (length s) by lia.
    now rewrite firstn_app, Nat.sub_diag, firstn_all, firstn_O, app_nil_r.
Qed.

Lemma str_rcut_puts_back_witness :
  str_rcut (lit "build/") (lit "/") = (lit "build", true).
Proof.
  apply (proj2 (@str_rcut_puts_back (lit "build") (lit "/") ltac:(discriminate))).
Defined.

(** ** The decision of a rule set *)

Section Decision.

Variable fs : FileSystem.
Variable file_path : Path.
Variable is_dir : option bool.

Let hits (r : IgnoreRule) : Prop :=
  IgnoreRule_match fs r file_path is_dir = Ok true.

Let misses (r : IgnoreRule) : Prop :=
  IgnoreRule_match fs r file_path is_dir = Ok false.

(** The walk decides [b]: no rule was met, or the first rule met that
    matches gives [b]. *)
Lemma first_match_inv (l : list IgnoreRule) (b : bool) :
  first_match fs l file_path is_dir = Ok b ->
  (b = false /\ Forall misses l)
  \/ exists l1 r l2, l = l1 ++ r :: l2 /\ Forall misses l1 /\ hits r
                      /\ b = negb (negation r).
Proof.
  induction l as [|r l IH]; simpl.
  - intros H. injection H as <-. left. now split.
  - destruct (IgnoreRule_match fs r file_path is_dir) as [[|]|] eqn:E;
      cbn [bind]; [| |discriminate].
    + intros H. injection H as <-. right. exists [], r, l. repeat split; auto.
    + intros H. destruct (IH H) as [[-> Hall]|(l1 & r' & l2 & -> & H1 & Hr & ->)].
      * left. split; [reflexivity|]. now constructor.
      * right. exists (r :: l1), r', l2. repeat split; auto.
Qed.

Lemma first_match_app_miss (l1 l2 : list IgnoreRule) :
  Forall misses l1 ->
  first_match fs (l1 ++ l2) file_path is_dir = first_match fs l2 file_path is_dir.
Proof.
  induction 1 as [|r l Hr _ IH]; simpl; [reflexivity|].
  unfold misses in Hr. now rewrite Hr.
Qed.

Lemma first_match_app_decided (l1 l2 : list IgnoreRule) (b : bool) :
  (exists r, In r l1 /\ hits r) ->
  first_match fs l1 file_path is_dir = Ok b ->
  first_match fs (l1 ++ l2) file_path is_dir = Ok b.
Proof.
  intros (r0 & Hin & Hhit) H.
  destruct (first_match_inv _ H) as [[_ Hall]|(a & r & c & -> & Ha & Hr & ->)].
  - exfalso. rewrite Forall_forall in Hall. specialize (Hall _ Hin).
    unfold hits, misses in *. congruence.
  - rewrite <- app_assoc. cbn [app]. rewrite first_match_app_miss by exact Ha.
    simpl. unfold hits in Hr. now rewrite Hr.
Qed.

End Decision.

Lemma handle_negation_inv :
  forall (fs : FileSystem) (rules : list IgnoreRule) (candidate : pyobj)
         (b : bool),
    handle_negation fs rules candidate = Ok b ->
    exists file_path is_dir,
      file_path_and_hint candidate = Ok (file_path, is_dir)
      /\ ((b = false
           /\ Forall (fun r => IgnoreRule_match fs r file_path is_dir = Ok false)
                     rules)
          \/ exists pre rule post,
               rules = pre ++ rule :: post
               /\ Forall (fun r => IgnoreRule_match fs r file_path is_dir
                                   = Ok false) post
               /\ IgnoreRule_match fs rule file_path is_dir = Ok true
               /\ b = negb (negation rule)).
Proof.
  intros fs rules candidate b. unfold handle_negation.
  destruct (file_path_and_hint candidate) as [[file_path is_dir]|]; cbn [bind];
    [|discriminate].
  cbn [fst snd]. intros H. exists file_path, is_dir. split; [reflexivity|].
  destruct (first_match_inv _ _ _ _ H)
    as [[-> Hall]|(l1 & r & l2 & E & H1 & Hr & ->)].
  - left. split; [reflexivity|]. apply Forall_rev in Hall.
    now rewrite rev_involutive in Hall.
  - right. exists (rev l2), r, (rev l1).
    apply (f_equal (@rev IgnoreRule)) in E.
    rewrite rev_involutive, rev_app_distr in E. cbn [rev] in E.
    rewrite <- app_assoc in E. repeat split; auto. now apply Forall_rev.
Qed.

(** X3. Whatever [handle_negation] returns is the verdict of one rule: when
    it returns a decision, either no rule matched and the decision is "not
    ignored", or some rule matched, no rule declared after it did, and the
    decision is "ignored" exactly when that rule is not a negation. *)
Theorem handle_negation_decision_comes_from_a_rule :
  forall (fs : FileSystem) (rules : list IgnoreRule) (candidate : pyobj)
         (b : bool),
    handle_negation fs rules candidate = Ok b ->
    exists file_path is_dir,
      file_path_and_hint candidate = Ok (file_path, is_dir)
      /\ ((b = false
           /\ Forall (fun r => IgnoreRule_match fs r file_path is_dir = Ok false)
                     rules)
          \/ exists pre rule post,
               rules = pre ++ rule :: post
               /\ Forall (fun r => IgnoreRule_match fs r file_path is_dir
                                   = Ok false) post
               /\ IgnoreRule_match fs rule file_path is_dir = Ok true
               /\ b = negb (negation rule)).
Proof. exact handle_negation_inv. Qed.

Lemma handle_negation_decision_comes_from_a_rule_witness :
  exists pre rule post,
    [demo_rule "*.txt"; demo_rule "!keep.txt"] = pre ++ rule :: post
    /\ negation rule = true.
Proof.
  destruct (@handle_negation_decision_comes_from_a_rule demo_fs
              [demo_rule "*.txt"; demo_rule "!keep.txt"]
              (StrObj (lit "/repo/keep.txt")) false)
    as (fp & d & Harg & [[_ Hall]|(pre & rule & post & E & _ & Hhit & Hb)]).
  - vm_compute. reflexivity.
  - exfalso. injection Harg as <- <-.
    inversion Hall as [|? ? H1 _]. vm_compute in H1. discriminate H1.
  - exists pre, rule, post. split; [exact E|].
    destruct (negation rule); [reflexivity | discriminate Hb].
Defined.

(** X4. Negations alone ignore nothing: under a rule set in which every
    rule is a negation, no candidate is reported as ignored. *)
Theorem negations_alone_ignore_nothing :
  forall (fs : FileSystem) (rules : list IgnoreRule) (candidate : pyobj),
    Forall (fun r => negation r = true) rules ->
    handle_negation fs rules candidate <> Ok true.
Proof.
  intros fs rules candidate Hneg H.
  apply handle_negation_inv in H as (fp & d & _ & H).
  destruct H as [[H _]|(pre & rule & post & -> & _ & _ & Hb)]; [discriminate|].
  rewrite Forall_forall in Hneg.
  rewrite (Hneg rule) in Hb by (apply in_or_app; right; now left).
  discriminate.
Qed.

Lemma negations_alone_ignore_nothing_witness :
  handle_negation demo_fs [demo_rule "!keep.txt"; demo_rule "!*.md"]
                  (StrObj (lit "/repo/keep.txt")) = Ok false.
Proof.
  assert (Hneg : Forall (fun r => negation r = true)
                         [demo_rule "!keep.txt"; demo_rule "!*.md"])
    by (repeat constructor).
  pose proof (@negations_alone_ignore_nothing demo_fs
                [demo_rule "!keep.txt"; demo_rule "!*.md"]
                (StrObj (lit "/repo/keep.txt")) Hneg) as H.
  destruct (handle_negation demo_fs [demo_rule "!keep.txt"; demo_rule "!*.md"]
              (StrObj (lit "/repo/keep.txt"))) as [[|]|e] eqn:E.
  - now contradiction H.
  - reflexivity.
  - vm_compute in E. discriminate E.
Defined.

Lemma match_outside (fs : FileSystem) (r : IgnoreRule) (p : Path)
  (d : option bool) :
  outside fs p (base_path r) -> IgnoreRule_match fs r p d = Ok false.
Proof.
  intros H. unfold IgnoreRule_match.
  destruct (fs_resolve fs p) as [q|] eqn:E; [|reflexivity].
  now rewrite (H q E).
Qed.

(** X5. Once the first lines of [handle_negation] have given the path and
    the hint of the candidate (it is a path, or a string that is not empty),
    and with a directory probe that answers: a candidate that lies below the
    base directory of no rule, or that cannot be resolved, is not ignored,
    and no regular expression is used for it, so that a rule whose regular
    expression does not compile raises nothing either. *)
Theorem candidate_outside_every_base_is_not_ignored :
  forall (fs : FileSystem) (rules : list IgnoreRule) (candidate : pyobj)
         (file_path : Path) (is_dir : option bool),
    file_path_and_hint candidate = Ok (file_path, is_dir) ->
    Forall (fun r => outside fs file_path (base_path r)) rules ->
    handle_negation fs rules candidate = Ok false.
Proof.
  intros fs rules candidate file_path is_dir Harg Hout.
  unfold handle_negation. rewrite Harg. cbn [bind fst snd].
  apply first_match_all_miss. apply Forall_rev.
  eapply Forall_impl; [|exact Hout]. intros r Hr. now apply match_outside.
Qed.

Lemma candidate_outside_every_base_is_not_ignored_witness :
  handle_negation demo_fs [demo_rule "[z-a]"; demo_rule "*"]
                  (StrObj (lit "/elsewhere/notes.txt")) = Ok false.
Proof.
  apply (@candidate_outside_every_base_is_not_ignored demo_fs
           [demo_rule "[z-a]"; demo_rule "*"]
           (StrObj (lit "/elsewhere/notes.txt"))
           (Path_of_str (lit "/elsewhere/notes.txt")) (Some false) eq_refl).
  repeat constructor; intros q Hq; injection Hq as <-; reflexivity.
Defined.

(** X6. Rules declared later take precedence as a block: when no rule of the
    later block matches, the decision is that of the earlier rules alone; when
    some rule of the later block matches and the block decides, the earlier
    rules are not looked at. *)
Theorem later_rules_override_earlier_ones :
  forall (fs : FileSystem) (earlier later : list IgnoreRule) (candidate : pyobj)
         (file_path : Path) (is_dir : option bool),
    file_path_and_hint candidate = Ok (file_path, is_dir) ->
    (Forall (fun r => IgnoreRule_match fs r file_path is_dir = Ok false) later ->
     handle_negation fs (earlier ++ later) candidate =
     handle_negation fs earlier candidate)
    /\ (forall b,
          (exists r, In r later
                     /\ IgnoreRule_match fs r file_path is_dir = Ok true) ->
          handle_negation fs later candidate = Ok b ->
          handle_negation fs (earlier ++ later) candidate = Ok b).
Proof.
  intros fs earlier later candidate file_path is_dir Harg.
  unfold handle_negation. rewrite Harg. cbn [bind fst snd].
  rewrite rev_app_distr. split.
  - intros Hmiss. apply first_match_app_miss. now apply Forall_rev.
  - intros b (r & Hin & Hhit) H. apply first_match_app_decided; [|exact H].
    exists r. split; [now apply in_rev in Hin | exact Hhit].
Qed.

Lemma later_rules_override_earlier_ones_witness :
  handle_negation demo_fs ([demo_rule "[z-a]"; demo_rule "*.txt"]
                           ++ [demo_rule "!keep.txt"])
                  (StrObj (lit "/repo/keep.txt")) = Ok false.
Proof.
  apply (proj2 (@later_rules_override_earlier_ones demo_fs
                  [demo_rule "[z-a]"; demo_rule "*.txt"] [demo_rule "!keep.txt"]
                  (StrObj (lit "/repo/keep.txt"))
                  (Path_of_str (lit "/repo/keep.txt")) (Some false) eq_refl)).
  - exists (demo_rule "!keep.txt"). split; [now left | vm_compute; reflexivity].
  - vm_compute. reflexivity.
Defined.

(** ** Compiling the lines of a file *)

Lemma parse_lines_app (fs : FileSystem) (full_path base_dir : Path)
  (l1 l2 : list str) :
  forall (lineno : nat) (rules : list IgnoreRule),
    parse_lines fs full_path base_dir lineno (l1 ++ l2) rules =
    (rs <- parse_lines fs full_path base_dir lineno l1 rules ;;
     parse_lines fs full_path base_dir (lineno + length l1) l2 rs).
Proof.
  induction l1 as [|line l1 IH]; intros lineno rules.
  - simpl. now rewrite Nat.add_0_r.
  - cbn [app parse_lines].
    destruct (fs_resolve fs base_dir) as [b|]; cbn [bind]; [|reflexivity].
    destruct (rule_from_pattern _ b _) as [rule|]; cbn [bind]; [|reflexivity].
    rewrite IH. cbn [length].
    now replace (lineno + 1 + length l1) with (lineno + S (length l1)) by lia.
Qed.

(** X7. The lines of an ignore file are compiled one after the other, each
    on its own: compiling [l1 ++ l2] is compiling [l1] and then [l2] with the
    line count carried on; an exception in [l1] is the exception of the
    whole. *)
Theorem parse_lines_composes :
  forall (fs : FileSystem) (full_path base_dir : Path) (l1 l2 : list str)
         (lineno : nat) (rules : list IgnoreRule),
    parse_lines fs full_path base_dir lineno (l1 ++ l2) rules =
    (rs <- parse_lines fs full_path base_dir lineno l1 rules ;;
     parse_lines fs full_path base_dir (lineno + length l1) l2 rs).
Proof. intros. apply parse_lines_app. Qed.

(** What a rule records of the line it comes from. *)
Lemma rule_fields (line : str) (base : Path) (src : Path * nat)
  (rule : IgnoreRule) :
  rule_from_pattern line base src = Ok (Some rule) ->
  pattern rule = line /\ base_path rule = base /\ source rule = src
  /\ is_absolute base = true
  /\ negation rule = Ascii.eqb (hd Ascii.zero line) "!"
  /\ directory_only rule = Ascii.eqb (last (without_bang line) Ascii.zero) "/"
  /\ Py.strip line <> []
  /\ Ascii.eqb (hd Ascii.zero line) "#" = false.
Proof.
  unfold rule_from_pattern, assert_absolute.
  destruct (is_absolute base) eqn:Habs; cbn [negb bind]; [|discriminate].
  destruct (str_eqb (Py.strip line) []) eqn:Eblank; cbn [bind]; [discriminate|].
  destruct line as [|c rest]; [discriminate Eblank|].
  rewrite getitem_0_cons. cbn [bind].
  destruct (Ascii.eqb c "#") eqn:Ehash; [discriminate|].
  destruct (-1 <? Py.find (c :: rest) (lit "***"))%Z; [discriminate|].
  rewrite without_bang_cons.
  destruct (double_asterisk_loop _ _) as [[|]|]; cbn [bind]; try discriminate.
  destruct (str_eqb (Py.rstrip _) (lit "/")); [discriminate|].
  destruct (Py.getitem (without_bang (c :: rest)) (-1)) as [d|] eqn:Elast;
    cbn [bind]; [|discriminate].
  assert (Hd : d = last (without_bang (c :: rest)) Ascii.zero).
  { destruct (without_bang (c :: rest)) as [|x l] eqn:E.
    - discriminate Elast.
    - rewrite getitem_last in Elast by discriminate. now injection Elast. }
  repeat match goal with
         | |- context [let '(_, _) := ?x in _] => destruct x
         end.
  destruct (fnmatch_pathname_to_regex _ _ _ _) as [re|]; cbn [bind];
    [|discriminate].
  intros H. injection H as <-. cbn [pattern base_path negation directory_only hd].
  subst d. apply str_eqb_neq in Eblank. repeat split; auto.
Qed.

(** X8. A compiled rule prints as the line it comes from, and keeps what the
    ends of the line say: it is a negation exactly when the line begins with
    [!], directory-only exactly when the pattern, the bang apart, ends with
    [/]; its base path is the absolute one it was given, and its source the
    one it was given. *)
Theorem compiled_rule_keeps_its_line :
  forall (line : str) (base : Path) (src : Path * nat) (rule : IgnoreRule),
    rule_from_pattern line base src = Ok (Some rule) ->
    IgnoreRule_str rule = line
    /\ IgnoreRule_repr rule = lit "IgnoreRule('" ++ line ++ lit "')"
    /\ negation rule = Ascii.eqb (hd Ascii.zero line) "!"
    /\ directory_only rule = Ascii.eqb (last (without_bang line) Ascii.zero) "/"
    /\ base_path rule = base
    /\ is_absolute (base_path rule) = true
    /\ source rule = src.
Proof.
  intros line base src rule H.
  destruct (rule_fields _ _ _ H) as (Hp & Hb & Hs & Habs & Hn & Hd & _ & _).
  unfold IgnoreRule_str, IgnoreRule_repr. rewrite Hp, Hb. repeat split; auto.
Qed.

Lemma compiled_rule_keeps_its_line_witness :
  IgnoreRule_repr (demo_rule "!build/") = lit "IgnoreRule('!build/')"
  /\ negation (demo_rule "!build/") = true
  /\ directory_only (demo_rule "!build/") = true.
Proof.
  destruct (@compiled_rule_keeps_its_line (lit "!build/") repo
              (Path_of_str (lit "/repo/.gitignore"), 1) (demo_rule "!build/")
              eq_refl) as (_ & Hrepr & Hneg & Hdir & _).
  repeat split; assumption.
Defined.

Lemma parse_lines_result (fs : FileSystem) (full_path base_dir : Path)
  (lines : list str) :
  forall (lineno : nat) (rules rs : list IgnoreRule),
    parse_lines fs full_path base_dir lineno lines rules = Ok rs ->
    exists new,
      rs = rules ++ new
      /\ Forall (read_from fs full_path base_dir lines lineno) new
      /\ StronglySorted (fun a b => lineno_of a < lineno_of b) new.
Proof.
  induction lines as [|line rest IH]; intros lineno rules rs H.
  - injection H as <-. exists []. rewrite app_nil_r. repeat constructor.
  - cbn [parse_lines] in H.
    destruct (fs_resolve fs base_dir) as [b|] eqn:Hres; cbn [bind] in H;
      [|discriminate].
    destruct (rule_from_pattern _ b _) as [o|] eqn:Hrule; cbn [bind] in H;
      [|discriminate].
    apply IH in H as (new' & -> & Hall & Hsorted).
    assert (Hshift : Forall (read_from fs full_path base_dir (line :: rest) lineno)
                            new').
    { eapply Forall_impl; [|exact Hall].
      intros r (Hk & Hp & Hf & Hb & Ha). unfold read_from. cbn [length].
      repeat split; auto; try lia.
      replace (lineno_of r - lineno - 1) with (S (lineno_of r - (lineno + 1) - 1))
        by lia.
      exact Hp. }
    destruct o as [r|].
    + destruct (rule_fields _ _ _ Hrule) as (Hp & Hb & Hs & Habs & _).
      exists (r :: new'). rewrite <- app_assoc. split; [reflexivity|].
      assert (Hr : lineno_of r = lineno + 1) by (unfold lineno_of; now rewrite Hs).
      split.
      * constructor; [|exact Hshift]. unfold read_from. rewrite Hr. cbn [length].
        replace (lineno + 1 - lineno - 1) with 0 by lia. cbn [nth].
        rewrite Hs, Hb. repeat split; auto; lia.
      * constructor; [exact Hsorted|].
        eapply Forall_impl; [|exact Hall]. intros r' (Hk & _). lia.
    + exists new'. repeat split; auto.
Qed.

(** X9. The rules [parse_gitignore] returns are in the order of the lines
    they were read from: their line numbers, counted from 1, grow strictly;
    the pattern of each is its line less the newline at its end, its source
    names the ignore file, and its base path is the resolved, absolute base
    directory. *)
Theorem parse_gitignore_rules_follow_the_lines :
  forall (fs : FileSystem) (_full_path : pyobj) (_base_dir : option pyobj)
         (full_path base_dir : Path) (ignore_file : list str)
         (rules : list IgnoreRule),
    Path_of _full_path = Ok full_path ->
    match _base_dir with
    | None => Ok (parent full_path)
    | Some d => Path_of d
    end = Ok base_dir ->
    parse_gitignore fs _full_path _base_dir ignore_file = Ok rules ->
    Forall (read_from fs full_path base_dir ignore_file 0) rules
    /\ StronglySorted (fun a b => lineno_of a < lineno_of b) rules.
Proof.
  intros fs _full_path _base_dir full_path base_dir ignore_file rules Hfp Hbd.
  unfold parse_gitignore. rewrite Hfp. cbn [bind]. rewrite Hbd. cbn [bind].
  intros H. apply parse_lines_result in H as (new & -> & Hall & Hsorted).
  now split.
Qed.

Lemma parse_gitignore_rules_follow_the_lines_witness :
  exists r1 r2,
    compile_at demo_fs (lit "/repo") ["*.txt"; "# kept"; "!keep.txt"]%string
      = Ok [r1; r2]
    /\ lineno_of r1 = 1 /\ lineno_of r2 = 3.
Proof.
  destruct (compile_at demo_fs (lit "/repo")
              ["*.txt"; "# kept"; "!keep.txt"]%string) as [rules|] eqn:E;
    [|vm_compute in E; discriminate E].
  destruct (@parse_gitignore_rules_follow_the_lines demo_fs
              (StrObj (lit "/repo/.gitignore")) None
              (Path_of_str (lit "/repo/.gitignore")) repo _ rules
              eq_refl eq_refl E) as [_ _].
  vm_compute in E. injection E as <-.
  eexists _, _. repeat split.
Defined.

Lemma parse_lines_returns (fs : FileSystem) (full_path base_dir base : Path)
  (lines : list str) :
  fs_resolve fs base_dir = Some base ->
  (forall l, In l lines -> Py.rstrip_chars [Re.newline] l <> lit "!") ->
  forall (lineno : nat) (rules : list IgnoreRule),
    exists rs, parse_lines fs full_path base_dir lineno lines rules = Ok rs.
Proof.
  intros Hres. pose proof (fs_resolve_absolute fs _ Hres) as Habs.
  induction lines as [|line rest IH]; intros Hok lineno rules; [now exists rules|].
  cbn [parse_lines]. rewrite Hres. cbn [bind].
  destruct (@rule_from_pattern_returns (Py.rstrip_chars [Re.newline] line) base
              (full_path, lineno + 1) Habs) as [o ->].
  - apply Hok. now left.
  - cbn [bind]. apply IH. intros l Hl. apply Hok. now right.
Qed.

Lemma parse_lines_raises (fs : FileSystem) (full_path base_dir base : Path)
  (lines : list str) :
  fs_resolve fs base_dir = Some base ->
  (exists l, In l lines /\ Py.rstrip_chars [Re.newline] l = lit "!") ->
  forall (lineno : nat) (rules : list IgnoreRule),
    parse_lines fs full_path base_dir lineno lines rules = Raise IndexError.
Proof.
  intros Hres. pose proof (fs_resolve_absolute fs _ Hres) as Habs.
  induction lines as [|line rest IH]; intros (l & Hin & Hl) lineno rules;
    [contradiction|].
  cbn [parse_lines]. rewrite Hres. cbn [bind].
  destruct (list_eq_dec ascii_dec (Py.rstrip_chars [Re.newline] line) (lit "!"))
    as [E|E].
  - rewrite E. now rewrite lone_bang_raises.
  - destruct (@rule_from_pattern_returns (Py.rstrip_chars [Re.newline] line) base
                (full_path, lineno + 1) Habs E) as [o ->].
    cbn [bind]. apply IH. destruct Hin as [->|Hin]; [contradiction|].
    now exists l.
Qed.

(** X10. With a base directory that resolves, [parse_gitignore] returns the
    rules of the file unless some line is a lone [!]: one such line, wherever
    it stands, makes the whole call raise [IndexError], and no other line
    makes it raise. *)
Theorem parse_gitignore_raises_only_on_a_lone_bang :
  forall (fs : FileSystem) (_full_path : pyobj) (_base_dir : option pyobj)
         (full_path base_dir base : Path) (ignore_file : list str),
    Path_of _full_path = Ok full_path ->
    match _base_dir with
    | None => Ok (parent full_path)
    | Some d => Path_of d
    end = Ok base_dir ->
    fs_resolve fs base_dir = Some base ->
    ((forall l, In l ignore_file -> Py.rstrip_chars [Re.newline] l <> lit "!") ->
     exists rules, parse_gitignore fs _full_path _base_dir ignore_file = Ok rules)
    /\ ((exists l, In l ignore_file /\ Py.rstrip_chars [Re.newline] l = lit "!") ->
        parse_gitignore fs _full_path _base_dir ignore_file = Raise IndexError).
Proof.
  intros fs _full_path _base_dir full_path base_dir base ignore_file Hfp Hbd Hres.
  unfold parse_gitignore. rewrite Hfp. cbn [bind]. rewrite Hbd. cbn [bind].
  split; intros H.
  - eapply parse_lines_returns; eauto.
  - eapply parse_lines_raises; eauto.
Qed.

Lemma parse_gitignore_raises_only_on_a_lone_bang_witness :
  compile_at demo_fs (lit "/repo") ["*.txt"; "!"; "*.md"]%string
  = Raise IndexError.
Proof.
  apply (proj2 (@parse_gitignore_raises_only_on_a_lone_bang demo_fs
                  (StrObj (lit "/repo/.gitignore")) None
                  (Path_of_str (lit "/repo/.gitignore")) repo repo
                  (map (fun l => lit l ++ [Re.newline])
                       ["*.txt"; "!"; "*.md"]%string)
                  eq_refl eq_refl eq_refl)).
  exists (lit "!" ++ [Re.newline]). split; [right; now left | reflexivity].
Defined.

(** ** The shape of the regular expression *)

Lemma fnmatch_step_appends (pattern : str) (i i' : nat) (res res' : Re.regex) :
  fnmatch_step pattern i res = Ok (i', res') ->
  exists new, res' = res ++ new /\ forallb glob_piece new = true.
Proof.
  unfold fnmatch_step.
  destruct (Py.getitem pattern (Z.of_nat i)) as [c|]; cbn [bind]; [|discriminate].
  destruct (Ascii.eqb c "*").
  { destruct (nth_error pattern (i + 1)) as [c1|].
    - destruct (Ascii.eqb c1 "*").
      + destruct (nth_error pattern (i + 1 + 1)) as [c2|].
        * destruct (Ascii.eqb c2 "/"); intros H; injection H as <- <-.
          -- exists [AnyStar; SepOpt]. now rewrite <- app_assoc.
          -- now exists [AnyStar].
        * intros H. injection H as <- <-.
          exists [AnyStar; NonsepStar]. now rewrite <- app_assoc.
      + intros H. injection H as <- <-. now exists [NonsepStar].
    - intros H. injection H as <- <-. now exists [NonsepStar]. }
  destruct (Ascii.eqb c "?"); [intros H; injection H as <- <-; now exists [Nonsep]|].
  destruct (Ascii.eqb c "/"); [intros H; injection H as <- <-; now exists [Sep]|].
  destruct (Ascii.eqb c "[");
    [|intros H; injection H as <- <-; now exists [Lit c]].
  cbv zeta.
  destruct (length pattern <=? _);
    [intros H; injection H as <- <-; now exists [LBracket]|].
  destruct (Py.getitem _ 0) as [c0|]; cbn [bind]; [|discriminate].
  intros H. injection H as <- <-. eexists [Class _]. split; reflexivity.
Qed.

Lemma fnmatch_loop_appends (fuel : nat) (pattern : str) :
  forall (i : nat) (res body : Re.regex),
    fnmatch_loop fuel pattern i res = Ok body ->
    exists new, body = res ++ new /\ forallb glob_piece new = true.
Proof.
  induction fuel as [|fuel IH]; intros i res body; cbn [fnmatch_loop].
  - intros H. injection H as <-. exists []. now rewrite app_nil_r.
  - destruct (i <? length pattern).
    + destruct (fnmatch_step pattern i res) as [[i' res']|] eqn:E; cbn [bind];
        [|discriminate].
      cbn [fst snd]. intros H.
      apply fnmatch_step_appends in E as (new1 & -> & H1).
      apply IH in H as (new2 & -> & H2).
      exists (new1 ++ new2). rewrite <- app_assoc. split; [reflexivity|].
      now rewrite forallb_app, H1, H2.
    + intros H. injection H as <-. exists []. now rewrite app_nil_r.
Qed.

(** X11. [fnmatch_pathname_to_regex] never raises, and its result has one
    shape: [(?ms)], then [^] exactly when the pattern is anchored, then the
    pieces of the glob, which depend on the pattern alone, then one closing
    piece: [$] when the pattern is not directory-only, [/$] when it is and is
    a negation, [($|\/)] when it is and is not. *)
Theorem fnmatch_pathname_to_regex_shape :
  forall pattern : str,
    exists body : Re.regex,
      forallb glob_piece body = true
      /\ forall directory_only negation anchored : bool,
           fnmatch_pathname_to_regex pattern directory_only negation anchored
           = Ok (Flags :: (if anchored then [Bol] else []) ++ body
                   ++ [closing_piece directory_only negation]).
Proof.
  intros pattern.
  destruct (fnmatch_loop_returns (length pattern) pattern 0 []) as [body Hbody].
  exists body. split.
  - apply fnmatch_loop_appends in Hbody as (new & -> & H). exact H.
  - intros d n a. unfold fnmatch_pathname_to_regex, closing_piece.
    rewrite Hbody. cbn [bind].
    destruct a, d, n; reflexivity.
Qed.

(** ** Lines from which nothing is cut *)

Lemma contains_cons_false (x c : ascii) (s : str) :
  Py.contains x (c :: s) = false ->
  Ascii.eqb c x = false /\ Py.contains x s = false.
Proof.
  unfold Py.contains. simpl. rewrite orb_false_iff, (Ascii.eqb_sym x c). tauto.
Qed.

Lemma has_triple_without_asterisk (s : str) :
  Py.contains "*" s = false -> has_triple s = false.
Proof.
  induction s as [|c s IH]; intros H; [reflexivity|].
  apply contains_cons_false in H as [Hc Hs].
  now rewrite has_triple_cons, Hc, (IH Hs).
Qed.

Lemma finditer_without_asterisk (s : str) (i : nat) :
  Py.contains "*" s = false -> Py.finditer_double_asterisk s i = [].
Proof.
  revert i. induction s as [|c s IH]; intros i H; [reflexivity|].
  apply contains_cons_false in H as [Hc Hs].
  rewrite finditer_not_asterisk by exact Hc. now apply IH.
Qed.

Lemma blank_is_not (c x : ascii) :
  Py.isspace c = true -> Py.isspace x = false -> Ascii.eqb c x = false.
Proof.
  intros Hc Hx. destruct (Ascii.eqb c x) eqn:E; [|reflexivity].
  apply Ascii.eqb_eq in E as ->. congruence.
Qed.

Lemma contains_blanks (x : ascii) (ws : str) :
  blanks ws -> Py.isspace x = false -> Py.contains x ws = false.
Proof.
  intros Hws Hx. induction ws as [|c ws IH]; [reflexivity|].
  unfold blanks in Hws. simpl in Hws. apply andb_true_iff in Hws as [Hc Hws].
  unfold Py.contains. simpl. rewrite Ascii.eqb_sym, (blank_is_not _ _ Hc Hx).
  now apply IH.
Qed.

Lemma lstrip_nil (s : str) : Py.lstrip s = [] -> forallb Py.isspace s = true.
Proof.
  induction s as [|c s IH]; simpl; [reflexivity|].
  destruct (Py.isspace c); [exact IH | discriminate].
Qed.

Lemma lstrip_blanks (ws s : str) :
  forallb Py.isspace ws = true -> Py.lstrip (ws ++ s) = Py.lstrip s.
Proof.
  induction ws as [|c ws IH]; intros H; [reflexivity|].
  simpl in *. apply andb_true_iff in H as [Hc H]. rewrite Hc. now apply IH.
Qed.

Lemma rstrip_blanks (s ws : str) :
  s <> [] -> Py.isspace (last s Ascii.zero) = false -> blanks ws ->
  Py.rstrip (s ++ ws) = s.
Proof.
  intros Hs Hl Hws. unfold Py.rstrip. rewrite rev_app_distr, lstrip_blanks.
  - now apply rstrip_keep.
  - apply forallb_forall. intros c Hc. apply in_rev in Hc.
    unfold blanks in Hws. rewrite forallb_forall in Hws. now apply Hws.
Qed.

Lemma rstrip_with_a_mark (s : str) (c : ascii) :
  In c s -> Py.isspace c = false -> Py.rstrip s <> [].
Proof.
  intros Hin Hc E. unfold Py.rstrip in E.
  apply (f_equal (@rev ascii)) in E. rewrite rev_involutive in E. simpl in E.
  apply lstrip_nil in E. rewrite forallb_forall in E.
  specialize (E c). rewrite <- in_rev in E. specialize (E Hin). congruence.
Qed.

Lemma opens_cleanly_spec (c : ascii) :
  opens_cleanly c = true ->
  Py.isspace c = false /\
  Ascii.eqb c "#" = false /\ Ascii.eqb c "!" = false /\
  Ascii.eqb c "/" = false /\ Ascii.eqb c "\" = false /\
  Ascii.eqb c "*" = false.
Proof.
  unfold opens_cleanly, Py.contains. cbn [lit list_ascii_of_string existsb].
  rewrite andb_true_iff, !negb_true_iff, !orb_false_iff. tauto.
Qed.

Lemma closes_cleanly_spec (c : ascii) :
  closes_cleanly c = true ->
  Py.isspace c = false /\
  Ascii.eqb c "/" = false /\ Ascii.eqb c "\" = false.
Proof.
  unfold closes_cleanly, Py.contains. cbn [lit list_ascii_of_string existsb].
  rewrite andb_true_iff, !negb_true_iff, !orb_false_iff. tauto.
Qed.

Lemma last_before_blanks (s ws : str) (x : ascii) :
  s <> [] -> Py.isspace x = false ->
  Ascii.eqb (last s Ascii.zero) x = false -> blanks ws ->
  Ascii.eqb (last (s ++ ws) Ascii.zero) x = false.
Proof.
  intros Hs Hx Hl Hws. destruct ws as [|w ws]; [now rewrite app_nil_r|].
  rewrite last_app_nonempty by discriminate.
  apply blank_is_not; [|exact Hx].
  unfold blanks in Hws. rewrite forallb_forall in Hws. apply Hws.
  destruct (@exists_last _ (w :: ws) ltac:(discriminate)) as [l [d E]].
  rewrite E, last_last. apply in_or_app. right. now left.
Qed.

Lemma contains_before_last (s ws : str) :
  s <> [] -> Ascii.eqb (last s Ascii.zero) "/" = false -> blanks ws ->
  Py.contains "/" (Py.slice_to_minus (s ++ ws) 1) = Py.contains "/" s.
Proof.
  intros Hs Hl Hws. destruct ws as [|w ws' _] using rev_ind.
  - rewrite app_nil_r. destruct (@exists_last _ s Hs) as [s' [d ->]].
    rewrite last_last in Hl. rewrite slice_to_minus_1, contains_app.
    cbn [Py.contains existsb]. rewrite (Ascii.eqb_sym "/" d), Hl.
    now rewrite !orb_false_r.
  - rewrite app_assoc, slice_to_minus_1, contains_app.
    unfold blanks in Hws. rewrite forallb_app in Hws.
    apply andb_true_iff in Hws as [Hws _].
    rewrite (@contains_blanks "/"%char ws' Hws eq_refl). apply orb_false_r.
Qed.

(** Nothing but the blanks at its end is cut from a pattern with clean
    ends. *)
Lemma finish_trailing_blanks (orig pat ws : str) (neg : bool) (base : Path)
  (src : Path * nat) :
  pat <> [] ->
  opens_cleanly (hd Ascii.zero pat) = true ->
  closes_cleanly (last pat Ascii.zero) = true ->
  blanks ws ->
  finish orig (pat ++ ws) neg base src =
  (regex <- fnmatch_pathname_to_regex pat false neg (Py.contains "/" pat) ;;
   Ok (Some (mkIgnoreRule orig regex neg false (Py.contains "/" pat) base src))).
Proof.
  intros Hne Hh Hl Hws.
  apply opens_cleanly_spec in Hh as (Hh0 & Hh1 & Hh2 & Hh3 & Hh4 & Hh5).
  apply closes_cleanly_spec in Hl as (Hl0 & Hl1 & Hl2).
  assert (Hne' : pat ++ ws <> []) by (destruct pat; [congruence | discriminate]).
  assert (Hhd : hd Ascii.zero (pat ++ ws) = hd Ascii.zero pat)
    by now apply hd_app_nonempty.
  unfold finish. rewrite getitem_last by exact Hne'. cbn [bind].
  rewrite (@last_before_blanks pat ws "/"%char Hne eq_refl Hl1 Hws).
  cbv zeta. rewrite contains_before_last by assumption.
  unfold lit in *. cbn [list_ascii_of_string] in *.
  rewrite str_lcut_miss by (try rewrite Hhd; assumption). cbv beta iota.
  rewrite str_lcut_miss by (try rewrite Hhd; assumption). cbv beta iota.
  rewrite str_lcut_miss by (try rewrite Hhd; assumption). cbv beta iota.
  rewrite str_rcut_miss
    by (try apply last_before_blanks; try assumption; reflexivity).
  cbv beta iota.
  rewrite startswith_miss by (try rewrite Hhd; assumption).
  rewrite rstrip_blanks by assumption.
  rewrite str_rcut_miss by assumption.
  reflexivity.
Qed.

Lemma strip_after_bang (pat : str) : Py.strip ("!"%char :: pat) <> [].
Proof.
  unfold Py.strip. rewrite lstrip_id by reflexivity.
  apply (@rstrip_with_a_mark _ "!"%char); [now left | reflexivity].
Qed.

(** The pattern compiler on a negated line that passes its checks. *)
Lemma rule_from_pattern_negated (pat : str) (base : Path) (src : Path * nat) :
  is_absolute base = true ->
  has_triple pat = false ->
  double_asterisk_loop pat (Py.finditer_double_asterisk pat 0) = Ok false ->
  Py.rstrip pat <> lit "/" ->
  rule_from_pattern ("!"%char :: pat) base src
  = finish ("!"%char :: pat) pat true base src.
Proof.
  intros Habs Htriple Hloop Hslash.
  unfold rule_from_pattern, assert_absolute. rewrite Habs. cbn [negb bind].
  pose proof (strip_after_bang pat) as Hblank.
  apply str_eqb_neq in Hblank, Hslash. rewrite Hblank. cbn [bind].
  rewrite getitem_0_cons. cbn [bind].
  change (Ascii.eqb "!" "#") with false. cbv iota.
  change (-1 <? Py.find ("!"%char :: pat) (lit "***"))%Z
    with (has_triple ("!"%char :: pat)).
  rewrite has_triple_cons, Htriple. cbn [andb orb].
  change (Ascii.eqb "!" "!") with true. cbv iota zeta.
  change (Py.slice_from ("!"%char :: pat) 1) with pat.
  rewrite Hloop. cbn [bind]. now rewrite Hslash.
Qed.

Lemma rule_of_clean_line (neg : bool) (pat ws : str) (base : Path)
  (src : Path * nat) :
  is_absolute base = true ->
  pat <> [] ->
  Py.contains "*" pat = false ->
  opens_cleanly (hd Ascii.zero pat) = true ->
  closes_cleanly (last pat Ascii.zero) = true ->
  blanks ws ->
  rule_from_pattern ((if neg then lit "!" else []) ++ pat ++ ws) base src =
  (regex <- fnmatch_pathname_to_regex pat false neg (Py.contains "/" pat) ;;
   Ok (Some (mkIgnoreRule ((if neg then lit "!" else []) ++ pat ++ ws) regex
               neg false (Py.contains "/" pat) base src))).
Proof.
  intros Habs Hne Hstar Hh Hl Hws.
  pose proof (opens_cleanly_spec _ Hh) as (Hh0 & Hh1 & Hh2 & Hh3 & Hh4 & Hh5).
  pose proof (closes_cleanly_spec _ Hl) as (Hl0 & Hl1 & Hl2).
  assert (Hne' : pat ++ ws <> []) by (destruct pat; [congruence | discriminate]).
  assert (Hhd : hd Ascii.zero (pat ++ ws) = hd Ascii.zero pat)
    by now apply hd_app_nonempty.
  assert (Hstar' : Py.contains "*" (pat ++ ws) = false).
  { rewrite contains_app, Hstar. now apply contains_blanks. }
  assert (Hrs : Py.rstrip (pat ++ ws) = pat) by now apply rstrip_blanks.
  assert (Hslash : pat <> lit "/").
  { intros ->. discriminate Hh3. }
  destruct neg; cbn [app lit list_ascii_of_string].
  - rewrite rule_from_pattern_negated; auto.
    + now apply finish_trailing_blanks.
    + now apply has_triple_without_asterisk.
    + now rewrite finditer_without_asterisk.
    + now rewrite Hrs.
  - rewrite rule_from_pattern_checked; try rewrite Hhd; auto.
    + now apply finish_trailing_blanks.
    + unfold Py.strip. destruct pat as [|c pat]; [congruence|].
      cbn [app hd] in *. rewrite lstrip_id by exact Hh0.
      now rewrite Hrs.
    + now apply has_triple_without_asterisk.
    + now rewrite finditer_without_asterisk.
    + now rewrite Hrs.
Qed.

(** ** The scan of the glob translator, further tokens *)

Lemma fnmatch_step_literal (pattern : str) (i : nat) (res : Re.regex) (c : ascii) :
  nth_error pattern i = Some c -> literal_char c = true ->
  fnmatch_step pattern i res = Ok (i + 1, res ++ [Lit c]).
Proof.
  intros Hi Hc. unfold literal_char, Py.contains in Hc.
  cbn [lit list_ascii_of_string existsb] in Hc.
  rewrite negb_true_iff, !orb_false_iff in Hc.
  destruct Hc as (H1 & H2 & H3 & H4 & _).
  unfold fnmatch_step. rewrite getitem_nat, Hi. cbn [bind].
  now rewrite H1, H2, H3, H4.
Qed.

Lemma scan_literal_char (c : ascii) (s : str) (res : Re.regex) :
  literal_char c = true -> scan (c :: s) 0 res = scan s 0 (res ++ [Lit c]).
Proof.
  intros Hc. apply (@scan_token [c]); [discriminate|].
  now apply fnmatch_step_literal.
Qed.

Lemma scan_question_mark (s : str) (res : Re.regex) :
  scan ("?"%char :: s) 0 res = scan s 0 (res ++ [Nonsep]).
Proof. apply (@scan_token ["?"%char]); [discriminate | reflexivity]. Qed.

(** ** What the closing pieces and the anchor match *)

Lemma match_resolved (fs : FileSystem) (rule : IgnoreRule) (candidate : Path)
  (hint : option bool) (s : str) :
  resolves_to fs candidate (base_path rule) s ->
  compiles (regex rule) = true ->
  IgnoreRule_match fs rule candidate hint =
  Ok (search_from (regex rule) None
        (if negation rule && match hint with
                             | None => fs_is_dir fs candidate
                             | Some b => b
                             end
         then s ++ lit "/" else s)).
Proof.
  intros (resolved & rel & Hres & Hrel & <-) Hre. unfold IgnoreRule_match.
  rewrite Hres, Hrel. cbv zeta. now apply search_compiled.
Qed.

Lemma decides_Ok (b : bool) (P : Prop) : (b = true <-> P) -> decides (Ok b) P.
Proof. intros H. now exists b. Qed.

Lemma match_here_eol (prev : option ascii) (t : str) :
  single_line t -> match_here [Eol] prev t = true <-> t = [].
Proof.
  intros Hsl. cbn [match_here]. rewrite andb_true_r. split.
  - now apply at_eol_single_line.
  - now intros ->.
Qed.

Lemma match_here_eol_or_slash (prev : option ascii) (t : str) :
  single_line t ->
  match_here [EolOrSlash] prev t = true <->
  t = [] \/ exists rest, t = "/"%char :: rest.
Proof.
  intros Hsl. cbn [match_here]. rewrite andb_true_r, orb_true_iff, one_iff.
  split.
  - intros [H|(c & rest & -> & Hc & _)].
    + left. now apply at_eol_single_line.
    + right. apply is_sep_eq in Hc as ->. now exists rest.
  - intros [->|(rest & ->)]; [now left | right].
    now exists "/"%char, rest.
Qed.

Lemma match_here_slash_eol (prev : option ascii) (t : str) :
  single_line t -> match_here [SlashEol] prev t = true <-> t = lit "/".
Proof.
  intros Hsl. cbn [match_here]. rewrite one_iff. split.
  - intros (c & rest & -> & Hc & H). apply is_sep_eq in Hc as ->.
    rewrite andb_true_r in H.
    apply at_eol_single_line in H as ->; [reflexivity|].
    intros Hin. apply Hsl. now right.
  - intros ->. now exists "/"%char, [].
Qed.

Lemma search_unanchored (re : Re.regex) (t : str) :
  search_from (Flags :: re) None t = true <->
  exists pre rest, t = pre ++ rest /\ match_here re (after None pre) rest = true.
Proof.
  split.
  - intros H. apply search_from_elim in H as (pre & rest & -> & H).
    now exists pre, rest.
  - intros (pre & rest & -> & H). now apply search_from_intro.
Qed.

Lemma search_anchored (re : Re.regex) (t : str) :
  single_line t ->
  search_from (Flags :: Bol :: re) None t = true <-> match_here re None t = true.
Proof.
  intros Hsl. split.
  - intros H. apply search_from_elim in H as (pre & rest & -> & H).
    cbn [match_here] in H. apply andb_true_iff in H as [Hbol H].
    apply single_line_app in Hsl as [Hpre _].
    apply at_bol_single_line in Hbol as ->; [exact H | exact Hpre].
  - intros H. apply (@search_from_intro _ [] t None).
    cbn [match_here after at_bol andb]. exact H.
Qed.

Lemma single_line_slash (s : str) : single_line s -> single_line (s ++ lit "/").
Proof.
  intros Hsl Hin. apply in_app_or in Hin as [Hin|[Hin|[]]]; [now apply Hsl|].
  discriminate Hin.
Qed.

Lemma single_line_suffix (pre t : str) : single_line (pre ++ t) -> single_line t.
Proof. intros H. now apply single_line_app in H. Qed.

(** A text that ends a single line, up to the closing piece. *)
Lemma search_literal_end (u : str) (closing : Re.piece) (t : str) :
  search_from (Flags :: map Lit u ++ [closing]) None t = true <->
  exists pre rest, t = pre ++ u ++ rest
                   /\ match_here [closing] (after (after None pre) u) rest = true.
Proof.
  rewrite search_unanchored. split.
  - intros (pre & t' & -> & H). apply match_here_lits in H as (rest & -> & H).
    now exists pre, rest.
  - intros (pre & rest & -> & H). exists pre, (u ++ rest). split; [reflexivity|].
    apply match_here_lits. now exists rest.
Qed.

Lemma search_literal_whole (u : str) (closing : Re.piece) (t : str) :
  single_line t ->
  search_from (Flags :: Bol :: map Lit u ++ [closing]) None t = true <->
  exists rest, t = u ++ rest /\ match_here [closing] (after None u) rest = true.
Proof.
  intros Hsl. rewrite search_anchored by exact Hsl. apply match_here_lits.
Qed.

(** ** Plain names, with and without slashes and bangs *)

Lemma plain_opens (c : ascii) : plain_char c = true -> opens_cleanly c = true.
Proof.
  intros H. apply plain_char_spec in H as (H0 & H1 & H2 & H3 & H4 & H5 & H6 & H7).
  unfold opens_cleanly, Py.contains. cbn [lit list_ascii_of_string existsb].
  rewrite H0, H1, H4, H5, H6, H7. reflexivity.
Qed.

Lemma plain_closes (c : ascii) : plain_char c = true -> closes_cleanly c = true.
Proof.
  intros H. apply plain_char_spec in H as (H0 & H1 & H2 & H3 & H4 & H5 & H6 & H7).
  unfold closes_cleanly, Py.contains. cbn [lit list_ascii_of_string existsb].
  rewrite H0, H4, H5. reflexivity.
Qed.

Lemma plain_without (u : str) (x : ascii) :
  plain u -> plain_char x = false -> ~ In x u.
Proof.
  intros Hpl Hx Hin. unfold plain in Hpl. rewrite forallb_forall in Hpl.
  specialize (Hpl x Hin). congruence.
Qed.

Lemma plain_name_ends (pre u s : str) (x : ascii) :
  plain_name u -> plain_char x = false -> pre ++ u <> s ++ [x].
Proof.
  intros Hu Hx E. destruct (plain_last Hu) as (u' & d & -> & Hd & _).
  rewrite app_assoc in E. apply app_inj_tail in E as [_ ->]. congruence.
Qed.

Section Names.

Variable base : Path.
Variable src : Path * nat.
Hypothesis base_absolute : is_absolute base = true.

(** [name] and [!name], trailing blanks or not *)
Lemma rule_of_name (neg : bool) (u ws : str) :
  plain_name u -> blanks ws ->
  rule_from_pattern ((if neg then lit "!" else []) ++ u ++ ws) base src =
  Ok (Some (mkIgnoreRule ((if neg then lit "!" else []) ++ u ++ ws)
              (Flags :: map Lit u ++ [Eol]) neg false false base src)).
Proof.
  intros Hu Hws. pose proof Hu as [Hne Hpl].
  rewrite rule_of_clean_line; auto.
  - rewrite (@contains_plain u "/"%char Hpl eq_refl).
    unfold fnmatch_pathname_to_regex. rewrite scan_start.
    rewrite scan_plain_all by exact Hpl. reflexivity.
  - now apply contains_plain.
  - apply plain_opens. now apply plain_head_char.
  - apply plain_closes. now apply plain_last_char.
Qed.

(** [a/b] *)
Lemma rule_of_path (u v : str) :
  plain_name u -> plain_name v ->
  rule_from_pattern (u ++ lit "/" ++ v) base src =
  Ok (Some (mkIgnoreRule (u ++ lit "/" ++ v)
              (Flags :: Bol :: map Lit u ++ [Sep] ++ map Lit v ++ [Eol])
              false false true base src)).
Proof.
  intros Hu Hv. pose proof Hu as [Hune Hupl]. pose proof Hv as [Hvne Hvpl].
  pose proof (@rule_of_clean_line false (u ++ lit "/" ++ v) [] base src
                base_absolute) as H.
  cbn [app lit list_ascii_of_string] in *. rewrite !app_nil_r in H.
  rewrite H; clear H.
  - rewrite !contains_app, (@contains_plain u "/"%char Hupl eq_refl).
    cbn [Py.contains existsb Ascii.eqb Bool.eqb orb].
    unfold fnmatch_pathname_to_regex. rewrite scan_start.
    rewrite scan_plain_stretch by exact Hupl. cbn [app].
    rewrite scan_slash, scan_plain_all by exact Hvpl. cbn [bind].
    now rewrite <- !app_assoc.
  - destruct u; [congruence | discriminate].
  - rewrite !contains_app, (@contains_plain u "*"%char Hupl eq_refl).
    cbn [Py.contains existsb Ascii.eqb Bool.eqb orb].
    now apply contains_plain.
  - rewrite hd_app_nonempty by exact Hune. apply plain_opens.
    now apply plain_head_char.
  - rewrite last_app_nonempty by discriminate.
    change ("/"%char :: v) with (["/"%char] ++ v).
    rewrite last_app_nonempty by exact Hvne.
    apply plain_closes. now apply plain_last_char.
  - reflexivity.
Qed.

End Names.

Section Slashes.

Variable base : Path.
Variable src : Path * nat.
Hypothesis base_absolute : is_absolute base = true.

(** [/name] *)
Lemma rule_of_rooted_name (u : str) :
  plain_name u ->
  rule_from_pattern (lit "/" ++ u) base src =
  Ok (Some (mkIgnoreRule (lit "/" ++ u) (Flags :: Bol :: map Lit u ++ [Eol])
              false false true base src)).
Proof.
  intros Hu. pose proof Hu as [Hne Hpl].
  pose proof (plain_char_spec _ (plain_head_char Hu))
    as (Hh0 & Hh1 & Hh2 & Hh3 & Hh4 & Hh5 & Hh6 & Hh7).
  pose proof (plain_char_spec _ (plain_last_char Hu))
    as (Hl0 & Hl1 & Hl2 & Hl3 & Hl4 & Hl5 & Hl6 & Hl7).
  assert (Hlast : last (lit "/" ++ u) Ascii.zero = last u Ascii.zero)
    by now apply last_app_nonempty.
  assert (Hstar : Py.contains "*" (lit "/" ++ u) = false).
  { rewrite contains_app, (@contains_plain u "*"%char Hpl eq_refl). reflexivity. }
  assert (Hrs : Py.rstrip (lit "/" ++ u) = lit "/" ++ u).
  { apply rstrip_keep; [discriminate | now rewrite Hlast]. }
  rewrite rule_from_pattern_checked; auto.
  - unfold finish. rewrite getitem_last by discriminate. rewrite Hlast.
    cbn [bind]. rewrite Hl4. cbv zeta.
    pose proof (@contains_slash_inside [] u Hne) as Hanch.
    unfold lit in *. cbn [list_ascii_of_string app] in *.
    rewrite Hanch.
    unfold str_lcut at 1. cbn [Py.startswith Ascii.eqb Bool.eqb andb].
    rewrite startswith_nil. cbn [length Py.slice_from skipn].
    rewrite str_lcut_miss by assumption. cbv beta iota.
    rewrite str_lcut_miss by assumption. cbv beta iota.
    rewrite str_rcut_miss by assumption. cbv beta iota.
    rewrite startswith_miss by assumption.
    rewrite rstrip_keep by assumption.
    rewrite str_rcut_miss by assumption. cbv beta iota.
    unfold fnmatch_pathname_to_regex. rewrite scan_start.
    rewrite scan_plain_all by exact Hpl. reflexivity.
  - unfold Py.strip. change (lit "/" ++ u) with ("/"%char :: u).
    rewrite lstrip_id by reflexivity.
    change ("/"%char :: u) with (lit "/" ++ u). rewrite Hrs. discriminate.
  - now apply has_triple_without_asterisk.
  - now rewrite finditer_without_asterisk.
  - rewrite Hrs. cbn. intros E. injection E as ->. congruence.
Qed.

(** [!name/] *)
Lemma rule_of_negated_directory_pattern (u : str) :
  plain_name u ->
  rule_from_pattern (lit "!" ++ u ++ lit "/") base src =
  Ok (Some (mkIgnoreRule (lit "!" ++ u ++ lit "/")
              (Flags :: map Lit u ++ [SlashEol]) true true false base src)).
Proof.
  intros Hu. pose proof Hu as [Hne Hpl].
  pose proof (plain_char_spec _ (plain_head_char Hu))
    as (Hh0 & Hh1 & Hh2 & Hh3 & Hh4 & Hh5 & Hh6 & Hh7).
  pose proof (plain_char_spec _ (plain_last_char Hu))
    as (Hl0 & Hl1 & Hl2 & Hl3 & Hl4 & Hl5 & Hl6 & Hl7).
  assert (Hline : u ++ lit "/" <> []) by (destruct u; discriminate).
  assert (Hhd : hd Ascii.zero (u ++ lit "/") = hd Ascii.zero u)
    by now apply hd_app_nonempty.
  assert (Hlast : last (u ++ lit "/") Ascii.zero = "/"%char) by apply last_last.
  assert (Hstar : Py.contains "*" (u ++ lit "/") = false).
  { rewrite contains_app, (@contains_plain u "*"%char Hpl eq_refl). reflexivity. }
  assert (Hrs : Py.rstrip (u ++ lit "/") = u ++ lit "/")
    by (apply rstrip_keep; [exact Hline | now rewrite Hlast]).
  change (lit "!" ++ u ++ lit "/") with ("!"%char :: u ++ lit "/").
  rewrite rule_from_pattern_negated; auto.
  - unfold finish. rewrite getitem_last by exact Hline. rewrite Hlast.
    cbn [bind]. cbv zeta. unfold lit in *.
    cbn [list_ascii_of_string Ascii.eqb Bool.eqb] in *.
    rewrite slice_to_minus_1.
    rewrite str_lcut_miss by (try rewrite Hhd; auto). cbv beta iota.
    unfold str_lcut at 1.
    rewrite startswith_miss by (try rewrite Hhd; auto). cbv beta iota.
    rewrite str_lcut_miss by (try rewrite Hhd; auto). cbv beta iota.
    rewrite str_rcut_hit. cbv beta iota.
    rewrite startswith_miss by auto.
    rewrite rstrip_keep by auto.
    rewrite str_rcut_miss by auto. cbv beta iota.
    rewrite contains_plain by (auto; reflexivity).
    unfold fnmatch_pathname_to_regex. rewrite scan_start.
    rewrite scan_plain_all by exact Hpl. reflexivity.
  - now apply has_triple_without_asterisk.
  - now rewrite finditer_without_asterisk.
  - rewrite Hrs. apply app_not_single; [exact Hne | discriminate].
Qed.

End Slashes.

Lemma forallb_ok_lits (u : str) : forallb piece_ok (map Lit u) = true.
Proof. apply compiles_lits. Qed.

Ltac regex_compiles :=
  cbn [regex]; unfold compiles;
  repeat (rewrite ?forallb_app, ?forallb_ok_lits; cbn [forallb piece_ok andb]);
  reflexivity.

Ltac by_resolved H :=
  repeat match goal with
         | |- context [IgnoreRule_match ?fs ?r ?c ?h] =>
             rewrite (@match_resolved fs r c h _ H) by regex_compiles
         end.

(** X12. A line that is a plain name, blanks after it or not, gives a rule
    that matches a candidate below the base directory, of a single-line
    relative path, exactly when that path ends with the name: at any depth,
    and also as the end of a longer name. *)
Theorem name_matches_where_the_path_ends_with_it :
  forall (fs : FileSystem) (name ws : str) (base : Path) (source : Path * nat)
         (candidate : Path) (hint : option bool) (rel_path : str),
    is_absolute base = true ->
    plain_name name ->
    blanks ws ->
    resolves_to fs candidate base rel_path ->
    single_line rel_path ->
    exists rule,
      rule_from_pattern (name ++ ws) base source = Ok (Some rule)
      /\ decides (IgnoreRule_match fs rule candidate hint)
                 (exists pre, rel_path = pre ++ name).
Proof.
  intros fs name ws base source candidate hint s Habs Hname Hws Hres Hsl.
  exists (mkIgnoreRule (name ++ ws) (Flags :: map Lit name ++ [Eol])
            false false false base source).
  split; [exact (@rule_of_name base source Habs false name ws Hname Hws)|].
  by_resolved Hres.
  cbn [regex negation andb]. apply decides_Ok.
  rewrite search_literal_end. split.
  - intros (pre & rest & -> & H). apply match_here_eol in H as ->.
    + exists pre. now rewrite app_nil_r.
    + rewrite app_assoc in Hsl. now apply single_line_suffix in Hsl.
  - intros (pre & ->). exists pre, []. now rewrite app_nil_r.
Qed.

Lemma name_matches_where_the_path_ends_with_it_witness :
  exists rule,
    rule_from_pattern (lit "foo" ++ lit " ") repo
      (Path_of_str (lit "/repo/.gitignore"), 1) = Ok (Some rule)
    /\ decides (IgnoreRule_match demo_fs rule
                  (Path_of_str (lit "/repo/a/barfoo")) None)
               (exists pre, lit "a/barfoo" = pre ++ lit "foo").
Proof.
  apply (@name_matches_where_the_path_ends_with_it demo_fs (lit "foo") (lit " ")
           repo (Path_of_str (lit "/repo/.gitignore"), 1)
           (Path_of_str (lit "/repo/a/barfoo")) None (lit "a/barfoo")).
  - reflexivity.
  - split; [discriminate | reflexivity].
  - reflexivity.
  - exists (Path_of_str (lit "/repo/a/barfoo")), [lit "a"; lit "barfoo"].
    split; [reflexivity | split; reflexivity].
  - vm_compute. intros H.
    repeat (destruct H as [H|H]; [discriminate H|]). exact H.
Defined.

(** X13. For a candidate of a single-line relative path: the rule of
    [!name], for a plain name, never matches it taken as a directory, the
    slash put after its relative path keeping the name from ending it; taken
    as a file, it is matched exactly when its relative path ends with the
    name. *)
Theorem negated_name_leaves_directories_alone :
  forall (fs : FileSystem) (name : str) (base : Path) (source : Path * nat)
         (candidate : Path) (rel_path : str),
    is_absolute base = true ->
    plain_name name ->
    resolves_to fs candidate base rel_path ->
    single_line rel_path ->
    exists rule,
      rule_from_pattern (lit "!" ++ name) base source = Ok (Some rule)
      /\ negation rule = true
      /\ IgnoreRule_match fs rule candidate (Some true) = Ok false
      /\ decides (IgnoreRule_match fs rule candidate (Some false))
                 (exists pre, rel_path = pre ++ name).
Proof.
  intros fs name base source candidate s Habs Hname Hres Hsl.
  pose proof (@rule_of_name base source Habs true name [] Hname eq_refl) as Hrule.
  rewrite !app_nil_r in Hrule.
  exists (mkIgnoreRule (lit "!" ++ name) (Flags :: map Lit name ++ [Eol])
            true false false base source).
  split; [exact Hrule|]. split; [reflexivity|].
  by_resolved Hres.
  cbn [regex negation andb]. split.
  - f_equal. apply not_true_is_false. rewrite search_literal_end.
    intros (pre & rest & E & H). apply match_here_eol in H as ->.
    + rewrite app_nil_r in E. symmetry in E. revert E.
      now apply plain_name_ends.
    + apply single_line_slash in Hsl. rewrite E, app_assoc in Hsl.
      now apply single_line_suffix in Hsl.
  - apply decides_Ok. rewrite search_literal_end. split.
    + intros (pre & rest & -> & H). apply match_here_eol in H as ->.
      * exists pre. now rewrite app_nil_r.
      * rewrite app_assoc in Hsl. now apply single_line_suffix in Hsl.
    + intros (pre & ->). exists pre, []. now rewrite app_nil_r.
Qed.

Lemma negated_name_leaves_directories_alone_witness :
  exists rule,
    rule_from_pattern (lit "!" ++ lit "keep") repo
      (Path_of_str (lit "/repo/.gitignore"), 2) = Ok (Some rule)
    /\ negation rule = true
    /\ IgnoreRule_match demo_fs rule (Path_of_str (lit "/repo/keep")) (Some true)
       = Ok false
    /\ decides (IgnoreRule_match demo_fs rule (Path_of_str (lit "/repo/keep"))
                  (Some false))
               (exists pre, lit "keep" = pre ++ lit "keep").
Proof.
  apply (@negated_name_leaves_directories_alone demo_fs (lit "keep") repo
           (Path_of_str (lit "/repo/.gitignore"), 2)
           (Path_of_str (lit "/repo/keep")) (lit "keep")).
  - reflexivity.
  - split; [discriminate | reflexivity].
  - exists (Path_of_str (lit "/repo/keep")), [lit "keep"].
    split; [reflexivity | split; reflexivity].
  - vm_compute. intros H.
    repeat (destruct H as [H|H]; [discriminate H|]). exact H.
Defined.

(** X14. A slash at the start of a pattern, or inside it, ties the pattern
    to the base directory: the rule of [/name] matches the relative path
    [name] and no other, the rule of [a/b] the relative path [a/b] and no
    other. *)
Theorem slash_ties_the_pattern_to_the_base :
  (forall (fs : FileSystem) (name : str) (base : Path) (source : Path * nat)
          (candidate : Path) (hint : option bool) (rel_path : str),
      is_absolute base = true ->
      plain_name name ->
      resolves_to fs candidate base rel_path ->
      single_line rel_path ->
      exists rule,
        rule_from_pattern (lit "/" ++ name) base source = Ok (Some rule)
        /\ anchored rule = true
        /\ decides (IgnoreRule_match fs rule candidate hint) (rel_path = name))
  /\ (forall (fs : FileSystem) (a b : str) (base : Path) (source : Path * nat)
             (candidate : Path) (hint : option bool) (rel_path : str),
        is_absolute base = true ->
        plain_name a -> plain_name b ->
        resolves_to fs candidate base rel_path ->
        single_line rel_path ->
        exists rule,
          rule_from_pattern (a ++ lit "/" ++ b) base source = Ok (Some rule)
          /\ anchored rule = true
          /\ decides (IgnoreRule_match fs rule candidate hint)
                     (rel_path = a ++ lit "/" ++ b)).
Proof.
  split.
  - intros fs name base source candidate hint s Habs Hname Hres Hsl.
    exists (mkIgnoreRule (lit "/" ++ name) (Flags :: Bol :: map Lit name ++ [Eol])
              false false true base source).
    split; [now apply rule_of_rooted_name|]. split; [reflexivity|].
    by_resolved Hres.
    cbn [regex negation andb]. apply decides_Ok.
    rewrite search_literal_whole by exact Hsl. split.
    + intros (rest & -> & H). apply match_here_eol in H as ->.
      * apply app_nil_r.
      * now apply single_line_suffix in Hsl.
    + intros ->. exists []. now rewrite app_nil_r.
  - intros fs a b base source candidate hint s Habs Ha Hb Hres Hsl.
    exists (mkIgnoreRule (a ++ lit "/" ++ b)
              (Flags :: Bol :: map Lit a ++ [Sep] ++ map Lit b ++ [Eol])
              false false true base source).
    split; [now apply rule_of_path|]. split; [reflexivity|].
    by_resolved Hres.
    cbn [regex negation andb]. apply decides_Ok.
    rewrite search_anchored by exact Hsl. rewrite match_here_lits. split.
    + intros (s1 & -> & H). cbn [app match_here] in H.
      apply one_iff in H as (c & s2 & -> & Hc & H). apply is_sep_eq in Hc as ->.
      apply match_here_lits in H as (s3 & -> & H).
      apply match_here_eol in H as ->; [now rewrite app_nil_r|].
      apply single_line_suffix in Hsl.
      apply (single_line_suffix ["/"%char]) in Hsl.
      now apply single_line_suffix in Hsl.
    + intros ->. eexists. split; [reflexivity|]. cbn [app match_here].
      apply one_iff. eexists _, _. split; [reflexivity|]. split; [reflexivity|].
      apply match_here_lits. exists [].
      split; [now rewrite app_nil_r | reflexivity].
Qed.

Lemma slash_ties_the_pattern_to_the_base_witness :
  (exists rule,
      rule_from_pattern (lit "/" ++ lit "todo") repo
        (Path_of_str (lit "/repo/.gitignore"), 1) = Ok (Some rule)
      /\ anchored rule = true
      /\ decides (IgnoreRule_match demo_fs rule
                    (Path_of_str (lit "/repo/doc/todo")) None)
                 (lit "doc/todo" = lit "todo"))
  /\ (exists rule,
        rule_from_pattern (lit "doc" ++ lit "/" ++ lit "todo") repo
          (Path_of_str (lit "/repo/.gitignore"), 2) = Ok (Some rule)
        /\ anchored rule = true
        /\ decides (IgnoreRule_match demo_fs rule
                      (Path_of_str (lit "/repo/doc/todo")) None)
                   (lit "doc/todo" = lit "doc" ++ lit "/" ++ lit "todo")).
Proof.
  destruct slash_ties_the_pattern_to_the_base as [Hroot Hpath].
  assert (Hres : resolves_to demo_fs (Path_of_str (lit "/repo/doc/todo")) repo
                   (lit "doc/todo")).
  { exists (Path_of_str (lit "/repo/doc/todo")), [lit "doc"; lit "todo"].
    split; [reflexivity | split; reflexivity]. }
  assert (Hsl : single_line (lit "doc/todo")).
  { vm_compute. intros H.
    repeat (destruct H as [H|H]; [discriminate H|]). exact H. }
  assert (Htodo : plain_name (lit "todo"))
    by (split; [discriminate | reflexivity]).
  assert (Hdoc : plain_name (lit "doc"))
    by (split; [discriminate | reflexivity]).
  assert (Habs : is_absolute repo = true) by reflexivity.
  split.
  - exact (Hroot demo_fs (lit "todo") repo
             (Path_of_str (lit "/repo/.gitignore"), 1)
             (Path_of_str (lit "/repo/doc/todo")) None (lit "doc/todo")
             Habs Htodo Hres Hsl).
  - exact (Hpath demo_fs (lit "doc") (lit "todo") repo
             (Path_of_str (lit "/repo/.gitignore"), 2)
             (Path_of_str (lit "/repo/doc/todo")) None (lit "doc/todo")
             Habs Hdoc Htodo Hres Hsl).
Defined.

(** X15. The rule of [name/], for a plain name, matches a candidate below
    the base directory, of a single-line relative path, exactly when that
    path ends with the name, or holds the name followed by a slash: the entry
    itself, of whatever kind, and everything below it. *)
Theorem directory_pattern_matches_the_entry_and_below :
  forall (fs : FileSystem) (name : str) (base : Path) (source : Path * nat)
         (candidate : Path) (hint : option bool) (rel_path : str),
    is_absolute base = true ->
    plain_name name ->
    resolves_to fs candidate base rel_path ->
    single_line rel_path ->
    exists rule,
      rule_from_pattern (name ++ lit "/") base source = Ok (Some rule)
      /\ directory_only rule = true
      /\ decides (IgnoreRule_match fs rule candidate hint)
                 ((exists pre, rel_path = pre ++ name)
                  \/ (exists pre below,
                         rel_path = pre ++ name ++ lit "/" ++ below)).
Proof.
  intros fs name base source candidate hint s Habs Hname Hres Hsl.
  exists (mkIgnoreRule (name ++ lit "/") (Flags :: map Lit name ++ [EolOrSlash])
            false true false base source).
  split; [now apply rule_of_directory_pattern|]. split; [reflexivity|].
  by_resolved Hres.
  cbn [regex negation andb]. apply decides_Ok.
  rewrite search_literal_end. split.
  - intros (pre & rest & -> & H). apply match_here_eol_or_slash in H.
    + destruct H as [->|(below & ->)].
      * left. exists pre. now rewrite app_nil_r.
      * right. now exists pre, below.
    + rewrite app_assoc in Hsl. now apply single_line_suffix in Hsl.
  - intros [(pre & ->)|(pre & below & ->)].
    + exists pre, []. now rewrite app_nil_r.
    + exists pre, ("/"%char :: below). split; [reflexivity|].
      cbn [match_here]. apply orb_true_iff. right. apply one_iff.
      exists "/"%char, below. now repeat split.
Qed.

Lemma directory_pattern_matches_the_entry_and_below_witness :
  exists rule,
    rule_from_pattern (lit "build" ++ lit "/") repo
      (Path_of_str (lit "/repo/.gitignore"), 1) = Ok (Some rule)
    /\ directory_only rule = true
    /\ decides (IgnoreRule_match demo_fs rule
                  (Path_of_str (lit "/repo/build/out/a.o")) None)
               ((exists pre, lit "build/out/a.o" = pre ++ lit "build")
                \/ (exists pre below,
                       lit "build/out/a.o"
                       = pre ++ lit "build" ++ lit "/" ++ below)).
Proof.
  apply (@directory_pattern_matches_the_entry_and_below demo_fs (lit "build") repo
           (Path_of_str (lit "/repo/.gitignore"), 1)
           (Path_of_str (lit "/repo/build/out/a.o")) None (lit "build/out/a.o")).
  - reflexivity.
  - split; [discriminate | reflexivity].
  - exists (Path_of_str (lit "/repo/build/out/a.o")),
      [lit "build"; lit "out"; lit "a.o"].
    split; [reflexivity | split; reflexivity].
  - vm_compute. intros H.
    repeat (destruct H as [H|H]; [discriminate H|]). exact H.
Defined.

(** X16. For a candidate of a single-line relative path: the rule of
    [!name/], for a plain name, matches it taken as a directory exactly when
    its relative path ends with the name; taken as a file, only when its
    relative path itself ends with the name and a slash. *)
Theorem negated_directory_pattern_wants_a_directory :
  forall (fs : FileSystem) (name : str) (base : Path) (source : Path * nat)
         (candidate : Path) (rel_path : str),
    is_absolute base = true ->
    plain_name name ->
    resolves_to fs candidate base rel_path ->
    single_line rel_path ->
    exists rule,
      rule_from_pattern (lit "!" ++ name ++ lit "/") base source = Ok (Some rule)
      /\ negation rule = true
      /\ directory_only rule = true
      /\ decides (IgnoreRule_match fs rule candidate (Some true))
                 (exists pre, rel_path = pre ++ name)
      /\ decides (IgnoreRule_match fs rule candidate (Some false))
                 (exists pre, rel_path = pre ++ name ++ lit "/").
Proof.
  intros fs name base source candidate s Habs Hname Hres Hsl.
  exists (mkIgnoreRule (lit "!" ++ name ++ lit "/")
            (Flags :: map Lit name ++ [SlashEol]) true true false base source).
  split; [now apply rule_of_negated_directory_pattern|].
  split; [reflexivity|]. split; [reflexivity|].
  by_resolved Hres.
  cbn [regex negation andb]. split; apply decides_Ok; rewrite search_literal_end.
  - split.
    + intros (pre & rest & E & H). apply match_here_slash_eol in H as ->.
      * rewrite app_assoc in E. apply app_inv_tail in E. now exists pre.
      * apply single_line_slash in Hsl. rewrite E, app_assoc in Hsl.
        now apply single_line_suffix in Hsl.
    + intros (pre & ->). exists pre, (lit "/").
      split; [now rewrite <- app_assoc | reflexivity].
  - split.
    + intros (pre & rest & -> & H). apply match_here_slash_eol in H as ->.
      * now exists pre.
      * rewrite app_assoc in Hsl. now apply single_line_suffix in Hsl.
    + intros (pre & ->). now exists pre, (lit "/").
Qed.

Lemma negated_directory_pattern_wants_a_directory_witness :
  exists rule,
    rule_from_pattern (lit "!" ++ lit "build" ++ lit "/") repo
      (Path_of_str (lit "/repo/.gitignore"), 2) = Ok (Some rule)
    /\ negation rule = true
    /\ directory_only rule = true
    /\ decides (IgnoreRule_match demo_fs rule
                  (Path_of_str (lit "/repo/build")) (Some true))
               (exists pre, lit "build" = pre ++ lit "build")
    /\ decides (IgnoreRule_match demo_fs rule
                  (Path_of_str (lit "/repo/build")) (Some false))
               (exists pre, lit "build" = pre ++ lit "build" ++ lit "/").
Proof.
  apply (@negated_directory_pattern_wants_a_directory demo_fs (lit "build") repo
           (Path_of_str (lit "/repo/.gitignore"), 2)
           (Path_of_str (lit "/repo/build")) (lit "build")).
  - reflexivity.
  - split; [discriminate | reflexivity].
  - exists (Path_of_str (lit "/repo/build")), [lit "build"].
    split; [reflexivity | split; reflexivity].
  - vm_compute. intros H.
    repeat (destruct H as [H|H]; [discriminate H|]). exact H.
Defined.

(** ** Brackets *)

Lemma skip_to_rbracket_none (l : str) :
  ~ In "]"%char l -> skip_to_rbracket l = length l.
Proof.
  induction l as [|c l IH]; intros H; [reflexivity|]. simpl.
  destruct (Ascii.eqb c "]") eqn:E.
  - apply Ascii.eqb_eq in E as ->. exfalso. apply H. now left.
  - f_equal. apply IH. intros Hin. apply H. now right.
Qed.

Lemma skip_to_rbracket_stop (l rest : str) :
  ~ In "]"%char l -> skip_to_rbracket (l ++ "]"%char :: rest) = length l.
Proof.
  induction l as [|c l IH]; intros H; [reflexivity|]. simpl.
  destruct (Ascii.eqb c "]") eqn:E.
  - apply Ascii.eqb_eq in E as ->. exfalso. apply H. now left.
  - f_equal. apply IH. intros Hin. apply H. now right.
Qed.

Lemma char_at_is_not (p : str) (j : nat) (x : ascii) :
  ~ In x p -> j < length p -> Ascii.eqb (char_at p j) x = false.
Proof.
  intros Hno Hj. destruct (Ascii.eqb (char_at p j) x) eqn:E; [|reflexivity].
  apply Ascii.eqb_eq in E. exfalso. apply Hno. rewrite <- E.
  unfold char_at. now apply nth_In.
Qed.

Lemma in_skipn (x : ascii) (j : nat) (p : str) : In x (skipn j p) -> In x p.
Proof.
  intros H. rewrite <- (firstn_skipn j p). apply in_or_app. now right.
Qed.

(** A [[] that no []] closes is a character like another. *)
Lemma fnmatch_step_open_bracket (v : str) (res : Re.regex) :
  ~ In "]"%char v ->
  fnmatch_step ("["%char :: v) 0 res = Ok (1, res ++ [LBracket]).
Proof.
  intros Hno.
  assert (Hp : ~ In "]"%char ("["%char :: v)).
  { intros [E|Hin]; [discriminate E | now apply Hno]. }
  unfold fnmatch_step. rewrite getitem_nat. cbn [nth_error bind].
  change (Ascii.eqb "[" "*") with false. change (Ascii.eqb "[" "?") with false.
  change (Ascii.eqb "[" "/") with false. change (Ascii.eqb "[" "[") with true.
  cbv iota zeta. change (0 + 1) with 1.
  set (p := "["%char :: v) in *.
  set (j1 := if (1 <? length p) && Ascii.eqb (char_at p 1) "!" then 1 + 1 else 1).
  assert (Hj1 : j1 <= length p).
  { unfold j1. destruct (1 <? length p) eqn:E; cbn [andb].
    - apply Nat.ltb_lt in E. destruct (Ascii.eqb _ _); lia.
    - subst p. simpl. lia. }
  assert (Hj2 : (if (j1 <? length p) && Ascii.eqb (char_at p j1) "]"
                 then j1 + 1 else j1) = j1).
  { destruct (j1 <? length p) eqn:E; cbn [andb]; [|reflexivity].
    apply Nat.ltb_lt in E. now rewrite char_at_is_not. }
  rewrite Hj2. rewrite skip_to_rbracket_none
    by (intros Hin; apply Hp; now apply in_skipn in Hin).
  rewrite length_skipn.
  replace (length p <=? j1 + (length p - j1)) with true
    by (symmetry; apply Nat.leb_le; lia).
  reflexivity.
Qed.

Lemma replace_without (s : str) (c : ascii) (new : str) :
  Py.contains c s = false -> Py.replace s c new = s.
Proof.
  unfold Py.replace. induction s as [|x s IH]; intros H; [reflexivity|].
  apply contains_cons_false in H as [Hx Hs]. simpl. rewrite Hx. simpl.
  f_equal. now apply IH.
Qed.

Lemma firstn_exact (a b : str) : firstn (length a) (a ++ b) = a.
Proof.
  rewrite firstn_app, Nat.sub_diag, firstn_all. simpl. apply app_nil_r.
Qed.

(** A set: [[stuff]] with nothing to escape and no bang or caret first. *)
Lemma fnmatch_step_class (stuff rest : str) (res : Re.regex) :
  stuff <> [] -> plain stuff -> ~ In "]"%char stuff ->
  Ascii.eqb (hd Ascii.zero stuff) "^" = false ->
  fnmatch_step ("["%char :: stuff ++ "]"%char :: rest) 0 res =
  Ok (length ("["%char :: stuff ++ ["]"%char]), res ++ [Class stuff]).
Proof.
  intros Hne Hpl Hno Hcaret. destruct stuff as [|c0 stuff']; [congruence|].
  pose proof Hpl as Hpl'. apply plain_cons in Hpl' as [Hc0 _].
  apply plain_char_spec in Hc0 as (_ & _ & _ & _ & _ & _ & _ & Hbang).
  assert (Hrb : Ascii.eqb c0 "]" = false).
  { destruct (Ascii.eqb c0 "]") eqn:E; [|reflexivity].
    apply Ascii.eqb_eq in E as ->. exfalso. apply Hno. now left. }
  cbn [hd] in Hcaret.
  unfold fnmatch_step. rewrite getitem_nat. cbn [nth_error bind].
  change (Ascii.eqb "[" "*") with false. change (Ascii.eqb "[" "?") with false.
  change (Ascii.eqb "[" "/") with false. change (Ascii.eqb "[" "[") with true.
  cbv iota zeta. change (0 + 1) with 1.
  cbn [app char_at nth]. rewrite Hbang, andb_false_r. cbn [nth].
  rewrite Hrb, andb_false_r. cbn [skipn].
  change (c0 :: stuff' ++ "]"%char :: rest)
    with ((c0 :: stuff') ++ "]"%char :: rest).
  rewrite skip_to_rbracket_stop by exact Hno.
  replace (length ("["%char :: (c0 :: stuff') ++ "]"%char :: rest)
           <=? 1 + length (c0 :: stuff')) with false
    by (symmetry; apply Nat.leb_gt; cbn [length]; rewrite length_app;
        cbn [length]; lia).
  unfold Py.slice. cbn [skipn].
  replace (1 + length (c0 :: stuff') - 1) with (length (c0 :: stuff')) by lia.
  rewrite firstn_exact.
  rewrite replace_without by (now apply contains_plain).
  rewrite getitem_0_cons. cbn [bind]. rewrite Hbang, Hcaret.
  do 2 f_equal. cbn [length]. rewrite length_app. cbn [length]. lia.
Qed.

(** A negated set: [[!stuff]]. *)
Lemma fnmatch_step_negated_class (stuff rest : str) (res : Re.regex) :
  stuff <> [] -> plain stuff -> ~ In "]"%char stuff ->
  fnmatch_step ("["%char :: "!"%char :: stuff ++ "]"%char :: rest) 0 res =
  Ok (length ("["%char :: "!"%char :: stuff ++ ["]"%char]),
      res ++ [Class ("^"%char :: stuff)]).
Proof.
  intros Hne Hpl Hno. destruct stuff as [|c0 stuff']; [congruence|].
  assert (Hrb : Ascii.eqb c0 "]" = false).
  { destruct (Ascii.eqb c0 "]") eqn:E; [|reflexivity].
    apply Ascii.eqb_eq in E as ->. exfalso. apply Hno. now left. }
  unfold fnmatch_step. rewrite getitem_nat. cbn [nth_error bind].
  change (Ascii.eqb "[" "*") with false. change (Ascii.eqb "[" "?") with false.
  change (Ascii.eqb "[" "/") with false. change (Ascii.eqb "[" "[") with true.
  cbv iota zeta. change (0 + 1) with 1.
  cbn [app char_at nth length].
  change (Ascii.eqb "!" "!") with true. rewrite andb_true_r.
  replace (1 <? S (S (S (length (stuff' ++ "]"%char :: rest))))) with true
    by (symmetry; apply Nat.ltb_lt; lia).
  cbv iota. change (1 + 1) with 2. cbn [nth].
  rewrite Hrb, andb_false_r. cbn [skipn].
  change (c0 :: stuff' ++ "]"%char :: rest)
    with ((c0 :: stuff') ++ "]"%char :: rest).
  rewrite skip_to_rbracket_stop by exact Hno.
  replace (S (S (S (length (stuff' ++ "]"%char :: rest))))
           <=? 2 + length (c0 :: stuff')) with false
    by (symmetry; apply Nat.leb_gt; rewrite length_app; cbn [length]; lia).
  unfold Py.slice. cbn [skipn].
  replace (2 + length (c0 :: stuff') - 1) with (length ("!"%char :: c0 :: stuff'))
    by (cbn [length]; lia).
  change ("!"%char :: (c0 :: stuff') ++ "]"%char :: rest)
    with (("!"%char :: c0 :: stuff') ++ "]"%char :: rest).
  rewrite firstn_exact.
  rewrite replace_without
    by (change ("!"%char :: c0 :: stuff') with (lit "!" ++ c0 :: stuff');
        rewrite contains_app, (@contains_plain (c0 :: stuff') "\"%char Hpl eq_refl);
        reflexivity).
  rewrite getitem_0_cons. cbn [bind].
  change (Ascii.eqb "!" "!") with true. cbv iota.
  do 2 f_equal. cbn [length]. rewrite length_app. cbn [length]. lia.
Qed.

Lemma scan_open_bracket (v : str) (res : Re.regex) :
  ~ In "]"%char v -> scan ("["%char :: v) 0 res = scan v 0 (res ++ [LBracket]).
Proof.
  intros Hno. apply (@scan_token ["["%char]); [discriminate|].
  now apply fnmatch_step_open_bracket.
Qed.

Lemma scan_class (stuff rest : str) (res : Re.regex) :
  stuff <> [] -> plain stuff -> ~ In "]"%char stuff ->
  Ascii.eqb (hd Ascii.zero stuff) "^" = false ->
  scan ("["%char :: stuff ++ "]"%char :: rest) 0 res
  = scan rest 0 (res ++ [Class stuff]).
Proof.
  intros Hne Hpl Hno Hcaret.
  pose proof (@scan_token ("["%char :: stuff ++ ["]"%char]) rest res
                (res ++ [Class stuff])) as H.
  cbn [app] in H. rewrite <- app_assoc in H. cbn [app] in H.
  apply H; [discriminate|]. now apply fnmatch_step_class.
Qed.

Lemma scan_negated_class (stuff rest : str) (res : Re.regex) :
  stuff <> [] -> plain stuff -> ~ In "]"%char stuff ->
  scan ("["%char :: "!"%char :: stuff ++ "]"%char :: rest) 0 res
  = scan rest 0 (res ++ [Class ("^"%char :: stuff)]).
Proof.
  intros Hne Hpl Hno.
  pose proof (@scan_token ("["%char :: "!"%char :: stuff ++ ["]"%char]) rest res
                (res ++ [Class ("^"%char :: stuff)])) as H.
  cbn [app] in H. rewrite <- app_assoc in H. cbn [app] in H.
  apply H; [discriminate|]. now apply fnmatch_step_negated_class.
Qed.

(** ** What a set accepts *)

Lemma set_char_spec (c : ascii) :
  set_char c = true ->
  plain_char c = true /\ Ascii.eqb c "]" = false
  /\ Ascii.eqb c "-" = false /\ Ascii.eqb c "^" = false.
Proof.
  unfold set_char, Py.contains. cbn [lit list_ascii_of_string existsb].
  rewrite andb_true_iff, negb_true_iff, !orb_false_iff. tauto.
Qed.

Lemma set_chars_spec (stuff : str) :
  forallb set_char stuff = true ->
  plain stuff /\ ~ In "]"%char stuff /\ Py.contains "-" stuff = false
  /\ Ascii.eqb (hd Ascii.zero stuff) "^" = false.
Proof.
  induction stuff as [|c stuff IH]; intros H.
  - repeat split; auto.
  - simpl in H. apply andb_true_iff in H as [Hc H].
    apply set_char_spec in Hc as (Hp & Hb & Hd & Hx).
    destruct (IH H) as (IHp & IHb & IHd & _).
    split; [now apply plain_cons|]. split; [|split; [|exact Hx]].
    + intros [E|Hin]; [|now apply IHb].
      subst c. discriminate Hb.
    + unfold Py.contains in *. cbn [existsb].
      now rewrite (Ascii.eqb_sym "-" c), Hd.
Qed.

Lemma tokens_plain (s : str) : plain s -> tokens s = map TChar s.
Proof.
  induction s as [|c s IH]; intros H; [reflexivity|].
  apply plain_cons in H as [Hc Hs].
  apply plain_char_spec in Hc as (_ & _ & _ & _ & _ & Hb & _).
  cbn [tokens map]. rewrite Hb. f_equal. now apply IH.
Qed.

Lemma set_items_singles (s : str) :
  Py.contains "-" s = false ->
  set_items (map TChar s) = Some (map (fun c => (c, c)) s).
Proof.
  induction s as [|c s IH]; intros H; [reflexivity|].
  apply contains_cons_false in H as [_ Hs].
  destruct s as [|d s']; [reflexivity|].
  pose proof Hs as Hd. apply contains_cons_false in Hd as [Hd _].
  specialize (IH Hs).
  change (set_items (map TChar (c :: d :: s')))
    with (if is_dash (TChar d)
          then match map TChar s' with
               | [] => Some [(c, c); ("-"%char, "-"%char)]
               | that :: rest'' =>
                   if (nat_of_ascii (token_char that) <? nat_of_ascii c)
                   then None
                   else option_map (cons (c, token_char that)) (set_items rest'')
               end
          else option_map (cons (c, c)) (set_items (map TChar (d :: s')))).
  cbn [is_dash]. rewrite Hd, IH. reflexivity.
Qed.

Lemma in_range_single (c x : ascii) : in_range c (x, x) = Ascii.eqb c x.
Proof.
  unfold in_range. cbn [fst snd]. destruct (Ascii.eqb c x) eqn:E.
  - apply Ascii.eqb_eq in E as ->. now rewrite Nat.leb_refl.
  - apply Ascii.eqb_neq in E.
    destruct (nat_of_ascii x <=? nat_of_ascii c) eqn:E1; [|reflexivity].
    destruct (nat_of_ascii c <=? nat_of_ascii x) eqn:E2; [|reflexivity].
    apply Nat.leb_le in E1, E2. exfalso. apply E.
    rewrite <- (ascii_nat_embedding c), <- (ascii_nat_embedding x).
    f_equal. lia.
Qed.

Lemma existsb_in_range (c : ascii) (s : str) :
  existsb (in_range c) (map (fun x => (x, x)) s) = Py.contains c s.
Proof.
  unfold Py.contains. induction s as [|x s IH]; [reflexivity|].
  cbn [map existsb]. now rewrite in_range_single, IH.
Qed.

Lemma parse_set_simple (stuff : str) :
  stuff <> [] -> forallb set_char stuff = true ->
  parse_set stuff = Some (false, map (fun c => (c, c)) stuff).
Proof.
  intros Hne H. apply set_chars_spec in H as (Hpl & _ & Hd & Hx).
  unfold parse_set. rewrite tokens_plain by exact Hpl.
  destruct stuff as [|c0 stuff']; [congruence|].
  cbn [hd] in Hx. cbn [map]. rewrite Hx. cbv zeta iota.
  change (TChar c0 :: map TChar stuff') with (map TChar (c0 :: stuff')).
  now rewrite set_items_singles.
Qed.

Lemma parse_set_negated (stuff : str) :
  stuff <> [] -> forallb set_char stuff = true ->
  parse_set ("^"%char :: stuff) = Some (true, map (fun c => (c, c)) stuff).
Proof.
  intros Hne H. apply set_chars_spec in H as (Hpl & _ & Hd & Hx).
  unfold parse_set. cbn [tokens]. change (Ascii.eqb "^" "\") with false.
  cbv iota. rewrite tokens_plain by exact Hpl.
  change (Ascii.eqb "^" "^") with true. cbv zeta iota. cbn [tl].
  destruct stuff as [|c0 stuff']; [congruence|].
  rewrite set_items_singles by exact Hd. reflexivity.
Qed.

Lemma set_accepts_simple (stuff : str) (c : ascii) :
  stuff <> [] -> forallb set_char stuff = true ->
  set_accepts stuff c = true <-> In c stuff.
Proof.
  intros Hne H. unfold set_accepts. rewrite parse_set_simple by assumption.
  cbn [xorb]. rewrite existsb_in_range. unfold Py.contains.
  rewrite existsb_exists. split.
  - intros (x & Hin & E). apply Ascii.eqb_eq in E as ->. exact Hin.
  - intros Hin. exists c. split; [exact Hin | apply Ascii.eqb_refl].
Qed.

Lemma set_accepts_negated (stuff : str) (c : ascii) :
  stuff <> [] -> forallb set_char stuff = true ->
  set_accepts ("^"%char :: stuff) c = true <-> ~ In c stuff.
Proof.
  intros Hne H. unfold set_accepts. rewrite parse_set_negated by assumption.
  rewrite existsb_in_range. unfold Py.contains.
  change (xorb true ?b) with (negb b). rewrite negb_true_iff.
  rewrite <- not_true_iff_false, existsb_exists. split.
  - intros Hno Hin. apply Hno. exists c. split; [exact Hin | apply Ascii.eqb_refl].
  - intros Hno (x & Hin & E). apply Ascii.eqb_eq in E as ->. now apply Hno.
Qed.

(** A range that runs backwards is no set. *)
Lemma parse_set_reversed (hi lo : ascii) :
  set_char hi = true -> set_char lo = true ->
  nat_of_ascii lo < nat_of_ascii hi ->
  parse_set [hi; "-"%char; lo] = None.
Proof.
  intros Hhi Hlo Hlt.
  apply set_char_spec in Hhi as (Hp1 & _ & _ & Hx).
  apply set_char_spec in Hlo as (Hp2 & _ & _ & _).
  assert (Hpl : plain [hi; "-"%char; lo]).
  { apply plain_cons. split; [exact Hp1|]. apply plain_cons.
    split; [reflexivity|]. apply plain_cons. now split. }
  unfold parse_set. rewrite tokens_plain by exact Hpl.
  cbn [map]. rewrite Hx. cbv zeta iota.
  cbn [set_items is_dash token_char]. change (Ascii.eqb "-" "-") with true.
  cbv iota. apply Nat.ltb_lt in Hlt. now rewrite Hlt.
Qed.

(** ** Patterns with one wildcard or set between plain texts *)

Lemma opens_at_head (u x : str) :
  plain u -> x <> [] -> opens_cleanly (hd Ascii.zero x) = true ->
  opens_cleanly (hd Ascii.zero (u ++ x)) = true.
Proof.
  intros Hu Hx H. destruct u as [|c u]; [exact H|].
  apply plain_cons in Hu as [Hc _]. now apply plain_opens.
Qed.

Lemma closes_at_last (x v : str) :
  plain v -> x <> [] -> closes_cleanly (last x Ascii.zero) = true ->
  closes_cleanly (last (x ++ v) Ascii.zero) = true.
Proof.
  intros Hv Hx H.
  destruct (list_eq_dec ascii_dec v []) as [->|Hne];
    [now rewrite app_nil_r|].
  rewrite last_app_nonempty by exact Hne.
  apply plain_closes. now apply plain_last_char.
Qed.

Section Tokens.

Variable base : Path.
Variable src : Path * nat.
Hypothesis base_absolute : is_absolute base = true.

(** [u], then one token [mid] the translator turns into [piece], then [v]. *)
Lemma rule_of_one_token (mid : str) (piece : Re.piece) (u v : str) :
  plain u -> plain v -> mid <> [] ->
  Py.contains "*" mid = false -> Py.contains "/" mid = false ->
  opens_cleanly (hd Ascii.zero mid) = true ->
  closes_cleanly (last mid Ascii.zero) = true ->
  (forall res, scan (mid ++ v) 0 res = scan v 0 (res ++ [piece])) ->
  rule_from_pattern (u ++ mid ++ v) base src =
  Ok (Some (mkIgnoreRule (u ++ mid ++ v)
              (Flags :: map Lit u ++ [piece] ++ map Lit v ++ [Eol])
              false false false base src)).
Proof.
  intros Hu Hv Hmid Hstar Hslash Hopen Hclose Hscan.
  assert (Hne : mid ++ v <> []) by (destruct mid; [congruence | discriminate]).
  pose proof (@rule_of_clean_line false (u ++ mid ++ v) [] base src
                base_absolute) as H.
  cbn [app] in H. rewrite !app_nil_r in H. rewrite H; clear H.
  - rewrite !contains_app, (@contains_plain u "/"%char Hu eq_refl), Hslash,
      (@contains_plain v "/"%char Hv eq_refl). cbn [orb].
    unfold fnmatch_pathname_to_regex. rewrite scan_start.
    rewrite scan_plain_stretch by exact Hu. cbn [app].
    rewrite Hscan, scan_plain_all by exact Hv. cbn [bind].
    now rewrite <- !app_assoc.
  - destruct u; [exact Hne | discriminate].
  - rewrite !contains_app, (@contains_plain u "*"%char Hu eq_refl), Hstar,
      (@contains_plain v "*"%char Hv eq_refl). reflexivity.
  - apply opens_at_head; [exact Hu | exact Hne|].
    now rewrite hd_app_nonempty.
  - rewrite app_assoc. apply closes_at_last; [exact Hv | |].
    + destruct u; [exact Hmid | discriminate].
    + now rewrite last_app_nonempty.
  - reflexivity.
Qed.

End Tokens.

(** One character accepted by [P] between [u] and [v], at the end of a
    single line. *)
Lemma search_one_char (piece : Re.piece) (P : ascii -> bool) (u v t : str) :
  (forall re, match_here (piece :: re) = one P (match_here re)) ->
  single_line t ->
  search_from (Flags :: map Lit u ++ [piece] ++ map Lit v ++ [Eol]) None t = true
  <-> exists pre c, t = pre ++ u ++ c :: v /\ P c = true.
Proof.
  intros Hpiece Hsl. rewrite search_unanchored. split.
  - intros (pre & t0 & -> & H). apply match_here_lits in H as (t1 & -> & H).
    cbn [app] in H. rewrite Hpiece in H.
    apply one_iff in H as (c & t2 & -> & Hc & H).
    apply match_here_lits in H as (t3 & -> & H).
    apply match_here_eol in H as ->.
    + exists pre, c. now rewrite app_nil_r.
    + apply single_line_suffix in Hsl. apply single_line_suffix in Hsl.
      apply (single_line_suffix [c]) in Hsl.
      now apply single_line_suffix in Hsl.
  - intros (pre & c & -> & Hc). exists pre, (u ++ c :: v).
    split; [reflexivity|]. apply match_here_lits.
    exists (c :: v). split; [reflexivity|]. cbn [app]. rewrite Hpiece.
    apply one_iff. exists c, v. split; [reflexivity|]. split; [exact Hc|].
    apply match_here_lits. exists []. split; [now rewrite app_nil_r | reflexivity].
Qed.

Lemma is_nonsep_iff (c : ascii) : is_nonsep c = true <-> c <> "/"%char.
Proof.
  unfold is_nonsep. rewrite negb_true_iff. apply Ascii.eqb_neq.
Qed.

Ltac by_resolved_with H Hok :=
  repeat match goal with
         | |- context [IgnoreRule_match ?fs ?r ?c ?h] =>
             rewrite (@match_resolved fs r c h _ H)
               by (cbn [regex]; unfold compiles;
                   repeat (rewrite ?forallb_app, ?forallb_ok_lits;
                           cbn [forallb andb]);
                   rewrite ?Hok; reflexivity)
         end.

(** X17. A question mark stands for one character of a name: the rule of
    [u?v], for plain texts [u] and [v], matches a candidate below the base
    directory, of a single-line relative path, exactly when that path ends
    with [u], one character that is not the separator, and [v]. *)
Theorem question_mark_is_one_character_of_a_name :
  forall (fs : FileSystem) (u v : str) (base : Path) (source : Path * nat)
         (candidate : Path) (hint : option bool) (rel_path : str),
    is_absolute base = true ->
    plain u -> plain v ->
    resolves_to fs candidate base rel_path ->
    single_line rel_path ->
    exists rule,
      rule_from_pattern (u ++ lit "?" ++ v) base source = Ok (Some rule)
      /\ decides (IgnoreRule_match fs rule candidate hint)
                 (exists pre c, rel_path = pre ++ u ++ c :: v
                                /\ c <> "/"%char).
Proof.
  intros fs u v base source candidate hint s Habs Hu Hv Hres Hsl.
  exists (mkIgnoreRule (u ++ lit "?" ++ v)
            (Flags :: map Lit u ++ [Nonsep] ++ map Lit v ++ [Eol])
            false false false base source).
  split.
  - apply rule_of_one_token; auto; try reflexivity; try discriminate.
    intros res. apply scan_question_mark.
  - by_resolved Hres. cbn [regex negation andb]. apply decides_Ok.
    rewrite (@search_one_char Nonsep is_nonsep) by (auto; reflexivity).
    split; intros (pre & c & E & Hc); exists pre, c; split; auto;
      now apply is_nonsep_iff.
Qed.

Lemma question_mark_is_one_character_of_a_name_witness :
  exists rule,
    rule_from_pattern (lit "log" ++ lit "?" ++ lit ".txt") repo
      (Path_of_str (lit "/repo/.gitignore"), 1) = Ok (Some rule)
    /\ decides (IgnoreRule_match demo_fs rule
                  (Path_of_str (lit "/repo/log1.txt")) None)
               (exists pre c, lit "log1.txt" = pre ++ lit "log" ++ c :: lit ".txt"
                              /\ c <> "/"%char).
Proof.
  assert (Habs : is_absolute repo = true) by reflexivity.
  assert (Hu : plain (lit "log")) by reflexivity.
  assert (Hv : plain (lit ".txt")) by reflexivity.
  assert (Hres : resolves_to demo_fs (Path_of_str (lit "/repo/log1.txt")) repo
                   (lit "log1.txt")).
  { exists (Path_of_str (lit "/repo/log1.txt")), [lit "log1.txt"].
    split; [reflexivity | split; reflexivity]. }
  assert (Hsl : single_line (lit "log1.txt")).
  { vm_compute. intros H.
    repeat (destruct H as [H|H]; [discriminate H|]). exact H. }
  exact (@question_mark_is_one_character_of_a_name demo_fs (lit "log") (lit ".txt")
           repo (Path_of_str (lit "/repo/.gitignore"), 1)
           (Path_of_str (lit "/repo/log1.txt")) None (lit "log1.txt")
           Habs Hu Hv Hres Hsl).
Defined.

(** X18. A [[] that no []] closes is a character like another: the rule of
    [u[v], for plain texts [u] and [v] with no []] in [v], matches a
    candidate below the base directory, of a single-line relative path,
    exactly when that path ends with the text [u[v] itself. *)
Theorem open_bracket_without_closing_is_literal :
  forall (fs : FileSystem) (u v : str) (base : Path) (source : Path * nat)
         (candidate : Path) (hint : option bool) (rel_path : str),
    is_absolute base = true ->
    plain u -> plain v -> ~ In "]"%char v ->
    resolves_to fs candidate base rel_path ->
    single_line rel_path ->
    exists rule,
      rule_from_pattern (u ++ lit "[" ++ v) base source = Ok (Some rule)
      /\ decides (IgnoreRule_match fs rule candidate hint)
                 (exists pre, rel_path = pre ++ u ++ lit "[" ++ v).
Proof.
  intros fs u v base source candidate hint s Habs Hu Hv Hno Hres Hsl.
  exists (mkIgnoreRule (u ++ lit "[" ++ v)
            (Flags :: map Lit u ++ [LBracket] ++ map Lit v ++ [Eol])
            false false false base source).
  split.
  - apply rule_of_one_token; auto; try reflexivity; try discriminate.
    intros res. now apply scan_open_bracket.
  - by_resolved Hres. cbn [regex negation andb]. apply decides_Ok.
    rewrite (@search_one_char LBracket (Ascii.eqb "[")) by (auto; reflexivity).
    split.
    + intros (pre & c & -> & Hc). apply Ascii.eqb_eq in Hc as <-. now exists pre.
    + intros (pre & ->). exists pre, "["%char. split; reflexivity.
Qed.

Lemma open_bracket_without_closing_is_literal_witness :
  exists rule,
    rule_from_pattern (lit "a" ++ lit "[" ++ lit "b") repo
      (Path_of_str (lit "/repo/.gitignore"), 1) = Ok (Some rule)
    /\ decides (IgnoreRule_match demo_fs rule
                  (Path_of_str (lit "/repo/a[b")) None)
               (exists pre, lit "a[b" = pre ++ lit "a" ++ lit "[" ++ lit "b").
Proof.
  assert (Habs : is_absolute repo = true) by reflexivity.
  assert (Hu : plain (lit "a")) by reflexivity.
  assert (Hv : plain (lit "b")) by reflexivity.
  assert (Hno : ~ In "]"%char (lit "b")).
  { intros H. repeat (destruct H as [H|H]; [discriminate H|]). exact H. }
  assert (Hres : resolves_to demo_fs (Path_of_str (lit "/repo/a[b")) repo
                   (lit "a[b")).
  { exists (Path_of_str (lit "/repo/a[b")), [lit "a[b"].
    split; [reflexivity | split; reflexivity]. }
  assert (Hsl : single_line (lit "a[b")).
  { vm_compute. intros H.
    repeat (destruct H as [H|H]; [discriminate H|]). exact H. }
  exact (@open_bracket_without_closing_is_literal demo_fs (lit "a") (lit "b")
           repo (Path_of_str (lit "/repo/.gitignore"), 1)
           (Path_of_str (lit "/repo/a[b")) None (lit "a[b")
           Habs Hu Hv Hno Hres Hsl).
Defined.

(** X19. A set of characters stands for one of them: the rule of
    [u[stuff]v], for plain texts [u] and [v] and a set of plain characters
    other than []], [-] and [^], matches a candidate below the base
    directory, of a single-line relative path, exactly when that path ends
    with [u], one character of the set, and [v]. *)
Theorem character_set_is_one_of_its_characters :
  forall (fs : FileSystem) (u stuff v : str) (base : Path) (source : Path * nat)
         (candidate : Path) (hint : option bool) (rel_path : str),
    is_absolute base = true ->
    plain u -> plain v ->
    stuff <> [] -> forallb set_char stuff = true ->
    resolves_to fs candidate base rel_path ->
    single_line rel_path ->
    exists rule,
      rule_from_pattern (u ++ (lit "[" ++ stuff ++ lit "]") ++ v) base source
      = Ok (Some rule)
      /\ decides (IgnoreRule_match fs rule candidate hint)
                 (exists pre c, rel_path = pre ++ u ++ c :: v /\ In c stuff).
Proof.
  intros fs u stuff v base source candidate hint s Habs Hu Hv Hne Hset Hres Hsl.
  pose proof (set_chars_spec _ Hset) as (Hpl & Hno & Hdash & Hcaret).
  assert (Hok : piece_ok (Class stuff) = true).
  { cbn [piece_ok]. now rewrite parse_set_simple. }
  exists (mkIgnoreRule (u ++ (lit "[" ++ stuff ++ lit "]") ++ v)
            (Flags :: map Lit u ++ [Class stuff] ++ map Lit v ++ [Eol])
            false false false base source).
  split.
  - apply rule_of_one_token; auto; try discriminate.
    + cbn [lit list_ascii_of_string app]. unfold Py.contains. cbn [existsb].
      change (Ascii.eqb "*" "[") with false. cbn [orb].
      fold (Py.contains "*" (stuff ++ ["]"%char])).
      now rewrite contains_app, (@contains_plain stuff "*"%char Hpl eq_refl).
    + cbn [lit list_ascii_of_string app]. unfold Py.contains. cbn [existsb].
      change (Ascii.eqb "/" "[") with false. cbn [orb].
      fold (Py.contains "/" (stuff ++ ["]"%char])).
      now rewrite contains_app, (@contains_plain stuff "/"%char Hpl eq_refl).
    + change (lit "]") with ["]"%char]. rewrite app_assoc, last_last.
      reflexivity.
    + intros res. cbn [lit list_ascii_of_string app].
      rewrite <- app_assoc. cbn [app]. now apply scan_class.
  - by_resolved_with Hres Hok. cbn [regex negation andb]. apply decides_Ok.
    rewrite (@search_one_char (Class stuff) (set_accepts stuff))
      by (auto; reflexivity).
    split; intros (pre & c & E & Hc); exists pre, c; split; auto;
      now apply (set_accepts_simple c Hne Hset).
Qed.

Lemma character_set_is_one_of_its_characters_witness :
  exists rule,
    rule_from_pattern (lit "a." ++ (lit "[" ++ lit "oa" ++ lit "]") ++ [])
      repo (Path_of_str (lit "/repo/.gitignore"), 1) = Ok (Some rule)
    /\ decides (IgnoreRule_match demo_fs rule
                  (Path_of_str (lit "/repo/lib/a.o")) None)
               (exists pre c, lit "lib/a.o" = pre ++ lit "a." ++ c :: []
                              /\ In c (lit "oa")).
Proof.
  assert (Habs : is_absolute repo = true) by reflexivity.
  assert (Hu : plain (lit "a.")) by reflexivity.
  assert (Hv : plain []) by reflexivity.
  assert (Hne : lit "oa" <> []) by discriminate.
  assert (Hset : forallb set_char (lit "oa") = true) by reflexivity.
  assert (Hres : resolves_to demo_fs (Path_of_str (lit "/repo/lib/a.o")) repo
                   (lit "lib/a.o")).
  { exists (Path_of_str (lit "/repo/lib/a.o")), [lit "lib"; lit "a.o"].
    split; [reflexivity | split; reflexivity]. }
  assert (Hsl : single_line (lit "lib/a.o")).
  { vm_compute. intros H.
    repeat (destruct H as [H|H]; [discriminate H|]). exact H. }
  exact (@character_set_is_one_of_its_characters demo_fs (lit "a.") (lit "oa") []
           repo (Path_of_str (lit "/repo/.gitignore"), 1)
           (Path_of_str (lit "/repo/lib/a.o")) None (lit "lib/a.o")
           Habs Hu Hv Hne Hset Hres Hsl).
Defined.

(** X20. A negated set stands for any one character outside it, the
    separator included: the rule of [u[!stuff]v] matches a candidate below
    the base directory, of a single-line relative path, exactly when that
    path ends with [u], one character that is not in the set, and [v]; so it
    matches a path that ends with [u/v]. *)
Theorem negated_set_accepts_the_separator :
  forall (fs : FileSystem) (u stuff v : str) (base : Path) (source : Path * nat)
         (candidate : Path) (hint : option bool) (rel_path : str),
    is_absolute base = true ->
    plain u -> plain v ->
    stuff <> [] -> forallb set_char stuff = true ->
    resolves_to fs candidate base rel_path ->
    single_line rel_path ->
    exists rule,
      rule_from_pattern (u ++ (lit "[!" ++ stuff ++ lit "]") ++ v) base source
      = Ok (Some rule)
      /\ decides (IgnoreRule_match fs rule candidate hint)
                 (exists pre c, rel_path = pre ++ u ++ c :: v /\ ~ In c stuff)
      /\ ((exists pre, rel_path = pre ++ u ++ lit "/" ++ v) ->
          IgnoreRule_match fs rule candidate hint = Ok true).
Proof.
  intros fs u stuff v base source candidate hint s Habs Hu Hv Hne Hset Hres Hsl.
  pose proof (set_chars_spec _ Hset) as (Hpl & Hno & Hdash & Hcaret).
  assert (Hok : piece_ok (Class ("^"%char :: stuff)) = true).
  { cbn [piece_ok]. now rewrite parse_set_negated. }
  assert (Hsearch :
            search_from (Flags :: map Lit u ++ [Class ("^"%char :: stuff)]
                           ++ map Lit v ++ [Eol]) None s = true
            <-> exists pre c, s = pre ++ u ++ c :: v /\ ~ In c stuff).
  { rewrite (@search_one_char (Class ("^"%char :: stuff))
               (set_accepts ("^"%char :: stuff))) by (auto; reflexivity).
    split; intros (pre & c & E & Hc); exists pre, c; split; auto;
      now apply (set_accepts_negated c Hne Hset). }
  exists (mkIgnoreRule (u ++ (lit "[!" ++ stuff ++ lit "]") ++ v)
            (Flags :: map Lit u ++ [Class ("^"%char :: stuff)] ++ map Lit v
               ++ [Eol])
            false false false base source).
  split; [|split].
  - apply rule_of_one_token; auto; try discriminate.
    + cbn [lit list_ascii_of_string app]. unfold Py.contains. cbn [existsb].
      change (Ascii.eqb "*" "[") with false.
      change (Ascii.eqb "*" "!") with false. cbn [orb].
      fold (Py.contains "*" (stuff ++ ["]"%char])).
      now rewrite contains_app, (@contains_plain stuff "*"%char Hpl eq_refl).
    + cbn [lit list_ascii_of_string app]. unfold Py.contains. cbn [existsb].
      change (Ascii.eqb "/" "[") with false.
      change (Ascii.eqb "/" "!") with false. cbn [orb].
      fold (Py.contains "/" (stuff ++ ["]"%char])).
      now rewrite contains_app, (@contains_plain stuff "/"%char Hpl eq_refl).
    + change (lit "]") with ["]"%char]. rewrite app_assoc, last_last.
      reflexivity.
    + intros res. cbn [lit list_ascii_of_string app].
      rewrite <- app_assoc. cbn [app]. now apply scan_negated_class.
  - by_resolved_with Hres Hok. cbn [regex negation andb]. now apply decides_Ok.
  - intros (pre & ->). by_resolved_with Hres Hok. cbn [regex negation andb].
    f_equal. apply Hsearch. exists pre, "/"%char. split; [reflexivity|].
    now apply plain_without.
Qed.

Lemma negated_set_accepts_the_separator_witness :
  exists rule,
    rule_from_pattern (lit "a" ++ (lit "[!" ++ lit "x" ++ lit "]") ++ lit "b")
      repo (Path_of_str (lit "/repo/.gitignore"), 1) = Ok (Some rule)
    /\ decides (IgnoreRule_match demo_fs rule
                  (Path_of_str (lit "/repo/a/b")) None)
               (exists pre c, lit "a/b" = pre ++ lit "a" ++ c :: lit "b"
                              /\ ~ In c (lit "x"))
    /\ IgnoreRule_match demo_fs rule (Path_of_str (lit "/repo/a/b")) None
       = Ok true.
Proof.
  assert (Habs : is_absolute repo = true) by reflexivity.
  assert (Hu : plain (lit "a")) by reflexivity.
  assert (Hv : plain (lit "b")) by reflexivity.
  assert (Hne : lit "x" <> []) by discriminate.
  assert (Hset : forallb set_char (lit "x") = true) by reflexivity.
  assert (Hres : resolves_to demo_fs (Path_of_str (lit "/repo/a/b")) repo
                   (lit "a/b")).
  { exists (Path_of_str (lit "/repo/a/b")), [lit "a"; lit "b"].
    split; [reflexivity | split; reflexivity]. }
  assert (Hsl : single_line (lit "a/b")).
  { vm_compute. intros H.
    repeat (destruct H as [H|H]; [discriminate H|]). exact H. }
  destruct (@negated_set_accepts_the_separator demo_fs (lit "a") (lit "x")
              (lit "b") repo (Path_of_str (lit "/repo/.gitignore"), 1)
              (Path_of_str (lit "/repo/a/b")) None (lit "a/b")
              Habs Hu Hv Hne Hset Hres Hsl) as (rule & Hc & Hd & Hslash).
  exists rule. split; [exact Hc|]. split; [exact Hd|].
  apply Hslash. now exists [].
Defined.

Lemma match_resolved_bad (fs : FileSystem) (rule : IgnoreRule) (candidate : Path)
  (hint : option bool) (s : str) :
  resolves_to fs candidate (base_path rule) s ->
  compiles (regex rule) = false ->
  IgnoreRule_match fs rule candidate hint = Raise ReError.
Proof.
  intros (resolved & rel & Hres & Hrel & _) Hre. unfold IgnoreRule_match.
  rewrite Hres, Hrel. cbv zeta. unfold Re.search. now rewrite Hre.
Qed.

(** X21. A set whose range runs backwards, as in [[z-a]], is accepted when
    the line is compiled and found out only when the rule is used: the rule
    raises [re.error] for every candidate below its base directory, and so
    does [handle_negation] when the rule is the last of the rule set. *)
Theorem reversed_range_raises_when_the_rule_is_used :
  forall (fs : FileSystem) (u v : str) (hi lo : ascii) (base : Path)
         (source : Path * nat) (candidate : Path) (rel_path : str),
    is_absolute base = true ->
    plain u -> plain v ->
    set_char hi = true -> set_char lo = true ->
    nat_of_ascii lo < nat_of_ascii hi ->
    resolves_to fs candidate base rel_path ->
    exists rule,
      rule_from_pattern (u ++ (lit "[" ++ [hi; "-"%char; lo] ++ lit "]") ++ v)
        base source = Ok (Some rule)
      /\ (forall hint, IgnoreRule_match fs rule candidate hint = Raise ReError)
      /\ (forall earlier,
             handle_negation fs (earlier ++ [rule]) (PathObj candidate)
             = Raise ReError).
Proof.
  intros fs u v hi lo base source candidate s Habs Hu Hv Hhi Hlo Hlt Hres.
  pose proof (set_char_spec _ Hhi) as (Hp1 & Hb1 & _ & Hx1).
  pose proof (set_char_spec _ Hlo) as (Hp2 & Hb2 & _ & _).
  assert (Hpl : plain [hi; "-"%char; lo]).
  { apply plain_cons. split; [exact Hp1|]. apply plain_cons.
    split; [reflexivity|]. apply plain_cons. now split. }
  assert (Hno : ~ In "]"%char [hi; "-"%char; lo]).
  { intros [E|[E|[E|[]]]]; subst; discriminate. }
  set (rule := mkIgnoreRule
                 (u ++ (lit "[" ++ [hi; "-"%char; lo] ++ lit "]") ++ v)
                 (Flags :: map Lit u ++ [Class [hi; "-"%char; lo]] ++ map Lit v
                    ++ [Eol])
                 false false false base source).
  assert (Hbad : forall hint, IgnoreRule_match fs rule candidate hint
                              = Raise ReError).
  { intros hint. apply (@match_resolved_bad fs rule candidate hint s Hres).
    cbn [rule regex]. unfold compiles.
    cbn [forallb piece_ok andb]. rewrite forallb_app, forallb_ok_lits.
    cbn [andb app forallb piece_ok].
    now rewrite parse_set_reversed. }
  exists rule. split; [|split].
  - apply rule_of_one_token; auto; try discriminate.
    + cbn [lit list_ascii_of_string app].
      change (Py.contains "*" ("["%char :: [hi; "-"%char; lo] ++ ["]"%char])
              = false).
      change ("["%char :: [hi; "-"%char; lo] ++ ["]"%char])
        with (lit "[" ++ [hi; "-"%char; lo] ++ lit "]").
      now rewrite !contains_app,
        (@contains_plain [hi; "-"%char; lo] "*"%char Hpl eq_refl).
    + cbn [lit list_ascii_of_string app].
      change (Py.contains "/" ("["%char :: [hi; "-"%char; lo] ++ ["]"%char])
              = false).
      change ("["%char :: [hi; "-"%char; lo] ++ ["]"%char])
        with (lit "[" ++ [hi; "-"%char; lo] ++ lit "]").
      now rewrite !contains_app,
        (@contains_plain [hi; "-"%char; lo] "/"%char Hpl eq_refl).
    + intros res.
      change ((lit "[" ++ [hi; "-"%char; lo] ++ lit "]") ++ v)
        with ("["%char :: [hi; "-"%char; lo] ++ "]"%char :: v).
      now apply scan_class.
  - exact Hbad.
  - intros earlier. unfold handle_negation. cbn [file_path_and_hint bind fst snd].
    rewrite rev_app_distr. cbn [rev app first_match]. now rewrite Hbad.
Qed.

Lemma reversed_range_raises_when_the_rule_is_used_witness :
  exists rule,
    rule_from_pattern (lit "log" ++ (lit "[" ++ lit "z-a" ++ lit "]") ++ [])
      repo (Path_of_str (lit "/repo/.gitignore"), 2) = Ok (Some rule)
    /\ IgnoreRule_match demo_fs rule (Path_of_str (lit "/repo/notes")) None
       = Raise ReError
    /\ handle_negation demo_fs ([demo_rule "*.txt"] ++ [rule])
         (PathObj (Path_of_str (lit "/repo/notes")))
       = Raise ReError.
Proof.
  assert (Habs : is_absolute repo = true) by reflexivity.
  assert (Hu : plain (lit "log")) by reflexivity.
  assert (Hv : plain []) by reflexivity.
  assert (Hhi : set_char "z" = true) by reflexivity.
  assert (Hlo : set_char "a" = true) by reflexivity.
  assert (Hlt : nat_of_ascii "a" < nat_of_ascii "z") by (vm_compute; lia).
  assert (Hres : resolves_to demo_fs (Path_of_str (lit "/repo/notes")) repo
                   (lit "notes")).
  { exists (Path_of_str (lit "/repo/notes")), [lit "notes"].
    split; [reflexivity | split; reflexivity]. }
  destruct (@reversed_range_raises_when_the_rule_is_used demo_fs (lit "log") []
              "z"%char "a"%char repo (Path_of_str (lit "/repo/.gitignore"), 2)
              (Path_of_str (lit "/repo/notes")) (lit "notes")
              Habs Hu Hv Hhi Hlo Hlt Hres) as (rule & Hc & Hm & Hh).
  exists rule. split; [exact Hc|]. split; [apply Hm | apply Hh].
Defined.

(** ** Backslashes: the escaped blank and the escaped hash *)

Section Escapes.

Variable base : Path.
Variable src : Path * nat.
Hypothesis base_absolute : is_absolute base = true.

(** [name\ ], and [name\] as well *)
Lemma rule_of_escaped_blank (u ws : str) :
  plain_name u -> blanks ws ->
  rule_from_pattern (u ++ lit "\" ++ ws) base src =
  Ok (Some (mkIgnoreRule (u ++ lit "\" ++ ws)
              (Flags :: map Lit (u ++ lit " ") ++ [Eol])
              false false false base src)).
Proof.
  intros Hu Hws. pose proof Hu as [Hne Hpl].
  pose proof (plain_char_spec _ (plain_head_char Hu))
    as (Hh0 & Hh1 & Hh2 & Hh3 & Hh4 & Hh5 & Hh6 & Hh7).
  set (p := u ++ lit "\").
  assert (Hline : u ++ lit "\" ++ ws = p ++ ws) by (unfold p; now rewrite <- app_assoc).
  assert (Hp : p <> []) by (unfold p; destruct u; discriminate).
  assert (Hpl' : last p Ascii.zero = "\"%char) by apply last_last.
  assert (Hne' : p ++ ws <> []) by (destruct p; [congruence | discriminate]).
  assert (Hhd : hd Ascii.zero (p ++ ws) = hd Ascii.zero u).
  { unfold p. rewrite <- app_assoc. now apply hd_app_nonempty. }
  assert (Hrs : Py.rstrip (p ++ ws) = p).
  { apply rstrip_blanks; [exact Hp | now rewrite Hpl' | exact Hws]. }
  assert (Hstar : Py.contains "*" (p ++ ws) = false).
  { unfold p. rewrite !contains_app, (@contains_plain u "*"%char Hpl eq_refl).
    cbn [orb]. now rewrite (@contains_blanks "*"%char ws Hws eq_refl). }
  assert (Hsl : Py.contains "/" (p ++ ws) = false).
  { unfold p. rewrite !contains_app, (@contains_plain u "/"%char Hpl eq_refl).
    cbn [orb]. now rewrite (@contains_blanks "/"%char ws Hws eq_refl). }
  assert (Hlast : Ascii.eqb (last (p ++ ws) Ascii.zero) "/" = false).
  { apply last_before_blanks; auto. now rewrite Hpl'. }
  rewrite Hline. rewrite rule_from_pattern_checked; auto.
  - unfold finish. rewrite getitem_last by exact Hne'. cbn [bind].
    rewrite Hlast. cbv zeta.
    unfold Py.slice_to_minus. rewrite contains_firstn by exact Hsl.
    unfold lit in *. cbn [list_ascii_of_string] in *.
    rewrite str_lcut_miss by (try rewrite Hhd; assumption). cbv beta iota.
    rewrite str_lcut_miss by (try rewrite Hhd; assumption). cbv beta iota.
    rewrite str_lcut_miss by (try rewrite Hhd; assumption). cbv beta iota.
    rewrite str_rcut_miss by assumption. cbv beta iota.
    rewrite startswith_miss by (try rewrite Hhd; assumption).
    rewrite Hrs. unfold p. rewrite str_rcut_hit. cbv beta iota.
    unfold fnmatch_pathname_to_regex. rewrite scan_start.
    rewrite scan_plain_stretch by exact Hpl.
    rewrite scan_literal_char by reflexivity. cbn [bind scan fnmatch_loop length].
    rewrite map_app. reflexivity.
  - unfold Py.strip. destruct (p ++ ws) as [|c l] eqn:E; [congruence|].
    cbn [hd] in Hhd. rewrite lstrip_id by (now rewrite Hhd).
    now rewrite Hrs.
  - now rewrite Hhd.
  - now rewrite Hhd.
  - now apply has_triple_without_asterisk.
  - now rewrite finditer_without_asterisk.
  - rewrite Hrs. unfold p. apply app_not_single; [exact Hne | discriminate].
Qed.

(** [\#name] *)
Lemma rule_of_escaped_hash (u : str) :
  plain u ->
  rule_from_pattern (lit "\#" ++ u) base src =
  Ok (Some (mkIgnoreRule (lit "\#" ++ u)
              (Flags :: map Lit (lit "#" ++ u) ++ [Eol])
              false false false base src)).
Proof.
  intros Hpl.
  assert (Hne : lit "\#" ++ u <> []) by discriminate.
  assert (Hcl : closes_cleanly (last (lit "\#" ++ u) Ascii.zero) = true)
    by (apply closes_at_last; [exact Hpl | discriminate | reflexivity]).
  assert (Hcl' : closes_cleanly (last (lit "#" ++ u) Ascii.zero) = true)
    by (apply closes_at_last; [exact Hpl | discriminate | reflexivity]).
  apply closes_cleanly_spec in Hcl as (Hl0 & Hl1 & Hl2).
  apply closes_cleanly_spec in Hcl' as (Hm0 & Hm1 & Hm2).
  assert (Hstar : Py.contains "*" (lit "\#" ++ u) = false).
  { rewrite contains_app, (@contains_plain u "*"%char Hpl eq_refl). reflexivity. }
  assert (Hsl : Py.contains "/" (lit "\#" ++ u) = false).
  { rewrite contains_app, (@contains_plain u "/"%char Hpl eq_refl). reflexivity. }
  assert (Hrs : Py.rstrip (lit "\#" ++ u) = lit "\#" ++ u)
    by (apply rstrip_keep; assumption).
  rewrite rule_from_pattern_checked; auto.
  - unfold finish. rewrite getitem_last by exact Hne. cbn [bind].
    rewrite Hl1. cbv zeta.
    unfold Py.slice_to_minus. rewrite contains_firstn by exact Hsl.
    unfold lit in *. cbn [list_ascii_of_string app] in *.
    rewrite str_lcut_miss by (try reflexivity; discriminate). cbv beta iota.
    rewrite str_lcut_miss by (try reflexivity; discriminate). cbv beta iota.
    rewrite str_lcut_miss by (try reflexivity; discriminate). cbv beta iota.
    rewrite str_rcut_miss by (assumption || discriminate). cbv beta iota.
    cbn [Py.startswith Ascii.eqb Bool.eqb andb]. rewrite startswith_nil.
    cbv iota. cbn [Py.slice_from skipn].
    rewrite rstrip_keep by (assumption || discriminate).
    rewrite str_rcut_miss by (assumption || discriminate). cbv beta iota.
    unfold fnmatch_pathname_to_regex. rewrite scan_start.
    rewrite scan_literal_char by reflexivity.
    rewrite scan_plain_all by exact Hpl. reflexivity.
  - rewrite strip_keep; auto.
  - now apply has_triple_without_asterisk.
  - now rewrite finditer_without_asterisk.
  - rewrite Hrs. discriminate.
Qed.

End Escapes.

Lemma search_name_end (u t : str) :
  single_line t ->
  search_from (Flags :: map Lit u ++ [Eol]) None t = true
  <-> exists pre, t = pre ++ u.
Proof.
  intros Hsl. rewrite search_literal_end. split.
  - intros (pre & rest & -> & H). apply match_here_eol in H as ->.
    + exists pre. now rewrite app_nil_r.
    + rewrite app_assoc in Hsl. now apply single_line_suffix in Hsl.
  - intros (pre & ->). exists pre, []. now rewrite app_nil_r.
Qed.

Lemma search_name_not_directory (u s : str) :
  plain_name u -> single_line s ->
  search_from (Flags :: map Lit u ++ [Eol]) None (s ++ lit "/") = false.
Proof.
  intros Hu Hsl. apply not_true_is_false.
  rewrite search_name_end by now apply single_line_slash.
  intros (pre & E). symmetry in E. revert E. now apply plain_name_ends.
Qed.

(** X22. A backslash at the end of the pattern, blanks after it or not, is
    an escaped blank: the blanks and the backslash are dropped and one space
    is put in their place. The rule of [name\ ], and of [name\] alike,
    matches a candidate below the base directory, of a single-line relative
    path, exactly when that path ends with the name and one space. *)
Theorem trailing_backslash_is_an_escaped_blank :
  forall (fs : FileSystem) (name ws : str) (base : Path) (source : Path * nat)
         (candidate : Path) (hint : option bool) (rel_path : str),
    is_absolute base = true ->
    plain_name name ->
    blanks ws ->
    resolves_to fs candidate base rel_path ->
    single_line rel_path ->
    exists rule,
      rule_from_pattern (name ++ lit "\" ++ ws) base source = Ok (Some rule)
      /\ decides (IgnoreRule_match fs rule candidate hint)
                 (exists pre, rel_path = pre ++ name ++ lit " ").
Proof.
  intros fs name ws base source candidate hint s Habs Hname Hws Hres Hsl.
  exists (mkIgnoreRule (name ++ lit "\" ++ ws)
            (Flags :: map Lit (name ++ lit " ") ++ [Eol])
            false false false base source).
  split; [now apply rule_of_escaped_blank|].
  by_resolved Hres. cbn [regex negation andb]. apply decides_Ok.
  now apply search_name_end.
Qed.

Lemma trailing_backslash_is_an_escaped_blank_witness :
  exists rule,
    rule_from_pattern (lit "draft" ++ lit "\" ++ lit "  ") repo
      (Path_of_str (lit "/repo/.gitignore"), 1) = Ok (Some rule)
    /\ decides (IgnoreRule_match demo_fs rule
                  (Path_of_str (lit "/repo/draft ")) None)
               (exists pre, lit "draft " = pre ++ lit "draft" ++ lit " ").
Proof.
  assert (Habs : is_absolute repo = true) by reflexivity.
  assert (Hname : plain_name (lit "draft"))
    by (split; [discriminate | reflexivity]).
  assert (Hws : blanks (lit "  ")) by reflexivity.
  assert (Hres : resolves_to demo_fs (Path_of_str (lit "/repo/draft ")) repo
                   (lit "draft ")).
  { exists (Path_of_str (lit "/repo/draft ")), [lit "draft "].
    split; [reflexivity | split; reflexivity]. }
  assert (Hsl : single_line (lit "draft ")).
  { vm_compute. intros H.
    repeat (destruct H as [H|H]; [discriminate H|]). exact H. }
  exact (@trailing_backslash_is_an_escaped_blank demo_fs (lit "draft") (lit "  ")
           repo (Path_of_str (lit "/repo/.gitignore"), 1)
           (Path_of_str (lit "/repo/draft ")) None (lit "draft ")
           Habs Hname Hws Hres Hsl).
Defined.

(** X23. A hash after a backslash at the start of a line is no comment: the
    backslash is dropped, and the rule of [\#name] matches a candidate below
    the base directory, of a single-line relative path, exactly when that
    path ends with [#name]. *)
Theorem escaped_hash_is_a_hash :
  forall (fs : FileSystem) (name : str) (base : Path) (source : Path * nat)
         (candidate : Path) (hint : option bool) (rel_path : str),
    is_absolute base = true ->
    plain name ->
    resolves_to fs candidate base rel_path ->
    single_line rel_path ->
    exists rule,
      rule_from_pattern (lit "\#" ++ name) base source = Ok (Some rule)
      /\ decides (IgnoreRule_match fs rule candidate hint)
                 (exists pre, rel_path = pre ++ lit "#" ++ name).
Proof.
  intros fs name base source candidate hint s Habs Hname Hres Hsl.
  exists (mkIgnoreRule (lit "\#" ++ name)
            (Flags :: map Lit (lit "#" ++ name) ++ [Eol])
            false false false base source).
  split; [now apply rule_of_escaped_hash|].
  by_resolved Hres. cbn [regex negation andb]. apply decides_Ok.
  now apply search_name_end.
Qed.

Lemma escaped_hash_is_a_hash_witness :
  exists rule,
    rule_from_pattern (lit "\#" ++ lit "tmp") repo
      (Path_of_str (lit "/repo/.gitignore"), 1) = Ok (Some rule)
    /\ decides (IgnoreRule_match demo_fs rule
                  (Path_of_str (lit "/repo/a/#tmp")) None)
               (exists pre, lit "a/#tmp" = pre ++ lit "#" ++ lit "tmp").
Proof.
  assert (Habs : is_absolute repo = true) by reflexivity.
  assert (Hname : plain (lit "tmp")) by reflexivity.
  assert (Hres : resolves_to demo_fs (Path_of_str (lit "/repo/a/#tmp")) repo
                   (lit "a/#tmp")).
  { exists (Path_of_str (lit "/repo/a/#tmp")), [lit "a"; lit "#tmp"].
    split; [reflexivity | split; reflexivity]. }
  assert (Hsl : single_line (lit "a/#tmp")).
  { vm_compute. intros H.
    repeat (destruct H as [H|H]; [discriminate H|]). exact H. }
  exact (@escaped_hash_is_a_hash demo_fs (lit "tmp")
           repo (Path_of_str (lit "/repo/.gitignore"), 1)
           (Path_of_str (lit "/repo/a/#tmp")) None (lit "a/#tmp")
           Habs Hname Hres Hsl).
Defined.

(** X24. A name and, after it, its negation: a candidate whose relative
    path is a single line and ends with the name is re-included when it is
    taken as a file and stays ignored when it is taken as a directory, by its
    hint or, without one, by the answer of the probe of the file system. *)
Theorem negation_of_a_name_reincludes_files_only :
  forall (fs : FileSystem) (name : str) (base : Path)
         (source source' : Path * nat) (candidate : pyobj)
         (file_path : Path) (hint : option bool) (rel_path : str),
    is_absolute base = true ->
    plain_name name ->
    file_path_and_hint candidate = Ok (file_path, hint) ->
    resolves_to fs file_path base rel_path ->
    single_line rel_path ->
    (exists pre, rel_path = pre ++ name) ->
    exists rule rule',
      rule_from_pattern name base source = Ok (Some rule)
      /\ rule_from_pattern (lit "!" ++ name) base source' = Ok (Some rule')
      /\ handle_negation fs [rule; rule'] candidate
         = Ok match hint with
              | None => fs_is_dir fs file_path
              | Some is_dir => is_dir
              end.
Proof.
  intros fs name base source source' candidate file_path hint s
         Habs Hname Harg Hres Hsl Hend.
  pose proof (@rule_of_name base source Habs false name [] Hname eq_refl) as H1.
  pose proof (@rule_of_name base source' Habs true name [] Hname eq_refl) as H2.
  cbn [app] in H1. rewrite !app_nil_r in H1, H2.
  exists (mkIgnoreRule name (Flags :: map Lit name ++ [Eol])
            false false false base source),
         (mkIgnoreRule (lit "!" ++ name) (Flags :: map Lit name ++ [Eol])
            true false false base source').
  split; [exact H1|]. split; [exact H2|].
  unfold handle_negation. rewrite Harg. cbn [bind fst snd rev app first_match].
  by_resolved Hres. cbn [regex negation andb bind].
  destruct (match hint with
            | None => fs_is_dir fs file_path
            | Some b => b
            end).
  - rewrite search_name_not_directory by assumption.
    apply (search_name_end name Hsl) in Hend. now rewrite Hend.
  - apply (search_name_end name Hsl) in Hend. now rewrite Hend.
Qed.

Lemma negation_of_a_name_reincludes_files_only_witness :
  exists rule rule',
    rule_from_pattern (lit "keep") repo
      (Path_of_str (lit "/repo/.gitignore"), 1) = Ok (Some rule)
    /\ rule_from_pattern (lit "!" ++ lit "keep") repo
         (Path_of_str (lit "/repo/.gitignore"), 2) = Ok (Some rule')
    /\ handle_negation demo_fs [rule; rule'] (StrObj (lit "/repo/a/keep/"))
       = Ok true.
Proof.
  assert (Habs : is_absolute repo = true) by reflexivity.
  assert (Hname : plain_name (lit "keep"))
    by (split; [discriminate | reflexivity]).
  assert (Harg : file_path_and_hint (StrObj (lit "/repo/a/keep/"))
                 = Ok (Path_of_str (lit "/repo/a/keep/"), Some true))
    by reflexivity.
  assert (Hres : resolves_to demo_fs (Path_of_str (lit "/repo/a/keep/")) repo
                   (lit "a/keep")).
  { exists (Path_of_str (lit "/repo/a/keep")), [lit "a"; lit "keep"].
    split; [reflexivity | split; reflexivity]. }
  assert (Hsl : single_line (lit "a/keep")).
  { vm_compute. intros H.
    repeat (destruct H as [H|H]; [discriminate H|]). exact H. }
  assert (Hend : exists pre, lit "a/keep" = pre ++ lit "keep")
    by (now exists (lit "a/")).
  exact (@negation_of_a_name_reincludes_files_only demo_fs (lit "keep") repo
           (Path_of_str (lit "/repo/.gitignore"), 1)
           (Path_of_str (lit "/repo/.gitignore"), 2)
           (StrObj (lit "/repo/a/keep/"))
           (Path_of_str (lit "/repo/a/keep/")) (Some true) (lit "a/keep")
           Habs Hname Harg Hres Hsl Hend).
Defined.
